(** * Descriptor Control Blocks: a shallow embedding of server/core/dcb.c

    The development follows the C file function by function.  One thread of
    execution is modelled: spinlock acquire/release pairs are no-ops there and
    are left out, and the [ss_dassert]/[ss_info_dassert]/[CHK_DCB] macros, which
    expand to nothing unless SS_DEBUG is defined, are left out as well.

    Memory is a finite map from addresses to DCB records, and the two
    intrusive lists (the registry through [next], the zombie list through
    [memdata.next]) are chains of addresses in it.  Calls that leave the file
    ([close], [free], [poll_remove_dcb], the router's [closeSession],
    [session_free]) are recorded in a trace; results that come from outside
    ([malloc], [load_module], [session_link_dcb], the protocol's [connect],
    [ioctl], [read], [write], [gwbuf_alloc], [poll_bitmask]) are arguments of
    the function that consumes them.  Loops over a list in memory take fuel.

    Two places of the source read what C leaves indeterminate, and the model
    keeps both visible.  [dcb_set_state_nomutex] returns a local that is not
    assigned on every path: the flag is an [option bool], and the function
    that tests it takes what the local held as an argument.  The victim loop
    of [dcb_process_zombies] reads [memdata.next] of a DCB after [free]: the
    release shows in the trace, and what the read yields is an argument of
    the loop. *)

From stdpp Require Import gmap list.
From Stdlib Require Import ZArith NArith Lia.
From Stdlib Require String.
Import String.StringSyntax.
Delimit Scope string_scope with string.

(** ** Data *)

(** Modelled from the spec: dcb.h is not among the sources.  [dcb_state_t]
    has the states of section 4.1 and the sentinel, under the names dcb.c
    switches on. *)
Inductive dcb_state_t :=
| DCB_STATE_UNDEFINED
| DCB_STATE_ALLOC
| DCB_STATE_POLLING
| DCB_STATE_LISTENING
| DCB_STATE_DISCONNECTED
| DCB_STATE_FREED
| DCB_STATE_NOPOLLING
| DCB_STATE_ZOMBIE.

#[global] Instance dcb_state_eq_dec : EqDecision dcb_state_t.
Proof. solve_decision. Defined.

(** Modelled from the spec: the roles of section 3.1 (dcb.h is not among the
    sources); dcb.c names DCB_ROLE_REQUEST_HANDLER only. *)
Inductive dcb_role_t :=
| DCB_ROLE_SERVICE_LISTENER
| DCB_ROLE_REQUEST_HANDLER
| DCB_ROLE_INTERNAL.

(** Addresses of DCBs and of sessions; [None] is the NULL pointer. *)
Abbreviation addr := nat (only parsing).
Abbreviation saddr := nat (only parsing).

(** A buffer of a chain is the bytes between its [start] and [end]. *)
Abbreviation GWBUF := (list Z) (only parsing).

(** Modelled from the spec: the counters of section 3.1, under the field
    names dcb.c uses (dcb.h is not among the sources). *)
Record DCBSTATS := mkDCBSTATS {
  n_reads : Z;
  n_writes : Z;
  n_accepts : Z;
  n_buffered : Z
}.

(** Modelled from the spec: [memdata] of section 3.1, the bitmask of polling
    threads and the zombie-list link (dcb.h is not among the sources). *)
Record DCBMM := mkDCBMM {
  bitmask : N;
  mm_next : option addr
}.

(** Modelled from the spec: the attributes of section 3.1 (dcb.h is not among
    the sources), under the field names dcb.c uses; the locks and the table
    of protocol operations are left out. *)
Record DCB := mkDCB {
  dcb_role : dcb_role_t;
  fd : Z;
  state : dcb_state_t;
  protocol : option nat;
  remote : option nat;
  session : option saddr;
  writeq : list GWBUF;
  delayq : list GWBUF;
  stats : DCBSTATS;
  next : option addr;
  data : option nat;
  memdata : DCBMM;
  command : Z
}.

(** Field assignments. *)
Definition set_fd (v : Z) (d : DCB) : DCB :=
  mkDCB (dcb_role d) v (state d) (protocol d) (remote d) (session d) (writeq d)
        (delayq d) (stats d) (next d) (data d) (memdata d) (command d).
Definition set_state (v : dcb_state_t) (d : DCB) : DCB :=
  mkDCB (dcb_role d) (fd d) v (protocol d) (remote d) (session d) (writeq d)
        (delayq d) (stats d) (next d) (data d) (memdata d) (command d).
Definition set_session (v : option saddr) (d : DCB) : DCB :=
  mkDCB (dcb_role d) (fd d) (state d) (protocol d) (remote d) v (writeq d)
        (delayq d) (stats d) (next d) (data d) (memdata d) (command d).
Definition set_writeq (v : list GWBUF) (d : DCB) : DCB :=
  mkDCB (dcb_role d) (fd d) (state d) (protocol d) (remote d) (session d) v
        (delayq d) (stats d) (next d) (data d) (memdata d) (command d).
Definition set_stats (v : DCBSTATS) (d : DCB) : DCB :=
  mkDCB (dcb_role d) (fd d) (state d) (protocol d) (remote d) (session d) (writeq d)
        (delayq d) v (next d) (data d) (memdata d) (command d).
Definition set_next (v : option addr) (d : DCB) : DCB :=
  mkDCB (dcb_role d) (fd d) (state d) (protocol d) (remote d) (session d) (writeq d)
        (delayq d) (stats d) v (data d) (memdata d) (command d).
Definition set_memdata (v : DCBMM) (d : DCB) : DCB :=
  mkDCB (dcb_role d) (fd d) (state d) (protocol d) (remote d) (session d) (writeq d)
        (delayq d) (stats d) (next d) (data d) v (command d).
Definition set_bitmask (v : N) (d : DCB) : DCB :=
  set_memdata (mkDCBMM v (mm_next (memdata d))) d.
Definition set_mm_next (v : option addr) (d : DCB) : DCB :=
  set_memdata (mkDCBMM (bitmask (memdata d)) v) d.

(** ** The state machine *)

(** [dcb_set_state_nomutex].  The C function declares [bool succp;] without an
    initialiser and assigns it only on the branches that accept the request, so
    the flag it returns is [Some true] where an assignment was executed and
    [None] where the local was never written.  [old_state] tells whether the
    caller passed a non-NULL pointer; the value stored through it is returned
    second. *)
Definition dcb_set_state_nomutex (dcb : DCB) (new_state : dcb_state_t) (old_state : bool)
  : DCB * option dcb_state_t * option bool :=
  let state0 := state dcb in
  let old := if old_state then Some state0 else None in
  let accept := (set_state new_state dcb, old, Some true) in
  let keep := (dcb, old, Some true) in
  let fall := (dcb, old, None) in
  match state0 with
  | DCB_STATE_UNDEFINED => accept
  | DCB_STATE_ALLOC =>
      match new_state with
      | DCB_STATE_POLLING | DCB_STATE_LISTENING | DCB_STATE_DISCONNECTED => accept
      | _ => fall
      end
  | DCB_STATE_POLLING =>
      match new_state with
      | DCB_STATE_NOPOLLING | DCB_STATE_LISTENING => accept
      | _ => fall
      end
  | DCB_STATE_LISTENING =>
      match new_state with
      | DCB_STATE_POLLING => accept
      | _ => fall
      end
  | DCB_STATE_NOPOLLING =>
      match new_state with
      | DCB_STATE_ZOMBIE => accept
      | DCB_STATE_POLLING => keep
      | _ => fall
      end
  | DCB_STATE_ZOMBIE =>
      match new_state with
      | DCB_STATE_DISCONNECTED => accept
      | DCB_STATE_POLLING => keep
      | _ => fall
      end
  | DCB_STATE_DISCONNECTED =>
      match new_state with
      | DCB_STATE_FREED => accept
      | _ => fall
      end
  | DCB_STATE_FREED => fall
  end.

(** The table of legal transitions, written from section 4.1 of the
    specification: the pairs on which a request is granted. *)
Definition legal_transition (s s' : dcb_state_t) : bool :=
  match s, s' with
  | DCB_STATE_UNDEFINED, _ => true
  | DCB_STATE_ALLOC, (DCB_STATE_POLLING | DCB_STATE_LISTENING | DCB_STATE_DISCONNECTED) => true
  | DCB_STATE_POLLING, (DCB_STATE_NOPOLLING | DCB_STATE_LISTENING) => true
  | DCB_STATE_LISTENING, DCB_STATE_POLLING => true
  | DCB_STATE_NOPOLLING, (DCB_STATE_ZOMBIE | DCB_STATE_POLLING) => true
  | DCB_STATE_ZOMBIE, (DCB_STATE_DISCONNECTED | DCB_STATE_POLLING) => true
  | DCB_STATE_DISCONNECTED, DCB_STATE_FREED => true
  | _, _ => false
  end.

(** The two entries of the table that are granted without a state change. *)
Definition idempotent_transition (s s' : dcb_state_t) : bool :=
  match s, s' with
  | DCB_STATE_NOPOLLING, DCB_STATE_POLLING => true
  | DCB_STATE_ZOMBIE, DCB_STATE_POLLING => true
  | _, _ => false
  end.

(** ** Sessions, the trace and the world *)

(** Modelled from the spec: the part of [SERVICE] that dcb.c dereferences
    (service.h is not among the sources), the router of section 6 and its
    instance. *)
Record SERVICE := mkSERVICE {
  router : option nat;
  router_instance : nat
}.

(** Modelled from the spec: the part of [SESSION] that dcb.c dereferences
    (session.h is not among the sources), its service and its router
    session. *)
Record SESSION := mkSESSION {
  service : option SERVICE;
  router_session : option nat
}.

(** Calls that leave dcb.c, in the order in which they are made. *)
Inductive event :=
| E_close (fd : Z)
| E_poll_add_dcb (dcb : addr)
| E_poll_remove_dcb (dcb : addr)
| E_closeSession (router router_instance rsession : nat)
| E_session_free (s : saddr)
| E_free (block : nat)
| E_bitmask_free (dcb : addr)
| E_free_dcb (dcb : addr)
| E_atomic_add_n_connections (server : nat)
| E_atomic_add_n_current (server : nat).

#[global] Instance event_eq_dec : EqDecision event.
Proof. solve_decision. Defined.

(** [allDCBs] and [zombies] are the two file-scope list heads.  [free] does
    not erase a block: the record stays in [heap] as it was left, and the call
    is visible in [trace] only. *)
Record World := mkWorld {
  heap : gmap addr DCB;
  sessions : gmap saddr SESSION;
  allDCBs : option addr;
  zombies : option addr;
  trace : list event
}.

Definition set_heap (v : gmap addr DCB) (w : World) : World :=
  mkWorld v (sessions w) (allDCBs w) (zombies w) (trace w).
Definition set_sessions (v : gmap saddr SESSION) (w : World) : World :=
  mkWorld (heap w) v (allDCBs w) (zombies w) (trace w).
Definition set_allDCBs (v : option addr) (w : World) : World :=
  mkWorld (heap w) (sessions w) v (zombies w) (trace w).
Definition set_zombies (v : option addr) (w : World) : World :=
  mkWorld (heap w) (sessions w) (allDCBs w) v (trace w).
Definition set_trace (v : list event) (w : World) : World :=
  mkWorld (heap w) (sessions w) (allDCBs w) (zombies w) v.

(** ** A state and failure monad over the world

    [None] stands for a run the model does not follow: a dereference of an
    address that was never allocated, or a loop that used up its fuel. *)
Definition M (A : Type) : Type := World -> option (A * World).

Definition ret {A} (a : A) : M A := fun w => Some (a, w).
Definition bind {A B} (m : M A) (k : A -> M B) : M B :=
  fun w => match m w with
           | Some (a, w') => k a w'
           | None => None
           end.
Definition fail {A} : M A := fun _ => None.

Notation "x <- m ;; k" := (bind m (fun x => k))
  (at level 100, m at next level, right associativity).
Notation "m ;;; k" := (bind m (fun _ => k))
  (at level 100, right associativity).

Definition deref (p : addr) : M DCB :=
  fun w => match heap w !! p with
           | Some d => Some (d, w)
           | None => None
           end.
Definition store (p : addr) (d : DCB) : M unit :=
  fun w => Some (tt, set_heap (<[p := d]> (heap w)) w).
Definition modify (p : addr) (f : DCB -> DCB) : M unit :=
  fun w => match heap w !! p with
           | Some d => Some (tt, set_heap (<[p := f d]> (heap w)) w)
           | None => None
           end.
Definition emit (e : event) : M unit :=
  fun w => Some (tt, set_trace (trace w ++ [e]) w).
Definition read_zombies : M (option addr) := fun w => Some (zombies w, w).
Definition write_zombies (v : option addr) : M unit := fun w => Some (tt, set_zombies v w).
Definition read_allDCBs : M (option addr) := fun w => Some (allDCBs w, w).
Definition write_allDCBs (v : option addr) : M unit := fun w => Some (tt, set_allDCBs v w).
Definition when (b : bool) (m : M unit) : M unit := if b then m else ret tt.

(** ** Bitmasks *)

(** bitmask.c is not among the sources.  The glossary describes a bitmask as
    a set of worker-thread ids, one bit per worker; it is a natural number
    here, bit [i] standing for worker [i], and thread ids are natural
    numbers. *)

(** Modelled from the spec: [bitmask_init] of bitmask.c, a bitmask with no
    bit set. *)
Definition bitmask_init : N := 0%N.

(** Modelled from the spec: [bitmask_clear] of bitmask.c, section 4.5 "clear
    bit tid". *)
Definition bitmask_clear (m : N) (bit : N) : N := N.clearbit m bit.

(** Modelled from the spec: [bitmask_isallclear] of bitmask.c, section 4.5
    "the mask is now all-clear". *)
Definition bitmask_isallclear (m : N) : bool := (m =? 0)%N.

(** Modelled from the spec: [bitmask_copy] of bitmask.c, section 4.5
    "snapshot the live-worker mask into thread_mask". *)
Definition bitmask_copy (src : N) : N := src.

(** ** dcb_set_state *)

(** [dcb_set_state] calls the transition function on the DCB behind [dcb] with
    a local [state] as out-parameter and copies it to the caller when
    [old_state] is not NULL. *)
Definition dcb_set_state (dcb : addr) (new_state : dcb_state_t) (old_state : bool)
  : M (option bool * option dcb_state_t) :=
  d <- deref dcb ;;
  let '(d', state1, succp) := dcb_set_state_nomutex d new_state true in
  modify dcb (fun _ => d') ;;;
  ret (succp, if old_state then state1 else None).

(** ** dcb_alloc *)

(** The block [malloc] returns keeps whatever it held; [dcb_alloc] assigns the
    fields below and leaves the others, [fd] among them, as found. *)
Definition dcb_alloc_init (role : dcb_role_t) (raw : DCB) : DCB :=
  mkDCB role (fd raw) DCB_STATE_ALLOC None None None [] []
        (mkDCBSTATS 0 0 0 0) None None (mkDCBMM bitmask_init None) 0.

(** [while (ptr->next) ptr = ptr->next;] *)
Fixpoint registry_last (fuel : nat) (ptr : addr) : M addr :=
  match fuel with
  | O => fail
  | S fuel' =>
      d <- deref ptr ;;
      match next d with
      | Some n => registry_last fuel' n
      | None => ret ptr
      end
  end.

Definition dcb_alloc (fuel : nat) (malloc : option (addr * DCB)) (role : dcb_role_t)
  : M (option addr) :=
  match malloc with
  | None => ret None
  | Some (rval, raw) =>
      store rval (dcb_alloc_init role raw) ;;;
      all <- read_allDCBs ;;
      match all with
      | None => write_allDCBs (Some rval)
      | Some h =>
          ptr <- registry_last fuel h ;;
          modify ptr (set_next (Some rval))
      end ;;;
      ret (Some rval)
  end.

(** ** dcb_add_to_zombieslist *)

(** The walk to the tail of the zombie list, with its early [break] when the
    DCB is met on the way. *)
Fixpoint zombies_walk (fuel : nat) (dcb ptr : addr) : M addr :=
  match fuel with
  | O => fail
  | S fuel' =>
      p <- deref ptr ;;
      match mm_next (memdata p) with
      | None => ret ptr
      | Some n =>
          if decide (ptr = dcb) then ret ptr else zombies_walk fuel' dcb n
      end
  end.

Definition dcb_add_to_zombieslist (fuel : nat) (dcb : addr) : M unit :=
  d <- deref dcb ;;
  if decide (state d = DCB_STATE_ZOMBIE) then ret tt
  else
    z <- read_zombies ;;
    match z with
    | None => write_zombies (Some dcb)
    | Some h =>
        ptr <- zombies_walk fuel dcb h ;;
        when (negb (bool_decide (ptr = dcb))) (modify ptr (set_mm_next (Some dcb)))
    end ;;;
    dcb_set_state dcb DCB_STATE_ZOMBIE true ;;;
    ret tt.

(** ** dcb_final_free *)

(** [while (ptr && ptr->next != dcb) ptr = ptr->next;] *)
Fixpoint registry_find (fuel : nat) (dcb : addr) (ptr : option addr) : M (option addr) :=
  match fuel with
  | O => fail
  | S fuel' =>
      match ptr with
      | None => ret None
      | Some p =>
          d <- deref p ;;
          if decide (next d = Some dcb) then ret (Some p)
          else registry_find fuel' dcb (next d)
      end
  end.

Definition deref_session (s : saddr) : M SESSION :=
  fun w => match sessions w !! s with
           | Some ses => Some (ses, w)
           | None => None
           end.
Definition modify_session (s : saddr) (f : SESSION -> SESSION) : M unit :=
  fun w => match sessions w !! s with
           | Some ses => Some (tt, set_sessions (<[s := f ses]> (sessions w)) w)
           | None => None
           end.
Definition set_router_session (v : option nat) (ses : SESSION) : SESSION :=
  mkSESSION (service ses) v.

(** The first part of [dcb_final_free]: take the DCB out of the [allDCBs]
    chain. *)
Definition registry_unlink (fuel : nat) (dcb : addr) : M unit :=
  d <- deref dcb ;;
  all <- read_allDCBs ;;
  if decide (all = Some dcb) then write_allDCBs (next d)
  else
    ptr <- registry_find fuel dcb all ;;
    match ptr with
    | Some p => modify p (set_next (next d))
    | None => ret tt
    end.

(** The second part: the router session is swapped out of the session and
    handed to the router's [closeSession]. *)
Definition terminate_router_session (dcb : addr) : M unit :=
  d <- deref dcb ;;
  match session d with
  | None => ret tt
  | Some s =>
      ses <- deref_session s ;;
      match service ses with
      | Some svc =>
          match router svc, router_session ses with
          | Some r, Some _ =>
              let rsession := router_session ses in
              modify_session s (set_router_session None) ;;;
              match rsession with
              | Some rs => emit (E_closeSession r (router_instance svc) rs)
              | None => ret tt
              end
          | _, _ => ret tt
          end
      | None => ret tt
      end
  end.

Definition free_if_set (p : option nat) : M unit :=
  match p with
  | Some b => emit (E_free b)
  | None => ret tt
  end.

Definition dcb_final_free (fuel : nat) (dcb : addr) : M unit :=
  registry_unlink fuel dcb ;;;
  terminate_router_session dcb ;;;
  d <- deref dcb ;;
  match session d with
  | Some local_session =>
      modify dcb (set_session None) ;;;
      emit (E_session_free local_session)
  | None => ret tt
  end ;;;
  free_if_set (protocol d) ;;;
  free_if_set (data d) ;;;
  free_if_set (remote d) ;;;
  emit (E_bitmask_free dcb) ;;;
  emit (E_free_dcb dcb).

(** ** dcb_process_zombies *)

Definition clear_thread (threadid : N) (d : DCB) : DCB :=
  set_bitmask (bitmask_clear (bitmask (memdata d)) threadid) d.

(** The scan of the zombie list under [zombiespin].  [ptr] and [lptr] are the
    cursor and its predecessor on the zombie list, [dcb_list] and [dcb] the
    head and the tail of the list of victims. *)
Fixpoint zombies_scan (fuel : nat) (threadid : N) (ptr lptr dcb_list dcb : option addr)
  : M (option addr) :=
  match fuel with
  | O => fail
  | S fuel' =>
      match ptr with
      | None => ret dcb_list
      | Some p =>
          modify p (clear_thread threadid) ;;;
          d <- deref p ;;
          if bitmask_isallclear (bitmask (memdata d)) then
            let tptr := mm_next (memdata d) in
            match lptr with
            | None => write_zombies tptr
            | Some l => modify l (set_mm_next tptr)
            end ;;;
            match dcb_list, dcb with
            | None, _ => ret tt
            | Some _, Some v => modify v (set_mm_next (Some p))
            | Some _, None => fail
            end ;;;
            modify p (set_mm_next None) ;;;
            zombies_scan fuel' threadid tptr lptr
              (match dcb_list with None => Some p | Some _ => dcb_list end) (Some p)
          else
            zombies_scan fuel' threadid (mm_next (memdata d)) (Some p) dcb_list dcb
      end
  end.

(** The loop over the victims.  [dcb = dcb->memdata.next] comes after
    [dcb_final_free(dcb)], whose last statement is [free(dcb)]: the link to
    the next victim is read from a block that has been released, and C does
    not say what such a read yields.  [after_free v d] is what it yields for
    the victim at [v], whose record the final free left as [d]. *)
Fixpoint victims_free (fuel rfuel : nat) (after_free : addr -> DCB -> option addr)
    (dcb : option addr) : M unit :=
  match fuel with
  | O => fail
  | S fuel' =>
      match dcb with
      | None => ret tt
      | Some v =>
          d <- deref v ;;
          emit (E_close (fd d)) ;;;
          dcb_set_state v DCB_STATE_DISCONNECTED false ;;;
          dcb_final_free rfuel v ;;;
          d' <- deref v ;;
          victims_free fuel' rfuel after_free (after_free v d')
      end
  end.

Definition dcb_process_zombies (fuel : nat) (after_free : addr -> DCB -> option addr)
    (threadid : N) : M unit :=
  z <- read_zombies ;;
  match z with
  | None => ret tt
  | Some _ =>
      dcb_list <- zombies_scan fuel threadid z None None None ;;
      victims_free fuel fuel after_free dcb_list
  end.

(** ** dcb_connect *)

(** Modelled from the spec: the [connect] entry point of the protocol module
    (the protocol modules are not among the sources).  [connect] is the
    descriptor it returns, -1 for a failure.  Section 4.6 makes the
    protocol's connect "responsible for adding the DCB into the poll set",
    as the comments of [dcb_connect] say of [dcb->func.connect]; by section
    3.1 a descriptor registered in the poll set goes with state POLLING.  A
    connect that succeeds therefore calls [poll_add_dcb], which moves the
    DCB to POLLING. *)
Definition protocol_connect (dcb : addr) (connect : Z) : M Z :=
  if (connect =? -1)%Z then ret connect
  else
    emit (E_poll_add_dcb dcb) ;;;
    dcb_set_state dcb DCB_STATE_POLLING false ;;;
    ret connect.

(** [load_module] and [session_link_dcb] belong to other files: the arguments
    give what each returned.  A successful [session_link_dcb] stores the
    session in the DCB. *)
Definition dcb_connect (fuel : nat) (malloc : option (addr * DCB)) (load_module : bool)
    (session_link_dcb : bool) (connect : Z) (server : nat) (session1 : saddr)
  : M (option addr) :=
  r <- dcb_alloc fuel malloc DCB_ROLE_REQUEST_HANDLER ;;
  match r with
  | None => ret None
  | Some dcb =>
      if negb load_module then
        dcb_final_free fuel dcb ;;; ret None
      else if negb session_link_dcb then
        dcb_final_free fuel dcb ;;; ret None
      else
        modify dcb (set_session (Some session1)) ;;;
        fd1 <- protocol_connect dcb connect ;;
        modify dcb (set_fd fd1) ;;;
        if (fd1 =? -1)%Z then
          dcb_set_state dcb DCB_STATE_DISCONNECTED false ;;;
          dcb_final_free fuel dcb ;;;
          ret None
        else
          emit (E_atomic_add_n_connections server) ;;;
          emit (E_atomic_add_n_current server) ;;;
          ret (Some dcb)
  end.

(** ** dcb_close *)

(** [if (succp)] reads the flag returned by [dcb_set_state_nomutex]; where the
    flag was never assigned the test sees whatever the local held, which is
    the argument [junk]. *)
Definition read_flag (junk : bool) (succp : option bool) : bool :=
  match succp with
  | Some b => b
  | None => junk
  end.

Definition dcb_close (fuel : nat) (junk : bool) (poll_bitmask : N) (dcb : addr) : M unit :=
  d <- deref dcb ;;
  let '(d', prev_state, succp) := dcb_set_state_nomutex d DCB_STATE_NOPOLLING true in
  modify dcb (fun _ => d') ;;;
  when (read_flag junk succp)
    (emit (E_poll_remove_dcb dcb) ;;;
     modify dcb (set_bitmask (bitmask_copy poll_bitmask))) ;;;
  d2 <- deref dcb ;;
  when (bool_decide (state d2 = DCB_STATE_NOPOLLING)) (dcb_add_to_zombieslist fuel dcb).

(** ** Buffer chains *)

(** buffer.c is not among the sources.  The glossary describes a buffer chain
    as a linked sequence of owned byte-buffer segments; a chain is the list
    of its segments, NULL the empty list, and [GWBUF_LENGTH] the number of
    bytes of the first segment. *)

(** Modelled from the spec: [gwbuf_append] of buffer.c, section 4.3 "append
    the new chain"; a chain is linked behind another. *)
Definition gwbuf_append (head tail : list GWBUF) : list GWBUF := head ++ tail.

(** Modelled from the spec: [gwbuf_consume] of buffer.c, section 4.3 "the
    remainder"; bytes are dropped from the front of the first segment, and
    the segment is unlinked once it is empty. *)
Definition gwbuf_consume (head : list GWBUF) (length : nat) : list GWBUF :=
  match head with
  | [] => []
  | b :: rest =>
      match drop length b with
      | [] => rest
      | b' => b' :: rest
      end
  end.

(** ** Reading and writing *)

(** What one [write] returned: the number of bytes taken, or -1 with [errno].
    Each entry stands for one completed use of GW_NOINTR_CALL, the macro of
    gw.h around the call.  After a write that succeeded [saved_errno] is taken
    to be 0; it is not looked at again unless a later write fails and sets
    it. *)
Inductive write_result :=
| W_ok (w : nat)
| W_err (errno : Z).

(** What one [read] returned: the bytes delivered, or -1 with [errno]. *)
Inductive read_result :=
| R_ok (bytes : list Z)
| R_err (errno : Z).

(** One turn of the loop of [dcb_read]: the block [gwbuf_alloc] obtained (or
    its failure), how often [read] was interrupted before it completed, the
    result of the [read] that completed, and the result of the [ioctl] that
    follows (the new count, or its failure).  GW_NOINTR_CALL, the macro of
    gw.h around the call, repeats the call while it fails with EINTR. *)
Record read_step := mkread_step {
  rs_alloc : option (list Z);
  rs_eintr : nat;
  rs_read : read_result;
  rs_ioctl : option Z
}.

Definition incr_n_reads (d : DCB) : DCB :=
  set_stats (mkDCBSTATS (n_reads (stats d) + 1) (n_writes (stats d))
                        (n_accepts (stats d)) (n_buffered (stats d))) d.
Definition incr_n_writes (d : DCB) : DCB :=
  set_stats (mkDCBSTATS (n_reads (stats d)) (n_writes (stats d) + 1)
                        (n_accepts (stats d)) (n_buffered (stats d))) d.
Definition incr_n_buffered (d : DCB) : DCB :=
  set_stats (mkDCBSTATS (n_reads (stats d)) (n_writes (stats d))
                        (n_accepts (stats d)) (n_buffered (stats d) + 1)) d.

(** What one use of GW_NOINTR_CALL around [read] adds to [n_reads]: one for
    each attempt that was interrupted and one for the attempt that
    completed. *)
Definition count_attempts (interrupted : nat) (d : DCB) : DCB :=
  Nat.iter (S interrupted) incr_n_reads d.
#[global] Arguments count_attempts : simpl never.

Section IO.
(** The constants of <errno.h> and of gw.h (not among the sources) that
    dcb.c names. *)
Variables (EAGAIN EWOULDBLOCK MAX_BUFFER_SIZE : Z).

Definition read_bufsize (b : Z) : Z :=
  if (b <? MAX_BUFFER_SIZE)%Z then b else MAX_BUFFER_SIZE.

(** Modelled from the spec: [gwbuf_alloc] of buffer.c, section 4.4 "allocate
    a buffer sized min(count, MAX_BUFFER_SIZE)".  The buffer appended after a
    successful [read] has [bufsize] bytes, the delivered ones first, the rest
    as the block held them. *)
Definition filled_buffer (bufsize : Z) (block bytes : list Z) : GWBUF :=
  resize (Z.to_nat bufsize) 0%Z (bytes ++ drop (length bytes) block).

(** [while (b > 0)] of [dcb_read]; [n] is the local that receives the result
    of each [read].  [n_reads] is incremented inside the argument of
    GW_NOINTR_CALL, so once for every attempt, the interrupted ones
    included.  A script that ends while bytes are still announced describes
    no run. *)
Fixpoint dcb_read_loop (script : list read_step) (b n : Z) (dcb : DCB)
    (head : list GWBUF) : option (Z * DCB * list GWBUF) :=
  if (b >? 0)%Z then
    match script with
    | [] => None
    | st :: script' =>
        let bufsize := read_bufsize b in
        match rs_alloc st with
        | None => Some ((if (n =? 0)%Z then -1 else n)%Z, dcb, head)
        | Some block =>
            let dcb := count_attempts (rs_eintr st) dcb in
            match rs_read st with
            | R_err errno =>
                let n := (-1)%Z in
                if (errno =? EAGAIN)%Z || (errno =? EWOULDBLOCK)%Z
                then Some (n, dcb, head)
                else Some ((if (n =? 0)%Z then -1 else n)%Z, dcb, head)
            | R_ok bytes =>
                let n := Z.of_nat (length bytes) in
                if (n =? 0)%Z then Some (n, dcb, head)
                else
                  let head := gwbuf_append head [filled_buffer bufsize block bytes] in
                  match rs_ioctl st with
                  | None => Some ((-1)%Z, dcb, head)
                  | Some b' => dcb_read_loop script' b' n dcb head
                  end
            end
        end
    end
  else Some (n, dcb, head).

(** [dcb_read]: [ioctl0] is the result of the first FIONREAD query. *)
Definition dcb_read (dcb : DCB) (head : list GWBUF) (ioctl0 : option Z)
    (script : list read_step) : option (Z * DCB * list GWBUF) :=
  match ioctl0 with
  | None => Some ((-1)%Z, dcb, head)
  | Some b => dcb_read_loop script b 0%Z dcb head
  end.

(** [while (queue != NULL)] of [dcb_write]: the chain that is left, the DCB
    and [saved_errno].  An entry of the script is a [write] that completed:
    [n_writes] is counted once for it, and the attempts that GW_NOINTR_CALL
    repeats after an interruption, which the source counts as well, are not
    followed. *)
Fixpoint dcb_write_loop (script : list write_result) (queue : list GWBUF) (dcb : DCB)
    (saved_errno : Z) : option (list GWBUF * DCB * Z) :=
  match queue with
  | [] => Some (queue, dcb, saved_errno)
  | _ :: _ =>
      match script with
      | [] => None
      | r :: script' =>
          let dcb := incr_n_writes dcb in
          match r with
          | W_err errno => Some (queue, dcb, errno)
          | W_ok w => dcb_write_loop script' (gwbuf_consume queue w) dcb 0%Z
          end
      end
  end.

Definition dcb_write (dcb : DCB) (queue : list GWBUF) (script : list write_result)
  : option (Z * DCB) :=
  match
    match writeq dcb with
    | _ :: _ =>
        Some (queue,
              incr_n_buffered (set_writeq (gwbuf_append (writeq dcb) queue) dcb),
              0%Z)
    | [] =>
        match dcb_write_loop script queue dcb 0%Z with
        | Some (queue', dcb', saved_errno) =>
            let dcb' := set_writeq queue' dcb' in
            Some (queue',
                  match queue' with [] => dcb' | _ :: _ => incr_n_buffered dcb' end,
                  saved_errno)
        | None => None
        end
    end
  with
  | Some (queue', dcb', saved_errno) =>
      if negb (bool_decide (queue' = []))
         && (negb (saved_errno =? EAGAIN)%Z || negb (saved_errno =? EWOULDBLOCK)%Z)
      then Some (0%Z, dcb')
      else Some (1%Z, dcb')
  | None => None
  end.
End IO.

(** ** dcb_drain_writeq *)

(** [while (dcb->writeq != NULL)] of [dcb_drain_writeq]; [n] sums what the
    writes took.  The loop stops on the first write that fails and leaves the
    rest of the queue in place; the macro around [write] counts no
    statistics here. *)
Fixpoint dcb_drain_loop (script : list write_result) (dcb : DCB) (n : Z)
  : option (Z * DCB) :=
  match writeq dcb with
  | [] => Some (n, dcb)
  | _ :: _ =>
      match script with
      | [] => None
      | W_err _ :: _ => Some (n, dcb)
      | W_ok w :: script' =>
          dcb_drain_loop script' (set_writeq (gwbuf_consume (writeq dcb) w) dcb)
            (n + Z.of_nat w)
      end
  end.

Definition dcb_drain_writeq (dcb : DCB) (script : list write_result) : option (Z * DCB) :=
  dcb_drain_loop script dcb 0%Z.

(** ** gw_dcb_state2string *)

Definition gw_dcb_state2string (state : dcb_state_t) : String.string :=
  match state with
  | DCB_STATE_ALLOC => "DCB Allocated"
  | DCB_STATE_POLLING => "DCB in the polling loop"
  | DCB_STATE_LISTENING => "DCB for listening socket"
  | DCB_STATE_DISCONNECTED => "DCB socket closed"
  | DCB_STATE_FREED => "DCB memory could be freed"
  | DCB_STATE_ZOMBIE => "DCB Zombie"
  | _ => "DCB (unknown)"
  end%string.

(** ** Vocabulary of the statements *)

(** A DCB as [dcb_alloc] leaves it, with descriptor [v]. *)
Definition fresh_dcb (v : Z) : DCB :=
  mkDCB DCB_ROLE_REQUEST_HANDLER v DCB_STATE_ALLOC None None None [] []
        (mkDCBSTATS 0 0 0 0) None None (mkDCBMM bitmask_init None) 0.

(** The counts of readable bytes a run of [dcb_read] is told: the first query,
    then the query that closes each turn of the loop. *)
Definition avail_counts (b0 : Z) (script : list read_step) : list Z :=
  b0 :: ((fun st => default 0%Z (rs_ioctl st)) <$> script).

(** A turn of the loop of [dcb_read] in which nothing goes wrong. *)
Definition good_step (st : read_step) : Prop :=
  is_Some (rs_alloc st) /\
  (exists bytes, rs_read st = R_ok bytes /\ bytes <> []) /\
  is_Some (rs_ioctl st).

(** The peer of scenario S6: [total] bytes are pending and every [read] is
    served in full, without being interrupted. *)
Fixpoint drain_script (fuel : nat) (MAX_BUFFER_SIZE total : Z) : list read_step :=
  match fuel with
  | O => []
  | S fuel' =>
      if (total >? 0)%Z then
        let n := Z.min total MAX_BUFFER_SIZE in
        mkread_step (Some []) 0 (R_ok (replicate (Z.to_nat n) 7%Z)) (Some (total - n)%Z)
          :: drain_script fuel' MAX_BUFFER_SIZE (total - n)
      else []
  end.

(** The chain of DCBs from [p] up to (and without) [q] along the link [nxt]
    spells the list [l]. *)
Fixpoint lseg (nxt : DCB -> option addr) (h : gmap addr DCB) (p q : option addr)
    (l : list addr) : Prop :=
  match l with
  | [] => p = q
  | a :: l' => p = Some a /\ exists d, h !! a = Some d /\ lseg nxt h (nxt d) q l'
  end.

(** The link of the zombie list, [memdata.next]. *)
Definition zombie_link (d : DCB) : option addr := mm_next (memdata d).

(** The zombie list of a world holds the DCBs [l], each once. *)
Definition zombie_list (w : World) (l : list addr) : Prop :=
  lseg zombie_link (heap w) (zombies w) None l /\ NoDup l.

(** The registry [allDCBs] of a world holds the DCBs [l], each once. *)
Definition registry (w : World) (l : list addr) : Prop :=
  lseg next (heap w) (allDCBs w) None l /\ NoDup l.

Definition state_of (w : World) (a : addr) : option dcb_state_t :=
  state <$> heap w !! a.
Definition mask_of (w : World) (a : addr) : option N :=
  (fun d => bitmask (memdata d)) <$> heap w !! a.

(** Every session a DCB points to is a session of the world. *)
Definition sessions_present (w : World) : Prop :=
  forall a d s, heap w !! a = Some d -> session d = Some s -> is_Some (sessions w !! s).

(** How often a call was made. *)
Definition calls (e : event) (w : World) : nat :=
  count_occ event_eq_dec (trace w) e.

(** The polling threads [tids] call [dcb_process_zombies] one after the
    other. *)
Fixpoint workers_reap (fuel : nat) (after_free : addr -> DCB -> option addr)
    (tids : list N) : M unit :=
  match tids with
  | [] => ret tt
  | t :: ts => dcb_process_zombies fuel after_free t ;;; workers_reap fuel after_free ts
  end.

(** The read after [free] where the allocator has left the released block as
    it was: the link the DCB had. *)
Definition block_kept (v : addr) (d : DCB) : option addr := mm_next (memdata d).

(** The read after [free] where the released block has been cleared: NULL. *)
Definition block_cleared (v : addr) (d : DCB) : option addr := None.

(** A world with one DCB at address 1, in state [s], registered and not on the
    zombie list; no call has been made yet. *)
Definition one_dcb_world (s : dcb_state_t) : World :=
  mkWorld {[1 := set_state s (fresh_dcb 3)]} ∅ (Some 1) None [].

(** The world a run ends in. *)
Definition run_world {A} (m : M A) (w : World) : option World := snd <$> m w.

(** Two heaps hold the same DCBs and agree on what [f] observes of them. *)
Definition agree {X} (f : DCB -> X) (h h' : gmap addr DCB) : Prop :=
  forall a, f <$> h' !! a = f <$> h !! a.

(** The calls [dcb_final_free] makes before the final [free(dcb)]. *)
Definition teardown_event (e : event) : bool :=
  match e with
  | E_closeSession _ _ _ | E_session_free _ | E_free _ | E_bitmask_free _ => true
  | _ => false
  end.

(** A trace without the teardown calls. *)
Definition major (evs : list event) : list event :=
  filter (fun e => teardown_event e = false) evs.

(** The three ways in which [dcb_connect] gives up after the allocation. *)
Definition connect_fails (load_module session_link_dcb : bool) (connect : Z) : Prop :=
  load_module = false \/ session_link_dcb = false \/ connect = (-1)%Z.

(** A DCB without its zombie-list link, and without its [memdata]. *)
Definition forget_link (d : DCB) : DCB := set_mm_next None d.
Definition forget_memdata (d : DCB) : DCB := set_memdata (mkDCBMM 0%N None) d.

(** Clearing the bit of [threadid] leaves the bitmask of the DCB at [a] all
    clear: the DCB is a victim of this call of [dcb_process_zombies]. *)
Definition reaped (h : gmap addr DCB) (threadid : N) (a : addr) : bool :=
  match h !! a with
  | Some d => bitmask_isallclear (bitmask_clear (bitmask (memdata d)) threadid)
  | None => false
  end.

Definition victims (h : gmap addr DCB) (threadid : N) (l : list addr) : list addr :=
  filter (fun a => reaped h threadid a = true) l.
Definition survivors (h : gmap addr DCB) (threadid : N) (l : list addr) : list addr :=
  filter (fun a => reaped h threadid a = false) l.

(** The descriptor of the DCB at [a]. *)
Definition fd_of (w : World) (a : addr) : Z := from_option fd 0%Z (heap w !! a).

(** What the reaper does to its victims, teardown aside: the descriptor is
    closed and the DCB is freed. *)
Definition reap_events (w : World) (V : list addr) : list event :=
  flat_map (fun v => [E_close (fd_of w v); E_free_dcb v]) V.

(** Every thread whose bit is set in the bitmask [m] is one of [tids]. *)
Definition covered (tids : list N) (m : N) : Prop :=
  forall i, N.testbit m i = true -> i ∈ tids.

(** The world of scenario S4 after the close: the DCB at address 1 is a
    zombie, the polling threads 0, 1 and 2 were running when it was closed. *)
Definition zombie_world : World :=
  mkWorld {[1 := set_bitmask 7 (set_state DCB_STATE_ZOMBIE (fresh_dcb 3))]} ∅
          (Some 1) (Some 1) [E_poll_remove_dcb 1].

(** A world with a polling DCB at address 1 and a session at address 5 that
    has a router session. *)
Definition session_world : World :=
  mkWorld {[1 := set_state DCB_STATE_POLLING (fresh_dcb 3)]}
          {[5 := mkSESSION (Some (mkSERVICE (Some 9) 8)) (Some 4)]}
          (Some 1) None [].

(** How far a state is on the way from allocation to release; the two
    states in which the descriptor is polled share a rank. *)
Definition state_rank (s : dcb_state_t) : nat :=
  match s with
  | DCB_STATE_UNDEFINED => 0
  | DCB_STATE_ALLOC => 1
  | DCB_STATE_POLLING | DCB_STATE_LISTENING => 2
  | DCB_STATE_NOPOLLING => 3
  | DCB_STATE_ZOMBIE => 4
  | DCB_STATE_DISCONNECTED => 5
  | DCB_STATE_FREED => 6
  end.

(** The DCB after the states [reqs] were requested of it one after the
    other. *)
Definition requests (dcb : DCB) (reqs : list dcb_state_t) : DCB :=
  foldl (fun d s => fst (fst (dcb_set_state_nomutex d s true))) dcb reqs.

(** Each of the writes that took [ws] bytes was handed the first buffer of
    what was left of the chain [queue] and took no more than it held. *)
Fixpoint writes_fit (queue : list GWBUF) (ws : list nat) : Prop :=
  match ws with
  | [] => True
  | w :: ws' =>
      match queue with
      | [] => False
      | b :: _ => w <= length b /\ writes_fit (gwbuf_consume queue w) ws'
      end
  end.

(** The socket that takes every buffer of the chain whole. *)
Definition willing_socket (queue : list GWBUF) : list write_result :=
  (fun b => W_ok (length b)) <$> queue.

(** The call that hands the router session of a session to its router, made
    when the session has a service with a router and a router session. *)
Definition router_close (ses : SESSION) : list event :=
  match service ses with
  | Some svc =>
      match router svc, router_session ses with
      | Some r, Some rs => [E_closeSession r (router_instance svc) rs]
      | _, _ => []
      end
  | None => []
  end.

(** A world with two polling DCBs, at addresses 1 and 2, that share the
    session at address 5, which has a router session. *)
Definition shared_session_world : World :=
  mkWorld {[1 := set_next (Some 2) (set_session (Some 5)
                   (set_state DCB_STATE_POLLING (fresh_dcb 3)));
            2 := set_session (Some 5) (set_state DCB_STATE_POLLING (fresh_dcb 4))]}
          {[5 := mkSESSION (Some (mkSERVICE (Some 9) 8)) (Some 4)]}
          (Some 1) None [].

(** Two polling DCBs, at addresses 1 and 2 with descriptors 3 and 4, both
    registered; no call has been made yet. *)
Definition two_polling_world : World :=
  mkWorld {[1 := set_next (Some 2) (set_state DCB_STATE_POLLING (fresh_dcb 3));
            2 := set_state DCB_STATE_POLLING (fresh_dcb 4)]}
          ∅ (Some 1) None [].

(** The world after both were closed while polling thread 0 was the only one
    running: both are zombies, and bit 0 is the only bit of their
    bitmasks. *)
Definition two_zombies_world : World :=
  mkWorld {[1 := set_mm_next (Some 2) (set_bitmask 1
                   (set_next (Some 2) (set_state DCB_STATE_ZOMBIE (fresh_dcb 3))));
            2 := set_bitmask 1 (set_state DCB_STATE_ZOMBIE (fresh_dcb 4))]}
          ∅ (Some 1) (Some 1) [E_poll_remove_dcb 1; E_poll_remove_dcb 2].

(** The calls of [read] behind a script: for each turn the attempts that
    were interrupted and the one that completed. *)
Definition attempts (script : list read_step) : Z :=
  Z.of_nat (sum_list ((fun st => S (rs_eintr st)) <$> script)).

(** A buffer holds, at its front, the bytes a [read] delivered. *)
Definition holds_read (buf : GWBUF) (bytes : list Z) : Prop :=
  bytes <> [] /\ take (length bytes) buf = take (length buf) bytes.

(** The bytes that writes of [ws] bytes each take from the chain [queue]:
    every write is handed the first buffer of what is left of the chain, and
    takes its first bytes. *)
Fixpoint wire (queue : list GWBUF) (ws : list nat) : list Z :=
  match ws with
  | [] => []
  | w :: ws' =>
      match queue with
      | [] => []
      | b :: _ => take w b ++ wire (gwbuf_consume queue w) ws'
      end
  end.

(** Each of the writes [ws] was made while a buffer was left of the chain. *)
Fixpoint handed (queue : list GWBUF) (ws : list nat) : Prop :=
  match ws with
  | [] => True
  | w :: ws' => queue <> [] /\ handed (gwbuf_consume queue w) ws'
  end.

(** * Properties *)

(** ** The state machine *)

(** Every request of the table is granted: the flag is assigned [true], the
    state becomes the requested one except on the two idempotent entries, and
    the previous state is stored through a non-NULL [old_state]. *)
Lemma dcb_set_state_nomutex_legal (dcb : DCB) (new_state : dcb_state_t) (old_state : bool) :
  legal_transition (state dcb) new_state = true ->
  dcb_set_state_nomutex dcb new_state old_state =
    (if idempotent_transition (state dcb) new_state then dcb else set_state new_state dcb,
     if old_state then Some (state dcb) else None,
     Some true).
Proof.
  unfold dcb_set_state_nomutex.
  destruct (state dcb), new_state; simpl; intros H; try discriminate H; reflexivity.
Qed.

(** A request outside the table leaves the DCB as it is and still stores the
    previous state; the flag is the unassigned local. *)
Lemma dcb_set_state_nomutex_illegal (dcb : DCB) (new_state : dcb_state_t) (old_state : bool) :
  legal_transition (state dcb) new_state = false ->
  dcb_set_state_nomutex dcb new_state old_state =
    (dcb, if old_state then Some (state dcb) else None, None).
Proof.
  unfold dcb_set_state_nomutex.
  destruct (state dcb), new_state; simpl; intros H; try discriminate H; reflexivity.
Qed.

(** C2: the request ALLOC -> ZOMBIE is not in the table of section 4.1; the
    code leaves the state at ALLOC and reports ALLOC through [old_state], but
    the flag it returns was never assigned, so it is not the failure value the
    specification asks for. *)
Theorem dcb_set_state_nomutex_alloc_zombie :
  legal_transition DCB_STATE_ALLOC DCB_STATE_ZOMBIE = false /\
  dcb_set_state_nomutex (fresh_dcb 3) DCB_STATE_ZOMBIE true =
    (fresh_dcb 3, Some DCB_STATE_ALLOC, None) /\
  snd (dcb_set_state_nomutex (fresh_dcb 3) DCB_STATE_ZOMBIE true) <> Some false.
Proof.
  split; [reflexivity|]. split; [reflexivity|]. simpl. discriminate.
Qed.

Lemma legal_transition_freed (s : dcb_state_t) : legal_transition DCB_STATE_FREED s = false.
Proof. destruct s; reflexivity. Qed.

(** C10: on every request that the table of section 4.1 does not allow (a
    request made in state FREED is always one), [dcb_set_state_nomutex]
    returns the flag [succp] without ever having assigned it: the result is
    [None], not a failure value; the DCB is unchanged. *)
Theorem dcb_set_state_nomutex_succp_unassigned
    (dcb : DCB) (new_state : dcb_state_t) (old_state : bool) :
  legal_transition (state dcb) new_state = false \/ state dcb = DCB_STATE_FREED ->
  snd (dcb_set_state_nomutex dcb new_state old_state) = None /\
  snd (dcb_set_state_nomutex dcb new_state old_state) <> Some false /\
  fst (fst (dcb_set_state_nomutex dcb new_state old_state)) = dcb.
Proof.
  intros H.
  assert (Hill : legal_transition (state dcb) new_state = false).
  { destruct H as [H|H]; [exact H|]. rewrite H. apply legal_transition_freed. }
  rewrite (dcb_set_state_nomutex_illegal _ _ _ Hill).
  split; [reflexivity|]. split; [discriminate|reflexivity].
Qed.

Lemma dcb_set_state_nomutex_succp_unassigned_witness :
  (legal_transition (state (fresh_dcb 3)) DCB_STATE_ZOMBIE = false \/
   state (fresh_dcb 3) = DCB_STATE_FREED) /\
  snd (dcb_set_state_nomutex (fresh_dcb 3) DCB_STATE_ZOMBIE true) = None /\
  snd (dcb_set_state_nomutex (fresh_dcb 3) DCB_STATE_ZOMBIE true) <> Some false /\
  fst (fst (dcb_set_state_nomutex (fresh_dcb 3) DCB_STATE_ZOMBIE true)) = fresh_dcb 3.
Proof.
  split; [left; reflexivity|].
  apply (dcb_set_state_nomutex_succp_unassigned (fresh_dcb 3) DCB_STATE_ZOMBIE true).
  left. reflexivity.
Defined.

(** Scenario S5: DISCONNECTED -> POLLING is refused and the state stays
    DISCONNECTED. *)
Example illegal_transition_S5 :
  dcb_set_state_nomutex (set_state DCB_STATE_DISCONNECTED (fresh_dcb 3))
    DCB_STATE_POLLING true
  = (set_state DCB_STATE_DISCONNECTED (fresh_dcb 3), Some DCB_STATE_DISCONNECTED, None).
Proof. reflexivity. Qed.

(** The flag is assigned exactly on the requests of the table, and nothing is
    requested from FREED with success. *)
Lemma dcb_set_state_nomutex_flag (dcb : DCB) (new_state : dcb_state_t) (old_state : bool) :
  snd (dcb_set_state_nomutex dcb new_state old_state) =
    if legal_transition (state dcb) new_state then Some true else None.
Proof.
  destruct (legal_transition (state dcb) new_state) eqn:H.
  - rewrite (dcb_set_state_nomutex_legal _ _ _ H). reflexivity.
  - rewrite (dcb_set_state_nomutex_illegal _ _ _ H). reflexivity.
Qed.

(** ** dcb_write *)


(** The sending loop returns as soon as the script covers the run: one entry
    for every buffer sent is enough when each write takes its buffer whole. *)
Lemma dcb_write_loop_total (queue : list GWBUF) :
  forall (script : list write_result) (dcb : DCB) (e0 : Z),
    Forall (fun b => b <> []) queue ->
    script = (fun b => W_ok (length b)) <$> queue ->
    exists d' e, dcb_write_loop script queue dcb e0 = Some ([], d', e).
Proof.
  induction queue as [|b queue IH]; intros script dcb e0 Hne ->.
  - simpl. eauto.
  - simpl. rewrite drop_all. apply Forall_cons in Hne as [_ Hne].
    apply IH; [exact Hne|reflexivity].
Qed.







(** On the queued path the chain is appended and no write is attempted; the
    value returned is 1 only for an empty chain. *)
Lemma dcb_write_queued (EAGAIN EWOULDBLOCK : Z) (dcb : DCB) (queue : list GWBUF)
    (script : list write_result) :
  writeq dcb <> [] ->
  dcb_write EAGAIN EWOULDBLOCK dcb queue script =
    Some (if negb (bool_decide (queue = []))
             && (negb (0 =? EAGAIN)%Z || negb (0 =? EWOULDBLOCK)%Z)
          then 0%Z else 1%Z,
          incr_n_buffered (set_writeq (writeq dcb ++ queue) dcb)).
Proof.
  intros Hne. unfold dcb_write. destruct (writeq dcb) as [|b q] eqn:Hq; [contradiction|].
  unfold gwbuf_append.
  destruct (negb (bool_decide (queue = [])) && _); reflexivity.
Qed.

(** C4: with ["A"] on the write queue, [dcb_write] of the chain ["B"] appends
    the chain and attempts no write, as specified, but the value it
    returns is 0: the final test sees the non-NULL [queue] and
    [saved_errno == 0]. *)
Theorem dcb_write_queued_returns_failure :
  writeq (set_writeq [[65%Z]] (fresh_dcb 3)) <> [] /\
  forall script : list write_result,
    dcb_write 11 11 (set_writeq [[65%Z]] (fresh_dcb 3)) [[66%Z]] script =
      Some (0%Z, incr_n_buffered (set_writeq [[65%Z]; [66%Z]] (fresh_dcb 3))).
Proof.
  split; [discriminate|]. intros script. reflexivity.
Qed.

(** ** dcb_read *)

Lemma read_bufsize_min (MAX_BUFFER_SIZE b : Z) :
  read_bufsize MAX_BUFFER_SIZE b = Z.min b MAX_BUFFER_SIZE.
Proof. unfold read_bufsize. destruct (Z.ltb_spec b MAX_BUFFER_SIZE); lia. Qed.

Lemma filled_buffer_length (bufsize : Z) (block bytes : list Z) :
  length (filled_buffer bufsize block bytes) = Z.to_nat bufsize.
Proof. unfold filled_buffer. apply length_resize. Qed.

(** The buffers a run appends, whatever ends it: one for each of the first
    counts announced, of the size [min(count, MAX_BUFFER_SIZE)], and each of
    those counts was positive. *)
Lemma dcb_read_loop_sizes (EAGAIN EWOULDBLOCK MAX_BUFFER_SIZE : Z) (script : list read_step) :
  forall (b n : Z) (dcb : DCB) (head : list GWBUF) rv dcb' head',
    dcb_read_loop EAGAIN EWOULDBLOCK MAX_BUFFER_SIZE script b n dcb head
      = Some (rv, dcb', head') ->
    exists new : list GWBUF,
      head' = head ++ new /\
      length <$> new =
        (fun c => Z.to_nat (Z.min c MAX_BUFFER_SIZE)) <$>
          take (length new) (avail_counts b script) /\
      Forall (fun c => (0 < c)%Z) (take (length new) (avail_counts b script)).
Proof.
  assert (Hstop : forall (head : list GWBUF) b sc,
    exists new : list GWBUF, head = head ++ new /\
      length <$> new = (fun c => Z.to_nat (Z.min c MAX_BUFFER_SIZE)) <$>
          take (length new) (avail_counts b sc) /\
      Forall (fun c => (0 < c)%Z) (take (length new) (avail_counts b sc))).
  { intros head b sc. exists []. rewrite app_nil_r. repeat split. constructor. }
  induction script as [|st script IH]; intros b n dcb head rv dcb' head' H.
  - simpl in H. destruct (Z.gtb_spec b 0); [discriminate|].
    injection H as <- <- <-. apply Hstop.
  - simpl in H. destruct (Z.gtb_spec b 0) as [Hb|Hb];
      [|injection H as <- <- <-; apply Hstop].
    destruct (rs_alloc st) as [block|]; [|injection H as <- <- <-; apply Hstop].
    destruct (rs_read st) as [bytes|errno].
    + destruct (Z.of_nat (length bytes) =? 0)%Z; [injection H as <- <- <-; apply Hstop|].
      set (buf := filled_buffer (read_bufsize MAX_BUFFER_SIZE b) block bytes) in H.
      assert (Hlen : length buf = Z.to_nat (Z.min b MAX_BUFFER_SIZE)).
      { unfold buf. rewrite filled_buffer_length, read_bufsize_min. reflexivity. }
      destruct (rs_ioctl st) as [b'|] eqn:Hio.
      * apply IH in H as (new & -> & Hsz & Hpos).
        exists (buf :: new). unfold gwbuf_append. rewrite <- app_assoc. split; [reflexivity|].
        unfold avail_counts in *. simpl. rewrite Hio. simpl.
        split; [rewrite Hlen; f_equal; exact Hsz|].
        constructor; [lia|exact Hpos].
      * injection H as <- <- <-. exists [buf]. split; [reflexivity|].
        simpl. rewrite Hlen. split; [reflexivity|]. repeat constructor. lia.
    + destruct ((errno =? EAGAIN)%Z || (errno =? EWOULDBLOCK)%Z);
        injection H as <- <- <-; apply Hstop.
Qed.

(** While nothing goes wrong the loop runs as long as the count announced is
    positive, and not longer: a script of good turns whose counts are positive
    except the last one is followed to its end, one buffer per turn. *)
Lemma dcb_read_loop_drains (EAGAIN EWOULDBLOCK MAX_BUFFER_SIZE : Z) (script : list read_step) :
  forall (b n : Z) (dcb : DCB) (head : list GWBUF),
    Forall good_step script ->
    Forall (fun c => (0 < c)%Z) (take (length script) (avail_counts b script)) ->
    (forall c, avail_counts b script !! length script = Some c -> (c <= 0)%Z) ->
    exists rv dcb' new,
      dcb_read_loop EAGAIN EWOULDBLOCK MAX_BUFFER_SIZE script b n dcb head
        = Some (rv, dcb', head ++ new) /\
      length new = length script.
Proof.
  induction script as [|st script IH]; intros b n dcb head Hgood Hpos Hlast.
  - simpl. specialize (Hlast b eq_refl).
    destruct (Z.gtb_spec b 0); [lia|].
    exists n, dcb, []. rewrite app_nil_r. split; reflexivity.
  - apply Forall_cons in Hgood as [(Ha & (bytes & Hr & Hne) & Hi) Hgood].
    destruct Ha as [block Ha]. destruct Hi as [b' Hi].
    unfold avail_counts in Hpos, Hlast. simpl in Hpos, Hlast. rewrite Hi in Hpos, Hlast.
    simpl in Hpos, Hlast. apply Forall_cons in Hpos as [Hb Hpos].
    simpl. destruct (Z.gtb_spec b 0); [|lia].
    rewrite Ha, Hr, Hi.
    destruct (Z.eqb_spec (Z.of_nat (length bytes)) 0) as [E|_].
    { destruct bytes; [contradiction|simpl in E; lia]. }
    destruct (IH b' (Z.of_nat (length bytes)) (count_attempts (rs_eintr st) dcb)
                (gwbuf_append head
                   [filled_buffer (read_bufsize MAX_BUFFER_SIZE b) block bytes])
                Hgood Hpos Hlast) as (rv & dcb' & new & Hrun & Hlen).
    exists rv, dcb', (filled_buffer (read_bufsize MAX_BUFFER_SIZE b) block bytes :: new).
    unfold gwbuf_append in Hrun. rewrite <- app_assoc in Hrun.
    split; [exact Hrun|simpl; rewrite Hlen; reflexivity].
Qed.

(** [dcb_read] returns whenever the script is followed by a count that is not
    positive: the loop has left before, or it leaves there. *)
Lemma dcb_read_loop_returns (EAGAIN EWOULDBLOCK MAX_BUFFER_SIZE : Z) (script : list read_step) :
  forall (b n : Z) (dcb : DCB) (head : list GWBUF),
    (forall c, last (avail_counts b script) = Some c -> (c <= 0)%Z) ->
    is_Some (dcb_read_loop EAGAIN EWOULDBLOCK MAX_BUFFER_SIZE script b n dcb head).
Proof.
  induction script as [|st script IH]; intros b n dcb head Hlast.
  - simpl. specialize (Hlast b eq_refl). destruct (Z.gtb_spec b 0); [lia|eauto].
  - simpl. destruct (Z.gtb_spec b 0); [|eauto].
    destruct (rs_alloc st); [|eauto].
    destruct (rs_read st) as [bytes|errno].
    + destruct (Z.of_nat (length bytes) =? 0)%Z; [eauto|].
      destruct (rs_ioctl st) as [b'|] eqn:Hio; [|eauto].
      apply IH. intros c Hc. apply Hlast.
      unfold avail_counts in *. simpl. rewrite Hio. simpl. exact Hc.
    + destruct ((errno =? EAGAIN)%Z || (errno =? EWOULDBLOCK)%Z); eauto.
Qed.

Lemma filled_buffer_prefix (bufsize : Z) (block bytes : list Z) :
  take (length bytes) (filled_buffer bufsize block bytes) =
    take (length (filled_buffer bufsize block bytes)) bytes.
Proof.
  rewrite filled_buffer_length. unfold filled_buffer.
  set (n := Z.to_nat bufsize). set (k := length bytes).
  rewrite take_resize, resize_le by (rewrite length_app; unfold k; lia).
  rewrite take_app_le by (unfold k; lia).
  destruct (decide (k <= n)) as [Hle|Hgt].
  - rewrite Nat.min_l by exact Hle. unfold k. rewrite take_ge by lia.
    rewrite take_ge by lia. reflexivity.
  - rewrite Nat.min_r by lia. reflexivity.
Qed.

Lemma attempts_nil : attempts [] = 0%Z.
Proof. reflexivity. Qed.

Lemma attempts_cons (st : read_step) (script : list read_step) :
  attempts (st :: script) = (Z.of_nat (S (rs_eintr st)) + attempts script)%Z.
Proof.
  unfold attempts. rewrite fmap_cons.
  change (sum_list (S (rs_eintr st) :: ((fun st => S (rs_eintr st)) <$> script)))
    with (S (rs_eintr st) + sum_list ((fun st => S (rs_eintr st)) <$> script)).
  lia.
Qed.

(** Every turn makes at least one call of [read]. *)
Lemma attempts_length (script : list read_step) :
  (Z.of_nat (length script) <= attempts script)%Z.
Proof.
  induction script as [|st script IH]; [reflexivity|].
  rewrite attempts_cons. cbn [length]. lia.
Qed.

Lemma iter_incr_n_reads (m : nat) (dcb : DCB) :
  set_stats (stats dcb) (Nat.iter m incr_n_reads dcb) = dcb /\
  stats (Nat.iter m incr_n_reads dcb) =
    mkDCBSTATS (n_reads (stats dcb) + Z.of_nat m) (n_writes (stats dcb))
               (n_accepts (stats dcb)) (n_buffered (stats dcb)).
Proof.
  induction m as [|m [IH1 IH2]].
  - destruct dcb as [? ? ? ? ? ? ? ? [? ? ? ?] ? ? ? ?]. cbn. split; [reflexivity|].
    f_equal. lia.
  - rewrite Nat.iter_succ. set (d := Nat.iter m incr_n_reads dcb) in *. split.
    + assert (E : forall s x, set_stats s (incr_n_reads x) = set_stats s x)
        by (intros s x; destruct x; reflexivity).
      rewrite E. exact IH1.
    + assert (E : forall x, stats (incr_n_reads x) =
                mkDCBSTATS (n_reads (stats x) + 1) (n_writes (stats x))
                           (n_accepts (stats x)) (n_buffered (stats x)))
        by (intros x; destruct x; reflexivity).
      rewrite E, IH2. cbn [n_reads n_writes n_accepts n_buffered]. f_equal. lia.
Qed.

Lemma count_attempts_stats (k : nat) (dcb : DCB) :
  set_stats (stats dcb) (count_attempts k dcb) = dcb /\
  stats (count_attempts k dcb) =
    mkDCBSTATS (n_reads (stats dcb) + Z.of_nat (S k)) (n_writes (stats dcb))
               (n_accepts (stats dcb)) (n_buffered (stats dcb)).
Proof. unfold count_attempts. apply iter_incr_n_reads. Qed.

(** What a run of the reading loop appends and counts: the buffers [new], one
    for each of the reads [reads] that delivered bytes, and [k] completed
    calls of [read], of which at most the last delivered nothing; [n_reads]
    has grown by the attempts behind those [k] calls. *)
Lemma dcb_read_loop_delivers (EAGAIN EWOULDBLOCK MAX_BUFFER_SIZE : Z)
    (script : list read_step) :
  forall (b n : Z) (dcb : DCB) (head : list GWBUF) rv dcb' head',
    dcb_read_loop EAGAIN EWOULDBLOCK MAX_BUFFER_SIZE script b n dcb head
      = Some (rv, dcb', head') ->
    exists (new : list GWBUF) (reads : list (list Z)) (k : nat),
      head' = head ++ new /\
      rs_read <$> take (length new) script = R_ok <$> reads /\
      Forall2 holds_read new reads /\
      length new <= k <= S (length new) /\
      k <= length script /\
      set_stats (stats dcb) dcb' = dcb /\
      stats dcb' = mkDCBSTATS (n_reads (stats dcb) + attempts (take k script))
                              (n_writes (stats dcb))
                              (n_accepts (stats dcb)) (n_buffered (stats dcb)).
Proof.
  assert (Hnone : forall (dcb : DCB) (sc : list read_step),
            set_stats (stats dcb) dcb = dcb /\
            stats dcb = mkDCBSTATS (n_reads (stats dcb) + attempts (take 0 sc))
                                   (n_writes (stats dcb))
                                   (n_accepts (stats dcb)) (n_buffered (stats dcb))).
  { intros dcb sc. destruct dcb as [? ? ? ? ? ? ? ? [? ? ? ?] ? ? ? ?].
    cbn [stats set_stats n_reads n_writes n_accepts n_buffered].
    split; [reflexivity|]. rewrite take_0, attempts_nil. f_equal. lia. }
  assert (Hone : forall (dcb : DCB) (st : read_step) (sc : list read_step),
            set_stats (stats dcb) (count_attempts (rs_eintr st) dcb) = dcb /\
            stats (count_attempts (rs_eintr st) dcb) =
              mkDCBSTATS (n_reads (stats dcb) + attempts (take 1 (st :: sc)))
                         (n_writes (stats dcb))
                         (n_accepts (stats dcb)) (n_buffered (stats dcb))).
  { intros dcb st sc. destruct (count_attempts_stats (rs_eintr st) dcb) as [H1 H2].
    split; [exact H1|]. rewrite H2.
    change (take 1 (st :: sc)) with [st]. rewrite attempts_cons, attempts_nil.
    f_equal; lia. }
  induction script as [|st script IH]; intros b n dcb head rv dcb' head' H.
  - simpl in H. destruct (b >? 0)%Z; [discriminate|]. injection H as <- <- <-.
    exists [], [], 0. rewrite app_nil_r. split; [reflexivity|]. split; [reflexivity|].
    split; [constructor|]. split; [cbn; lia|]. split; [cbn; lia|]. apply Hnone.
  - simpl in H. destruct (b >? 0)%Z.
    2:{ injection H as <- <- <-.
        exists [], [], 0. rewrite app_nil_r. split; [reflexivity|]. split; [reflexivity|].
        split; [constructor|]. split; [cbn; lia|]. split; [cbn; lia|]. apply Hnone. }
    destruct (rs_alloc st) as [block|].
    2:{ injection H as <- <- <-.
        exists [], [], 0. rewrite app_nil_r. split; [reflexivity|]. split; [reflexivity|].
        split; [constructor|]. split; [cbn; lia|]. split; [cbn; lia|]. apply Hnone. }
    destruct (rs_read st) as [bytes|errno] eqn:Hr.
    + destruct (Z.of_nat (length bytes) =? 0)%Z eqn:Hz.
      { injection H as <- <- <-.
        exists [], [], 1. rewrite app_nil_r. split; [reflexivity|]. split; [reflexivity|].
        split; [constructor|]. split; [cbn; lia|]. split; [cbn; lia|]. apply Hone. }
      assert (Hne : bytes <> []).
      { intros ->. cbn in Hz. discriminate Hz. }
      destruct (rs_ioctl st) as [b'|].
      * apply IH in H as (new & reads & k & -> & Hreads & Hall & Hk & Hks & Hs1 & Hs2).
        exists (filled_buffer (read_bufsize MAX_BUFFER_SIZE b) block bytes :: new),
               (bytes :: reads), (S k).
        split; [unfold gwbuf_append; rewrite <- app_assoc; reflexivity|].
        split; [cbn [length firstn fmap list_fmap]; rewrite Hr; f_equal; exact Hreads|].
        split; [constructor; [split; [exact Hne|apply filled_buffer_prefix]|exact Hall]|].
        split; [cbn [length]; lia|]. split; [cbn [length]; lia|].
        destruct (count_attempts_stats (rs_eintr st) dcb) as [Hi1 Hi2].
        rewrite Hi2 in Hs2. cbn [n_reads n_writes n_accepts n_buffered] in Hs2.
        split.
        -- rewrite <- Hi1 at 2. rewrite <- Hs1. destruct dcb'; reflexivity.
        -- rewrite Hs2. change (take (S k) (st :: script)) with (st :: take k script).
           rewrite attempts_cons. f_equal; lia.
      * injection H as <- <- <-.
        exists [filled_buffer (read_bufsize MAX_BUFFER_SIZE b) block bytes], [bytes], 1.
        split; [reflexivity|].
        split; [cbn [length firstn fmap list_fmap]; rewrite Hr; reflexivity|].
        split; [constructor; [split; [exact Hne|apply filled_buffer_prefix]|constructor]|].
        split; [cbn; lia|]. split; [cbn; lia|]. apply Hone.
    + assert (Hret : dcb' = count_attempts (rs_eintr st) dcb /\ head' = head).
      { destruct (_ || _) in H; injection H as _ <- <-; split; reflexivity. }
      destruct Hret as [-> ->].
      exists [], [], 1. rewrite app_nil_r. split; [reflexivity|]. split; [reflexivity|].
      split; [constructor|]. split; [cbn; lia|]. split; [cbn; lia|]. apply Hone.
Qed.

(** C6: a run of [dcb_read] appends to the chain one buffer for each turn of
    its loop that read bytes, in read order: the buffer of a turn has the size
    [min(available_i, MAX_BUFFER_SIZE)] for the count announced before that
    turn and holds, at its front, the bytes of the [read] of that turn, and
    at least one [read] was made for each buffer.  As long as allocation,
    [read] and [ioctl] succeed, the loop runs until the count announced is no
    longer positive, with one completed [read] a turn; and the function
    returns whenever the script ends with a count that is not positive. *)
Theorem dcb_read_buffer_sizes (EAGAIN EWOULDBLOCK MAX_BUFFER_SIZE : Z) (dcb : DCB)
    (head : list GWBUF) (b0 : Z) (script : list read_step) :
  (forall rv dcb' head',
     dcb_read EAGAIN EWOULDBLOCK MAX_BUFFER_SIZE dcb head (Some b0) script
       = Some (rv, dcb', head') ->
     exists (new : list GWBUF) (reads : list (list Z)),
       head' = head ++ new /\
       length <$> new =
         (fun c => Z.to_nat (Z.min c MAX_BUFFER_SIZE)) <$>
           take (length new) (avail_counts b0 script) /\
       Forall (fun c => (0 < c)%Z) (take (length new) (avail_counts b0 script)) /\
       rs_read <$> take (length new) script = R_ok <$> reads /\
       Forall2 holds_read new reads /\
       (n_reads (stats dcb) + Z.of_nat (length new) <= n_reads (stats dcb'))%Z) /\
  (Forall good_step script ->
   Forall (fun c => (0 < c)%Z) (take (length script) (avail_counts b0 script)) ->
   (forall c, avail_counts b0 script !! length script = Some c -> (c <= 0)%Z) ->
   exists rv dcb' new reads,
     dcb_read EAGAIN EWOULDBLOCK MAX_BUFFER_SIZE dcb head (Some b0) script
       = Some (rv, dcb', head ++ new) /\
     length new = length script /\
     length <$> new =
       (fun c => Z.to_nat (Z.min c MAX_BUFFER_SIZE)) <$>
         take (length script) (avail_counts b0 script) /\
     rs_read <$> script = R_ok <$> reads /\
     Forall2 holds_read new reads /\
     n_reads (stats dcb') = (n_reads (stats dcb) + attempts script)%Z) /\
  ((forall c, last (avail_counts b0 script) = Some c -> (c <= 0)%Z) ->
   is_Some (dcb_read EAGAIN EWOULDBLOCK MAX_BUFFER_SIZE dcb head (Some b0) script)).
Proof.
  split; [|split].
  - intros rv dcb' head' H.
    destruct (dcb_read_loop_sizes _ _ _ _ _ _ _ _ _ _ _ H) as (new & Happ & Hsz & Hpos).
    destruct (dcb_read_loop_delivers _ _ _ _ _ _ _ _ _ _ _ H)
      as (new' & reads & k & Happ' & Hreads & Hall & Hk & Hks & _ & Hst).
    rewrite Happ in Happ'. apply app_inv_head in Happ'. subst new'.
    exists new, reads. split; [exact Happ|]. split; [exact Hsz|]. split; [exact Hpos|].
    split; [exact Hreads|]. split; [exact Hall|].
    rewrite Hst. cbn [n_reads].
    pose proof (attempts_length (take k script)) as Hat.
    rewrite length_take in Hat. lia.
  - intros Hgood Hpos Hlast.
    destruct (dcb_read_loop_drains EAGAIN EWOULDBLOCK MAX_BUFFER_SIZE script b0 0 dcb head
                Hgood Hpos Hlast) as (rv & dcb' & new & Hrun & Hlen).
    destruct (dcb_read_loop_sizes _ _ _ _ _ _ _ _ _ _ _ Hrun) as (new' & Happ & Hsz & _).
    apply app_inv_head in Happ. subst new'. rewrite Hlen in Hsz.
    destruct (dcb_read_loop_delivers _ _ _ _ _ _ _ _ _ _ _ Hrun)
      as (new' & reads & k & Happ' & Hreads & Hall & Hk & Hks & _ & Hst).
    apply app_inv_head in Happ'. subst new'.
    rewrite Hlen in Hreads, Hk. rewrite firstn_all in Hreads.
    assert (k = length script) as -> by lia. rewrite firstn_all in Hst.
    exists rv, dcb', new, reads. split; [exact Hrun|]. split; [exact Hlen|].
    split; [exact Hsz|]. split; [exact Hreads|]. split; [exact Hall|].
    rewrite Hst. reflexivity.
  - intros Hlast. apply dcb_read_loop_returns. exact Hlast.
Qed.

(** The instance: 20 bytes pending, buffers of at most 8 bytes, every [read]
    served in full after no interruption; buffers of 8, 8 and 4 bytes are
    appended, each holding the bytes of its read, and three reads are
    counted. *)
Lemma dcb_read_buffer_sizes_witness :
  exists rv dcb' new reads,
    dcb_read 11 11 8 (fresh_dcb 3) [] (Some 20%Z) (drain_script 3 8 20)
      = Some (rv, dcb', [] ++ new) /\
    length new = length (drain_script 3 8 20) /\
    length <$> new = [8; 8; 4] /\
    rs_read <$> drain_script 3 8 20 = R_ok <$> reads /\
    Forall2 holds_read new reads /\
    n_reads (stats dcb') = 3%Z.
Proof.
  destruct (dcb_read_buffer_sizes 11 11 8 (fresh_dcb 3) [] 20 (drain_script 3 8 20))
    as (_ & Hdrain & _).
  destruct Hdrain as (rv & dcb' & new & reads & Hrun & Hlen & Hsz & Hreads & Hall & Hn).
  - repeat constructor; simpl; eauto; eexists; (split; [reflexivity|discriminate]).
  - simpl. repeat constructor.
  - simpl. intros c Hc. injection Hc as <-. lia.
  - exists rv, dcb', new, reads. split; [exact Hrun|]. split; [exact Hlen|].
    split; [exact Hsz|]. split; [exact Hreads|]. split; [exact Hall|]. exact Hn.
Defined.

(** C5: the run of scenario S6.  10240 bytes are pending, MAX_BUFFER_SIZE is
    4096 and each [read] is served in full: three buffers of 4096, 4096 and
    2048 bytes are appended, and the value returned is 2048, the result of the
    last [read], not the 10240 bytes appended. *)
Theorem dcb_read_returns_last_read :
  exists dcb' head',
    dcb_read 11 11 4096 (fresh_dcb 3) [] (Some 10240%Z) (drain_script 3 4096 10240)
      = Some (2048%Z, dcb', head') /\
    length <$> head' = [4096; 4096; 2048]%nat /\
    n_reads (stats dcb') = 3%Z.
Proof.
  eexists _, _. split; [vm_compute; reflexivity|].
  split; vm_compute; reflexivity.
Qed.

(** A [read] that fails with EAGAIN makes [dcb_read] return -1 as any other
    error does, also after buffers were appended. *)
Lemma dcb_read_eagain (EAGAIN EWOULDBLOCK MAX_BUFFER_SIZE : Z) (dcb : DCB)
    (head : list GWBUF) (b : Z) (block : list Z) (k : nat) (io : option Z)
    (script : list read_step) :
  (0 < b)%Z ->
  dcb_read EAGAIN EWOULDBLOCK MAX_BUFFER_SIZE dcb head (Some b)
    (mkread_step (Some block) k (R_err EAGAIN) io :: script)
  = Some ((-1)%Z, count_attempts k dcb, head).
Proof.
  intros Hb. simpl. destruct (Z.gtb_spec b 0); [|lia].
  rewrite Z.eqb_refl. reflexivity.
Qed.

(** No byte announced by the first query: 0 is returned without a [read]. *)
Lemma dcb_read_nothing_pending (EAGAIN EWOULDBLOCK MAX_BUFFER_SIZE : Z) (dcb : DCB)
    (head : list GWBUF) (script : list read_step) :
  dcb_read EAGAIN EWOULDBLOCK MAX_BUFFER_SIZE dcb head (Some 0%Z) script
  = Some (0%Z, dcb, head).
Proof. destruct script; reflexivity. Qed.

(** ** List segments in the heap *)

Section Lseg.
Variable nxt : DCB -> option addr.

Lemma lseg_frame (h h' : gmap addr DCB) (l : list addr) :
  forall p q,
    (forall a, a ∈ l -> nxt <$> (h' !! a) = nxt <$> (h !! a)) ->
    lseg nxt h p q l -> lseg nxt h' p q l.
Proof.
  induction l as [|a l IH]; intros p q Hfr H; simpl in *; [exact H|].
  destruct H as (-> & d & Hd & Hl). split; [reflexivity|].
  assert (Ha : nxt <$> (h' !! a) = nxt <$> (h !! a)) by (apply Hfr; left).
  rewrite Hd in Ha. simpl in Ha.
  destruct (h' !! a) as [d'|] eqn:Hd'; [|discriminate].
  simpl in Ha. injection Ha as Ha. exists d'. split; [reflexivity|].
  rewrite Ha. apply IH; [|exact Hl]. intros b Hb. apply Hfr. right. exact Hb.
Qed.

Lemma lseg_app (h : gmap addr DCB) (l1 l2 : list addr) :
  forall p q,
    lseg nxt h p q (l1 ++ l2) <-> exists r, lseg nxt h p r l1 /\ lseg nxt h r q l2.
Proof.
  induction l1 as [|a l1 IH]; intros p q; simpl.
  - split.
    + intros H. exists p. split; [reflexivity|exact H].
    + intros (r & -> & H). exact H.
  - split.
    + intros (-> & d & Hd & H). apply IH in H as (r & H1 & H2).
      exists r. split; [|exact H2]. split; [reflexivity|]. exists d. split; assumption.
    + intros (r & (-> & d & Hd & H1) & H2). split; [reflexivity|].
      exists d. split; [exact Hd|]. apply IH. exists r. split; assumption.
Qed.

Lemma lseg_lookup (h : gmap addr DCB) (l : list addr) :
  forall p q a, lseg nxt h p q l -> a ∈ l -> is_Some (h !! a).
Proof.
  induction l as [|b l IH]; intros p q a H Ha; [inversion Ha|].
  destruct H as (-> & d & Hd & Hl).
  apply elem_of_cons in Ha as [->|Ha]; [eauto|]. eapply IH; eassumption.
Qed.

(** Both ends of a one-element extension. *)
Lemma lseg_snoc (h : gmap addr DCB) (l : list addr) (p q : option addr) (a : addr) (d : DCB) :
  lseg nxt h p (Some a) l -> h !! a = Some d -> nxt d = q ->
  lseg nxt h p q (l ++ [a]).
Proof.
  intros H Hd Hq. apply lseg_app. exists (Some a). split; [exact H|].
  simpl. split; [reflexivity|]. exists d. split; [exact Hd|exact Hq].
Qed.

Lemma lseg_head (h : gmap addr DCB) (l : list addr) (p q : option addr) :
  lseg nxt h p q l -> l <> [] -> p = head l.
Proof. destruct l; [contradiction|]. intros (-> & _) _. reflexivity. Qed.

(** A chain that reaches NULL spells one list only. *)
Lemma lseg_functional (h : gmap addr DCB) (l1 : list addr) :
  forall l2 p, lseg nxt h p None l1 -> lseg nxt h p None l2 -> l1 = l2.
Proof.
  induction l1 as [|a l1 IH]; intros l2 p H1 H2.
  - simpl in H1. subst p. destruct l2; [reflexivity|]. destruct H2 as [? _]. discriminate.
  - destruct H1 as (-> & d & Hd & H1). destruct l2 as [|b l2]; [discriminate H2|].
    destruct H2 as (E & d' & Hd' & H2). injection E as <-.
    rewrite Hd in Hd'. injection Hd' as <-. f_equal. eapply IH; eassumption.
Qed.
End Lseg.

Lemma lseg_nil (nxt : DCB -> option addr) (h : gmap addr DCB) (p q : option addr) :
  lseg nxt h p q [] <-> p = q.
Proof. reflexivity. Qed.

Lemma lseg_cons (nxt : DCB -> option addr) (h : gmap addr DCB) (p q : option addr)
    (a : addr) (l : list addr) :
  lseg nxt h p q (a :: l) <->
  p = Some a /\ exists d, h !! a = Some d /\ lseg nxt h (nxt d) q l.
Proof. reflexivity. Qed.

Lemma lseg_snoc_inv (nxt : DCB -> option addr) (h : gmap addr DCB) (l : list addr)
    (p q : option addr) (a : addr) :
  lseg nxt h p q (l ++ [a]) ->
  lseg nxt h p (Some a) l /\ exists d, h !! a = Some d /\ nxt d = q.
Proof.
  intros H. apply lseg_app in H as (r & H1 & H2).
  destruct H2 as (-> & d & Hd & Hq). split; [exact H1|]. eauto.
Qed.

#[global] Arguments lseg : simpl never.

(** ** Running the monad *)

Lemma bind_run {A B} (m : M A) (k : A -> M B) (w w1 : World) (a : A) :
  m w = Some (a, w1) -> bind m k w = k a w1.
Proof. intros H. unfold bind. rewrite H. reflexivity. Qed.

Lemma bind_bind {A B C} (m : M A) (f : A -> M B) (g : B -> M C) (w : World) :
  bind (bind m f) g w = bind m (fun x => bind (f x) g) w.
Proof. unfold bind. destruct (m w) as [[a w1]|]; reflexivity. Qed.

Lemma deref_run (p : addr) (d : DCB) (w : World) :
  heap w !! p = Some d -> deref p w = Some (d, w).
Proof. intros H. unfold deref. rewrite H. reflexivity. Qed.

Lemma modify_run (p : addr) (f : DCB -> DCB) (d : DCB) (w : World) :
  heap w !! p = Some d -> modify p f w = Some (tt, set_heap (<[p := f d]> (heap w)) w).
Proof. intros H. unfold modify. rewrite H. reflexivity. Qed.

(** [dcb_set_state] on an allocated DCB: the record is replaced by the one
    the transition function returns. *)
Lemma dcb_set_state_run (dcb : addr) (new_state : dcb_state_t) (old_state : bool)
    (d : DCB) (w : World) :
  heap w !! dcb = Some d ->
  dcb_set_state dcb new_state old_state w =
    Some ((snd (dcb_set_state_nomutex d new_state true),
           if old_state then Some (state d) else None),
          set_heap (<[dcb := fst (fst (dcb_set_state_nomutex d new_state true))]> (heap w)) w).
Proof.
  intros H. unfold dcb_set_state. rewrite (bind_run _ _ _ _ _ (deref_run _ _ _ H)).
  assert (Hold : snd (fst (dcb_set_state_nomutex d new_state true)) = Some (state d)).
  { unfold dcb_set_state_nomutex. destruct (state d), new_state; reflexivity. }
  destruct (dcb_set_state_nomutex d new_state true) as [[d' st] succp].
  simpl in *. subst st.
  rewrite (bind_run _ _ _ _ _ (modify_run _ _ _ _ H)). reflexivity.
Qed.

(** The transition function writes the field [state] only. *)
Lemma dcb_set_state_nomutex_fields (d : DCB) (new_state : dcb_state_t) (old_state : bool) :
  exists s, fst (fst (dcb_set_state_nomutex d new_state old_state)) = set_state s d
            /\ s = (if legal_transition (state d) new_state
                    then (if idempotent_transition (state d) new_state
                          then state d else new_state)
                    else state d).
Proof.
  destruct (legal_transition (state d) new_state) eqn:H.
  - rewrite (dcb_set_state_nomutex_legal _ _ _ H).
    destruct (idempotent_transition (state d) new_state); eexists; split; try reflexivity.
    destruct d; reflexivity.
  - rewrite (dcb_set_state_nomutex_illegal _ _ _ H). eexists; split; try reflexivity.
    destruct d; reflexivity.
Qed.

(** ** Heaps that agree on an observation *)

Lemma agree_refl {X} (f : DCB -> X) (h : gmap addr DCB) : agree f h h.
Proof. intros a. reflexivity. Qed.

Lemma agree_trans {X} (f : DCB -> X) (h1 h2 h3 : gmap addr DCB) :
  agree f h1 h2 -> agree f h2 h3 -> agree f h1 h3.
Proof. intros H12 H23 a. rewrite H23. apply H12. Qed.

Lemma agree_insert {X} (f : DCB -> X) (h : gmap addr DCB) (a : addr) (d d' : DCB) :
  h !! a = Some d -> f d' = f d -> agree f h (<[a := d']> h).
Proof.
  intros Hd Hf b. destruct (decide (b = a)) as [->|Hne].
  - rewrite lookup_insert_eq, Hd. simpl. rewrite Hf. reflexivity.
  - rewrite lookup_insert_ne by congruence. reflexivity.
Qed.

Lemma agree_weaken {X Y} (f : DCB -> X) (g : DCB -> Y) (k : X -> Y) (h h' : gmap addr DCB) :
  (forall d, g d = k (f d)) -> agree f h h' -> agree g h h'.
Proof.
  intros Hk H a. specialize (H a).
  destruct (h' !! a) as [d'|], (h !! a) as [d|]; simpl in *; try discriminate; [|reflexivity].
  injection H as H. rewrite !Hk, H. reflexivity.
Qed.

Lemma agree_lookup {X} (f : DCB -> X) (h h' : gmap addr DCB) (a : addr) (d : DCB) :
  agree f h h' -> h !! a = Some d -> exists d', h' !! a = Some d' /\ f d' = f d.
Proof.
  intros H Hd. specialize (H a). rewrite Hd in H.
  destruct (h' !! a) as [d'|]; [|discriminate]. injection H as H. eauto.
Qed.

Lemma agree_sym {X} (f : DCB -> X) (h h' : gmap addr DCB) : agree f h h' -> agree f h' h.
Proof. intros H a. symmetry. apply H. Qed.

(** ** dcb_add_to_zombieslist *)

(** The walk stops on the DCB if it is on the list and on the tail if not. *)
Lemma zombies_walk_run (dcb : addr) (w : World) (l : list addr) :
  forall (fuel : nat) (p : addr),
    lseg zombie_link (heap w) (Some p) None l ->
    length l <= fuel ->
    exists r, zombies_walk fuel dcb p w = Some (r, w) /\
              (((dcb ∈ l) /\ r = dcb) \/ ((dcb ∉ l) /\ last l = Some r)).
Proof.
  induction l as [|a l IH]; intros fuel p H Hf; [discriminate H|].
  destruct H as (E & d & Hd & Hl). injection E as ->.
  destruct fuel as [|fuel]; [simpl in Hf; lia|]. simpl in Hf.
  simpl. rewrite (bind_run _ _ _ _ _ (deref_run _ _ _ Hd)).
  fold (zombie_link d).
  destruct l as [|b l].
  - simpl in Hl. rewrite Hl. exists a. split; [reflexivity|].
    destruct (decide (dcb = a)) as [->|Hne].
    + left. split; [left|reflexivity].
    + right. split; [|reflexivity]. intros Hin. apply list_elem_of_singleton in Hin.
      contradiction.
  - pose proof Hl as (E & _). rewrite E.
    destruct (decide (a = dcb)) as [->|Hne].
    + exists dcb. split; [reflexivity|]. left. split; [left|reflexivity].
    + rewrite E in Hl. destruct (IH fuel b Hl ltac:(lia)) as (r & Hr & Hcase).
      exists r. split; [exact Hr|].
      destruct Hcase as [[Hin ->]|[Hnin Hlast]].
      * left. split; [right; exact Hin|reflexivity].
      * right. split.
        -- intros Hin. apply elem_of_cons in Hin as [->|Hin]; [congruence|contradiction].
        -- exact Hlast.
Qed.

Lemma set_state_zombie_link (s : dcb_state_t) (d : DCB) :
  zombie_link (set_state s d) = zombie_link d.
Proof. reflexivity. Qed.

(** What [dcb_add_to_zombieslist] does to a DCB that is not in state ZOMBIE:
    the DCB is appended unless the walk met it, and the transition to ZOMBIE
    is requested. *)
Lemma dcb_add_to_zombieslist_run (fuel : nat) (dcb : addr) (w : World) (l : list addr)
    (d : DCB) :
  zombie_list w l ->
  heap w !! dcb = Some d ->
  (dcb ∉ l -> zombie_link d = None) ->
  length l <= fuel ->
  state d <> DCB_STATE_ZOMBIE ->
  exists w',
    dcb_add_to_zombieslist fuel dcb w = Some (tt, w') /\
    zombie_list w' (if decide (dcb ∈ l) then l else l ++ [dcb]) /\
    state_of w' dcb =
      Some (if legal_transition (state d) DCB_STATE_ZOMBIE
            then DCB_STATE_ZOMBIE else state d) /\
    (forall a, a <> dcb -> state_of w' a = state_of w a) /\
    agree (fun x => (bitmask (memdata x), next x, session x, fd x)) (heap w) (heap w') /\
    allDCBs w' = allDCBs w /\ sessions w' = sessions w /\ trace w' = trace w.
Proof.
  intros [Hl Hnd] Hd Hfresh Hfuel Hst.
  destruct (dcb_set_state_nomutex_fields d DCB_STATE_ZOMBIE true) as (s & Hd' & Hs).
  assert (Hs' : s = if legal_transition (state d) DCB_STATE_ZOMBIE
                    then DCB_STATE_ZOMBIE else state d).
  { rewrite Hs. destruct (state d); try reflexivity. }
  clear Hs.
  unfold dcb_add_to_zombieslist.
  rewrite (bind_run _ _ _ _ _ (deref_run _ _ _ Hd)).
  rewrite decide_False by exact Hst.
  unfold read_zombies at 1. unfold bind at 1.
  destruct (zombies w) as [h0|] eqn:Hz.
  - (* the list is not empty *)
    destruct l as [|a0 l0]; [discriminate Hl|].
    destruct (zombies_walk_run dcb w (a0 :: l0) fuel h0 Hl Hfuel) as (r & Hr & Hcase).
    rewrite bind_bind, (bind_run _ _ _ _ _ Hr).
    destruct Hcase as [[Hin ->]|[Hnin Hlast]].
    + rewrite bool_decide_eq_true_2 by reflexivity. simpl when.
      unfold ret at 1. unfold bind at 1.
      rewrite (bind_run _ _ _ _ _ (dcb_set_state_run _ _ _ _ _ Hd)).
      rewrite Hd'. eexists. split; [reflexivity|].
      rewrite decide_True by exact Hin. simpl.
      split; [split; [|exact Hnd]|].
      * simpl. rewrite Hz. eapply lseg_frame; [|exact Hl].
        intros a _. simpl. destruct (decide (a = dcb)) as [->|Hne].
        -- rewrite lookup_insert_eq, Hd. reflexivity.
        -- rewrite lookup_insert_ne by congruence. reflexivity.
      * unfold state_of. simpl. rewrite lookup_insert_eq. simpl. rewrite Hs'.
        split; [reflexivity|]. split; [|split; [|auto]].
        -- intros a Hne. rewrite lookup_insert_ne by congruence. reflexivity.
        -- apply (agree_insert _ _ _ _ _ Hd). reflexivity.
    + apply last_Some in Hlast as (l1 & Hl1).
      assert (Hrd : r <> dcb).
      { intros ->. apply Hnin. rewrite Hl1. apply elem_of_app. right. left. }
      rewrite bool_decide_eq_false_2 by exact Hrd. simpl when.
      rewrite Hl1 in Hl, Hnd, Hnin.
      apply lseg_snoc_inv in Hl as (Hl1' & dr & Hdr & Hrn).
      rewrite (bind_run _ _ _ _ _ (modify_run _ _ _ _ Hdr)).
      assert (Hd2 : heap (set_heap (<[r := set_mm_next (Some dcb) dr]> (heap w)) w) !! dcb
                    = Some d).
      { simpl. rewrite lookup_insert_ne by exact Hrd. exact Hd. }
      rewrite (bind_run _ _ _ _ _ (dcb_set_state_run _ _ _ _ _ Hd2)).
      rewrite Hd'. eexists. split; [reflexivity|].
      rewrite decide_False by (rewrite Hl1; exact Hnin). rewrite Hl1. simpl.
      apply NoDup_app in Hnd as (Hnd1 & Hdisj & _).
      apply not_elem_of_app in Hnin as [Hnin1 _].
      split; [split|].
      * simpl. rewrite Hz. rewrite <- app_assoc. apply lseg_app. exists (Some r). split.
        -- eapply lseg_frame; [|exact Hl1'].
           intros a Ha. rewrite !lookup_insert_ne; [reflexivity|..].
           ++ intros ->. apply (Hdisj _ Ha). left.
           ++ intros ->. contradiction.
        -- apply lseg_cons. split; [reflexivity|]. eexists. split.
           { rewrite lookup_insert_ne by congruence. apply lookup_insert_eq. }
           apply lseg_cons. split; [reflexivity|]. eexists. split; [apply lookup_insert_eq|].
           apply lseg_nil. rewrite set_state_zombie_link. apply Hfresh.
           rewrite Hl1. apply not_elem_of_app. split; [exact Hnin1|].
           intros Hin. apply list_elem_of_singleton in Hin. congruence.
      * rewrite <- app_assoc. apply NoDup_app. split; [exact Hnd1|]. split.
        -- intros x Hx Hx'. apply elem_of_cons in Hx' as [->|Hx'].
           ++ apply (Hdisj _ Hx). left.
           ++ apply list_elem_of_singleton in Hx'. subst x. contradiction.
        -- apply NoDup_cons. split; [|apply NoDup_singleton].
           intros Hin. apply list_elem_of_singleton in Hin. contradiction.
      * unfold state_of. simpl. rewrite lookup_insert_eq. simpl. rewrite Hs'.
        split; [reflexivity|]. split; [|split; [|auto]].
        -- intros a Hne. rewrite lookup_insert_ne by congruence.
           destruct (decide (a = r)) as [->|Hne'].
           ++ rewrite lookup_insert_eq, Hdr. reflexivity.
           ++ rewrite lookup_insert_ne by congruence. reflexivity.
        -- eapply agree_trans.
           ++ apply (agree_insert _ _ _ _ (set_mm_next (Some dcb) dr) Hdr). reflexivity.
           ++ apply (agree_insert _ _ _ d); [|reflexivity].
              rewrite lookup_insert_ne by congruence. exact Hd.
  - (* the list is empty *)
    destruct l as [|a0 l0]; [|destruct Hl as [? _]; discriminate].
    unfold write_zombies at 1. unfold bind at 1.
    assert (Hd2 : heap (set_zombies (Some dcb) w) !! dcb = Some d) by exact Hd.
    rewrite (bind_run _ _ _ _ _ (dcb_set_state_run _ _ _ _ _ Hd2)).
    rewrite Hd'. eexists. split; [reflexivity|]. simpl.
    split; [split|].
    + apply lseg_cons. split; [reflexivity|]. eexists. split; [apply lookup_insert_eq|].
      apply lseg_nil. rewrite set_state_zombie_link. apply Hfresh. apply not_elem_of_nil.
    + apply NoDup_singleton.
    + unfold state_of. simpl. rewrite lookup_insert_eq. simpl. rewrite Hs'.
      split; [reflexivity|]. split; [|split; [|auto]].
      * intros a Hne. rewrite lookup_insert_ne by congruence. reflexivity.
      * apply (agree_insert _ _ _ _ _ Hd). reflexivity.
Qed.

Lemma dcb_add_to_zombieslist_zombie (fuel : nat) (dcb : addr) (w : World) (d : DCB) :
  heap w !! dcb = Some d ->
  state d = DCB_STATE_ZOMBIE ->
  dcb_add_to_zombieslist fuel dcb w = Some (tt, w).
Proof.
  intros Hd Hst. unfold dcb_add_to_zombieslist.
  rewrite (bind_run _ _ _ _ _ (deref_run _ _ _ Hd)).
  rewrite decide_True by exact Hst. reflexivity.
Qed.


(** What the function does in every state: a DCB in state ZOMBIE is not
    touched; otherwise the DCB is appended to the zombie list unless it is on
    it already, so that the list keeps holding each DCB once; and the state
    becomes ZOMBIE where the state machine grants the transition (from
    NOPOLLING, the state in which [dcb_close] calls, or from UNDEFINED). *)
Lemma dcb_add_to_zombieslist_once (fuel : nat) (dcb : addr) (w : World) (l : list addr)
    (d : DCB) :
  zombie_list w l ->
  heap w !! dcb = Some d ->
  (dcb ∉ l -> zombie_link d = None) ->
  length l <= fuel ->
  (state d = DCB_STATE_ZOMBIE -> dcb_add_to_zombieslist fuel dcb w = Some (tt, w)) /\
  (state d <> DCB_STATE_ZOMBIE ->
   exists w' l',
     dcb_add_to_zombieslist fuel dcb w = Some (tt, w') /\
     zombie_list w' l' /\ NoDup l' /\
     l' = (if decide (dcb ∈ l) then l else l ++ [dcb]) /\
     (legal_transition (state d) DCB_STATE_ZOMBIE = true ->
      state_of w' dcb = Some DCB_STATE_ZOMBIE) /\
     (state d = DCB_STATE_NOPOLLING -> state_of w' dcb = Some DCB_STATE_ZOMBIE) /\
     (legal_transition (state d) DCB_STATE_ZOMBIE = false ->
      state_of w' dcb = Some (state d))).
Proof.
  intros Hzl Hd Hfresh Hfuel. split.
  - intros Hst. exact (dcb_add_to_zombieslist_zombie _ _ _ _ Hd Hst).
  - intros Hst.
    destruct (dcb_add_to_zombieslist_run fuel dcb w l d Hzl Hd Hfresh Hfuel Hst)
      as (w' & Hrun & Hzl' & Hstate & _).
    exists w', (if decide (dcb ∈ l) then l else l ++ [dcb]).
    split; [exact Hrun|]. split; [exact Hzl'|]. split; [exact (proj2 Hzl')|].
    split; [reflexivity|]. split; [|split].
    + intros Hlegal. rewrite Hstate, Hlegal. reflexivity.
    + intros Hnp. rewrite Hstate, Hnp. reflexivity.
    + intros Hill. rewrite Hstate, Hill. reflexivity.
Qed.

(** ** dcb_close *)

Lemma set_heap_same (w : World) : set_heap (heap w) w = w.
Proof. destruct w; reflexivity. Qed.

(** The first close of a polling DCB: the transition to NOPOLLING is granted,
    the descriptor is taken out of the poll set, the bitmask of the running
    polling threads is copied, and the DCB goes to the zombie list in state
    ZOMBIE.  The flag was assigned, so [junk] plays no part. *)
Lemma dcb_close_polling (fuel : nat) (junk : bool) (poll_bitmask : N) (dcb : addr)
    (w : World) (l : list addr) (d : DCB) :
  zombie_list w l ->
  heap w !! dcb = Some d ->
  state d = DCB_STATE_POLLING ->
  dcb ∉ l ->
  zombie_link d = None ->
  length l <= fuel ->
  exists w',
    dcb_close fuel junk poll_bitmask dcb w = Some (tt, w') /\
    zombie_list w' (l ++ [dcb]) /\
    state_of w' dcb = Some DCB_STATE_ZOMBIE /\
    mask_of w' dcb = Some poll_bitmask /\
    trace w' = trace w ++ [E_poll_remove_dcb dcb] /\
    allDCBs w' = allDCBs w /\ sessions w' = sessions w.
Proof.
  intros [Hl Hnd] Hd Hst Hnin Hlink Hfuel.
  unfold dcb_close. rewrite (bind_run _ _ _ _ _ (deref_run _ _ _ Hd)).
  assert (Hleg : legal_transition (state d) DCB_STATE_NOPOLLING = true)
    by (rewrite Hst; reflexivity).
  rewrite (dcb_set_state_nomutex_legal _ _ _ Hleg). rewrite Hst. simpl idempotent_transition.
  cbv iota.
  rewrite (bind_run _ _ _ _ _ (modify_run _ _ _ _ Hd)).
  simpl read_flag. simpl when.
  rewrite bind_bind. unfold emit at 1. unfold bind at 1.
  set (d1 := set_state DCB_STATE_NOPOLLING d).
  set (w1 := set_trace _ _).
  assert (Hd1 : heap w1 !! dcb = Some d1) by (simpl; apply lookup_insert_eq).
  rewrite (bind_run _ _ _ _ _ (modify_run _ _ _ _ Hd1)).
  set (d2 := set_bitmask (bitmask_copy poll_bitmask) d1).
  set (w2 := set_heap _ w1).
  assert (Hd2 : heap w2 !! dcb = Some d2) by (simpl; apply lookup_insert_eq).
  rewrite (bind_run _ _ _ _ _ (deref_run _ _ _ Hd2)).
  rewrite bool_decide_eq_true_2 by reflexivity. simpl when.
  assert (Hzl2 : zombie_list w2 l).
  { split; [|exact Hnd]. simpl. eapply lseg_frame; [|exact Hl].
    intros a _. destruct (decide (a = dcb)) as [->|Hne].
    - rewrite lookup_insert_eq, Hd. reflexivity.
    - rewrite !lookup_insert_ne by congruence. reflexivity. }
  destruct (dcb_add_to_zombieslist_run fuel dcb w2 l d2 Hzl2 Hd2 (fun _ => Hlink) Hfuel
              ltac:(discriminate)) as (w' & Hrun & Hzl' & Hstate & _ & Hag & Hall & Hses & Htr).
  exists w'. split; [exact Hrun|].
  rewrite decide_False in Hzl' by exact Hnin.
  split; [exact Hzl'|]. split; [exact Hstate|]. split.
  - destruct (agree_lookup _ _ _ _ _ Hag Hd2) as (d' & Hd' & E).
    unfold mask_of. rewrite Hd'. simpl. injection E as E _ _ _. rewrite E. reflexivity.
  - rewrite Htr, Hall, Hses. simpl. auto.
Qed.

(** A close of a DCB that is a zombie already, where the unassigned flag
    happens to read as false: nothing is done. *)
Lemma dcb_close_zombie_flag_false (fuel : nat) (poll_bitmask : N) (dcb : addr)
    (w : World) (d : DCB) :
  heap w !! dcb = Some d ->
  state d = DCB_STATE_ZOMBIE ->
  dcb_close fuel false poll_bitmask dcb w = Some (tt, w).
Proof.
  intros Hd Hst. unfold dcb_close. rewrite (bind_run _ _ _ _ _ (deref_run _ _ _ Hd)).
  assert (Hill : legal_transition (state d) DCB_STATE_NOPOLLING = false)
    by (rewrite Hst; reflexivity).
  rewrite (dcb_set_state_nomutex_illegal _ _ _ Hill).
  rewrite (bind_run _ _ _ _ _ (modify_run _ _ _ _ Hd)).
  rewrite insert_id by exact Hd. rewrite set_heap_same.
  simpl read_flag. simpl when. unfold ret at 1. unfold bind at 1.
  rewrite (bind_run _ _ _ _ _ (deref_run _ _ _ Hd)).
  rewrite bool_decide_eq_false_2 by (rewrite Hst; discriminate). reflexivity.
Qed.

(** The same close where the unassigned flag happens to read as true: the
    descriptor is removed from the poll set once more and the bitmask is
    overwritten with the threads running now. *)
Lemma dcb_close_zombie_flag_true (fuel : nat) (poll_bitmask : N) (dcb : addr)
    (w : World) (d : DCB) :
  heap w !! dcb = Some d ->
  state d = DCB_STATE_ZOMBIE ->
  dcb_close fuel true poll_bitmask dcb w =
    Some (tt, set_heap (<[dcb := set_bitmask poll_bitmask d]> (heap w))
                (set_trace (trace w ++ [E_poll_remove_dcb dcb]) w)).
Proof.
  intros Hd Hst. unfold dcb_close. rewrite (bind_run _ _ _ _ _ (deref_run _ _ _ Hd)).
  assert (Hill : legal_transition (state d) DCB_STATE_NOPOLLING = false)
    by (rewrite Hst; reflexivity).
  rewrite (dcb_set_state_nomutex_illegal _ _ _ Hill).
  rewrite (bind_run _ _ _ _ _ (modify_run _ _ _ _ Hd)).
  rewrite insert_id by exact Hd. rewrite set_heap_same.
  simpl read_flag. simpl when.
  rewrite bind_bind. unfold emit at 1. unfold bind at 1.
  assert (Hd1 : heap (set_trace (trace w ++ [E_poll_remove_dcb dcb]) w) !! dcb = Some d)
    by exact Hd.
  rewrite (bind_run _ _ _ _ _ (modify_run _ _ _ _ Hd1)).
  set (w2 := set_heap _ _).
  assert (Hd2 : heap w2 !! dcb = Some (set_bitmask (bitmask_copy poll_bitmask) d))
    by (simpl; apply lookup_insert_eq).
  rewrite (bind_run _ _ _ _ _ (deref_run _ _ _ Hd2)).
  rewrite bool_decide_eq_false_2 by (simpl; rewrite Hst; discriminate). reflexivity.
Qed.

(** C7: a polling DCB is closed twice, with polling threads 0, 1 and 2
    running.  The first close removes the descriptor from the poll set and
    makes the DCB a zombie.  The second close asks for ZOMBIE -> NOPOLLING,
    the flag comes back unassigned, and when it reads as true
    [poll_remove_dcb] is called a second time and the bitmask is copied
    again; only when it reads as false is the second close a no-op. *)
Theorem dcb_close_twice_removes_twice :
  exists w1 w2,
    dcb_close 1 true 7 1 (one_dcb_world DCB_STATE_POLLING) = Some (tt, w1) /\
    state_of w1 1 = Some DCB_STATE_ZOMBIE /\
    zombie_list w1 [1] /\
    calls (E_poll_remove_dcb 1) w1 = 1 /\
    snd (dcb_set_state_nomutex (set_state DCB_STATE_ZOMBIE (fresh_dcb 3))
           DCB_STATE_NOPOLLING true) = None /\
    dcb_close 1 true 7 1 w1 = Some (tt, w2) /\
    calls (E_poll_remove_dcb 1) w2 = 2 /\
    dcb_close 1 false 7 1 w1 = Some (tt, w1).
Proof.
  eexists _, _. split; [vm_compute; reflexivity|].
  split; [reflexivity|]. split.
  { split; [|apply NoDup_singleton]. apply lseg_cons. split; [reflexivity|].
    eexists. split; [reflexivity|]. reflexivity. }
  split; [reflexivity|]. split; [reflexivity|].
  split; [vm_compute; reflexivity|]. split; [reflexivity|].
  vm_compute. reflexivity.
Qed.

(** ** The registry *)

Ltac wsimpl :=
  cbn [heap allDCBs zombies sessions trace
       set_heap set_allDCBs set_zombies set_trace set_sessions] in *.

Lemma registry_last_run (w : World) (l : list addr) :
  forall (fuel : nat) (p : addr),
    lseg next (heap w) (Some p) None l ->
    length l <= fuel ->
    exists r, registry_last fuel p w = Some (r, w) /\ last l = Some r.
Proof.
  induction l as [|a l IH]; intros fuel p H Hf; [discriminate H|].
  apply lseg_cons in H as (E & d & Hd & Hl). injection E as ->.
  destruct fuel as [|fuel]; [simpl in Hf; lia|]. simpl in Hf.
  simpl. rewrite (bind_run _ _ _ _ _ (deref_run _ _ _ Hd)).
  destruct l as [|b l].
  - apply lseg_nil in Hl. rewrite Hl. exists a. split; reflexivity.
  - pose proof Hl as Hl'. apply lseg_cons in Hl' as (E & _). rewrite E. rewrite E in Hl.
    destruct (IH fuel b Hl ltac:(lia)) as (r & Hr & Hlast).
    exists r. split; [exact Hr|exact Hlast].
Qed.

Lemma filter_ne_notin (a : addr) (l : list addr) :
  a ∉ l -> filter (fun x => x <> a) l = l.
Proof.
  induction l as [|b l IH]; intros Hn; [reflexivity|].
  apply not_elem_of_cons in Hn as [Hne Hn].
  rewrite filter_cons_True by congruence. rewrite IH by exact Hn. reflexivity.
Qed.

Lemma filter_ne_middle (a : addr) (l1 l2 : list addr) :
  NoDup (l1 ++ a :: l2) -> filter (fun x => x <> a) (l1 ++ a :: l2) = l1 ++ l2.
Proof.
  intros Hnd. apply NoDup_app in Hnd as (_ & Hdisj & Hnd2).
  apply NoDup_cons in Hnd2 as [Hn2 _].
  rewrite filter_app, filter_cons_False by (intros H; apply H; reflexivity).
  rewrite !filter_ne_notin; [reflexivity|exact Hn2|].
  intros Hin. apply (Hdisj _ Hin). left.
Qed.

(** [dcb_alloc] links the new DCB behind the last one of the registry. *)
Lemma dcb_alloc_run (fuel : nat) (a : addr) (raw : DCB) (role : dcb_role_t)
    (w : World) (l : list addr) :
  registry w l ->
  a ∉ l ->
  length l <= fuel ->
  exists w',
    dcb_alloc fuel (Some (a, raw)) role w = Some (Some a, w') /\
    registry w' (l ++ [a]) /\
    heap w' !! a = Some (dcb_alloc_init role raw) /\
    (forall b, b <> a -> set_next None <$> heap w' !! b = set_next None <$> heap w !! b) /\
    zombies w' = zombies w /\ sessions w' = sessions w /\ trace w' = trace w.
Proof.
  intros [Hl Hnd] Hnin Hfuel. unfold dcb_alloc.
  unfold store, bind at 1. unfold read_allDCBs at 1. unfold bind at 1. cbn [allDCBs set_heap].
  set (d0 := dcb_alloc_init role raw).
  assert (Hfr : lseg next (<[a := d0]> (heap w)) (allDCBs w) None l).
  { eapply lseg_frame; [|exact Hl]. intros b Hb.
    rewrite lookup_insert_ne; [reflexivity|]. intros ->. contradiction. }
  destruct (allDCBs w) as [h0|] eqn:Hall.
  - destruct l as [|a0 l0]; [discriminate Hl|].
    set (w1 := set_heap _ w).
    destruct (registry_last_run w1 (a0 :: l0) fuel h0 Hfr Hfuel) as (r & Hr & Hlast).
    rewrite bind_bind, (bind_run _ _ _ _ _ Hr).
    apply last_Some in Hlast as (l1 & Hl1). rewrite Hl1 in *.
    apply lseg_snoc_inv in Hfr as (Hfr1 & dr & Hdr & Hrn).
    assert (Hra : r <> a).
    { intros ->. apply Hnin. apply elem_of_app. right. left. }
    change (heap w1 !! r = Some dr) in Hdr.
    rewrite (bind_run _ _ _ _ _ (modify_run _ _ _ _ Hdr)). cbn [heap w1 set_heap] in Hdr.
    eexists. split; [reflexivity|].
    apply NoDup_app in Hnd as (Hnd1 & Hdisj & _).
    apply not_elem_of_app in Hnin as [Hnin1 _].
    split; [split|]; subst w1; wsimpl.
    + rewrite Hall, <- app_assoc. apply lseg_app. exists (Some r). split.
      * eapply lseg_frame; [|exact Hfr1]. intros b Hb.
        rewrite lookup_insert_ne; [reflexivity|]. intros ->. apply (Hdisj _ Hb). left.
      * apply lseg_cons. split; [reflexivity|]. eexists. split; [apply lookup_insert_eq|].
        apply lseg_cons. split; [reflexivity|]. exists d0. split; [|reflexivity].
        rewrite lookup_insert_ne by exact Hra. apply lookup_insert_eq.
    + rewrite <- app_assoc. apply NoDup_app. split; [exact Hnd1|]. split.
      * intros x Hx Hx'. apply elem_of_cons in Hx' as [->|Hx'].
        -- apply (Hdisj _ Hx). left.
        -- apply list_elem_of_singleton in Hx'. subst x. contradiction.
      * apply NoDup_cons. split; [|apply NoDup_singleton].
        intros Hin. apply list_elem_of_singleton in Hin. contradiction.
    + split; [rewrite lookup_insert_ne by exact Hra; apply lookup_insert_eq|].
      split; [|auto]. intros b Hb.
      destruct (decide (b = r)) as [->|Hbr].
      * rewrite lookup_insert_eq. rewrite lookup_insert_ne in Hdr by congruence.
        rewrite Hdr. reflexivity.
      * rewrite !lookup_insert_ne by congruence. reflexivity.
  - destruct l as [|a0 l0]; [|apply lseg_cons in Hl as [? _]; discriminate].
    eexists. split; [reflexivity|].
    split; [split|]; wsimpl.
    + apply lseg_cons. split; [reflexivity|]. exists d0. split; [apply lookup_insert_eq|].
      reflexivity.
    + apply NoDup_singleton.
    + split; [apply lookup_insert_eq|]. split; [|auto].
      intros b Hb. rewrite lookup_insert_ne by congruence. reflexivity.
Qed.

(** The search for the predecessor of [dcb] in the registry. *)
Lemma registry_find_run (dcb : addr) (w : World) (l : list addr) :
  forall (fuel : nat) (p : option addr),
    lseg next (heap w) p None l ->
    length l < fuel ->
    p <> Some dcb ->
    exists r, registry_find fuel dcb p w = Some (r, w) /\
              (((dcb ∉ l) /\ r = None) \/
               (exists l1 q l2, l = l1 ++ q :: dcb :: l2 /\ r = Some q)).
Proof.
  induction l as [|a l IH]; intros fuel p H Hf Hp.
  - apply lseg_nil in H. subst p. destruct fuel as [|fuel]; [simpl in Hf; lia|].
    exists None. split; [reflexivity|]. left. split; [apply not_elem_of_nil|reflexivity].
  - apply lseg_cons in H as (-> & d & Hd & Hl).
    destruct fuel as [|fuel]; [simpl in Hf; lia|]. simpl in Hf.
    simpl. rewrite (bind_run _ _ _ _ _ (deref_run _ _ _ Hd)).
    destruct (decide (next d = Some dcb)) as [E|Hne].
    + exists (Some a). split; [reflexivity|]. right.
      rewrite E in Hl. destruct l as [|b l]; [discriminate Hl|].
      apply lseg_cons in Hl as (Eb & _). injection Eb as <-.
      exists [], a, l. split; reflexivity.
    + destruct (IH fuel (next d) Hl ltac:(lia) Hne) as (r & Hr & Hcase).
      exists r. split; [exact Hr|].
      destruct Hcase as [[Hnin ->]|(l1 & q & l2 & -> & ->)].
      * left. split; [|reflexivity]. apply not_elem_of_cons. split; [congruence|exact Hnin].
      * right. exists (a :: l1), q, l2. split; reflexivity.
Qed.

(** [dcb_final_free], first part: the DCB leaves the registry, and only
    [next] fields are written. *)
Lemma registry_unlink_run (fuel : nat) (dcb : addr) (w : World) (l : list addr) (d : DCB) :
  registry w l ->
  heap w !! dcb = Some d ->
  length l < fuel ->
  exists w',
    registry_unlink fuel dcb w = Some (tt, w') /\
    registry w' (filter (fun x => x <> dcb) l) /\
    agree (set_next None) (heap w) (heap w') /\
    zombies w' = zombies w /\ sessions w' = sessions w /\ trace w' = trace w.
Proof.
  intros [Hl Hnd] Hd Hfuel. unfold registry_unlink.
  rewrite (bind_run _ _ _ _ _ (deref_run _ _ _ Hd)).
  unfold read_allDCBs at 1. unfold bind at 1.
  destruct (decide (allDCBs w = Some dcb)) as [Hall|Hall].
  - rewrite Hall in Hl. destruct l as [|a l]; [discriminate Hl|].
    apply lseg_cons in Hl as (E & d' & Hd' & Hl). injection E as <-.
    rewrite Hd in Hd'. injection Hd' as <-.
    eexists. split; [reflexivity|]. unfold registry. wsimpl.
    apply NoDup_cons in Hnd as [Hnin Hnd].
    rewrite filter_cons_False by (intros H; apply H; reflexivity).
    rewrite filter_ne_notin by exact Hnin.
    split; [split; assumption|]. split; [apply agree_refl|auto].
  - destruct (registry_find_run dcb w l fuel (allDCBs w) Hl Hfuel Hall) as (r & Hr & Hcase).
    rewrite (bind_run _ _ _ _ _ Hr).
    destruct Hcase as [[Hnin ->]|(l1 & q & l2 & -> & ->)].
    + exists w. split; [reflexivity|]. rewrite filter_ne_notin by exact Hnin.
      split; [split; assumption|]. split; [apply agree_refl|auto].
    + apply lseg_app in Hl as (r & Hl1 & Hl2).
      apply lseg_cons in Hl2 as (-> & dq & Hdq & Hl2).
      apply lseg_cons in Hl2 as (Eq & d' & Hd' & Hl2).
      rewrite Hd in Hd'. injection Hd' as <-.
      rewrite (modify_run _ _ _ _ Hdq).
      eexists. split; [reflexivity|]. unfold registry. wsimpl.
      change (l1 ++ q :: dcb :: l2) with (l1 ++ [q] ++ dcb :: l2) in *.
      rewrite app_assoc in Hnd |- *.
      rewrite filter_ne_middle by exact Hnd.
      apply NoDup_app in Hnd as (Hnd1 & Hdisj & Hnd2).
      apply NoDup_cons in Hnd2 as [Hnin2 Hnd2].
      apply NoDup_app in Hnd1 as (Hnd1 & Hdisj1 & _).
      split; [split|].
      * rewrite <- app_assoc. apply lseg_app. exists (Some q). split.
        -- eapply lseg_frame; [|exact Hl1]. intros b Hb.
           rewrite lookup_insert_ne; [reflexivity|]. intros ->. apply (Hdisj1 _ Hb). left.
        -- apply lseg_cons. split; [reflexivity|]. eexists. split; [apply lookup_insert_eq|].
           simpl next. eapply lseg_frame; [|exact Hl2]. intros b Hb.
           rewrite lookup_insert_ne; [reflexivity|]. intros Eb. subst b.
           apply (Hdisj q); [apply elem_of_app; right; left|right; exact Hb].
      * apply NoDup_app. split; [apply NoDup_app; split; [exact Hnd1|]; split;
          [exact Hdisj1|apply NoDup_singleton]|].
        split; [|exact Hnd2]. intros x Hx Hx'. apply (Hdisj _ Hx). right. exact Hx'.
      * split; [|auto]. apply (agree_insert _ _ _ _ _ Hdq). reflexivity.
Qed.

(** ** dcb_final_free *)

Lemma frees_run (p1 p2 p3 : option nat) (e1 e2 : event) (w : World) :
  (free_if_set p1 ;;; free_if_set p2 ;;; free_if_set p3 ;;; emit e1 ;;; emit e2) w =
    Some (tt, set_trace (trace w ++ match p1 with Some b => [E_free b] | None => [] end
                                 ++ match p2 with Some b => [E_free b] | None => [] end
                                 ++ match p3 with Some b => [E_free b] | None => [] end
                                 ++ [e1] ++ [e2]) w).
Proof.
  destruct w, p1, p2, p3; unfold bind, free_if_set, emit, ret, set_trace; simpl;
    rewrite <- ?app_assoc; reflexivity.
Qed.

(** The router session is closed at most once, and only the session store and
    the trace change. *)
Lemma terminate_router_session_run (dcb : addr) (w : World) (d : DCB) :
  heap w !! dcb = Some d ->
  (forall s, session d = Some s -> is_Some (sessions w !! s)) ->
  exists w' evs,
    terminate_router_session dcb w = Some (tt, w') /\
    heap w' = heap w /\ allDCBs w' = allDCBs w /\ zombies w' = zombies w /\
    trace w' = trace w ++ evs /\
    Forall (fun e => teardown_event e = true) evs /\
    (forall s, is_Some (sessions w !! s) -> is_Some (sessions w' !! s)).
Proof.
  intros Hd Hs. unfold terminate_router_session.
  rewrite (bind_run _ _ _ _ _ (deref_run _ _ _ Hd)).
  assert (Hnone : exists w' evs, ret tt w = Some (tt, w') /\
    heap w' = heap w /\ allDCBs w' = allDCBs w /\ zombies w' = zombies w /\
    trace w' = trace w ++ evs /\
    Forall (fun e => teardown_event e = true) evs /\
    (forall s, is_Some (sessions w !! s) -> is_Some (sessions w' !! s))).
  { exists w, []. rewrite app_nil_r. repeat split; auto. }
  destruct (session d) as [s|]; [|exact Hnone].
  destruct (Hs s eq_refl) as [ses Hses].
  unfold deref_session at 1. unfold bind at 1. rewrite Hses.
  destruct (service ses) as [svc|]; [|exact Hnone].
  destruct (router svc) as [r|]; [|exact Hnone].
  destruct (router_session ses) as [rs|]; [|exact Hnone].
  unfold modify_session at 1. unfold bind at 1. rewrite Hses.
  eexists _, [E_closeSession r (router_instance svc) rs]. split; [reflexivity|]. wsimpl.
  split; [reflexivity|]. split; [reflexivity|]. split; [reflexivity|].
  split; [reflexivity|]. split; [repeat constructor|].
  intros s' [x Hx]. destruct (decide (s' = s)) as [->|Hne].
  - rewrite lookup_insert_eq. eauto.
  - rewrite lookup_insert_ne by congruence. eauto.
Qed.

Lemma sessions_present_lookup (w : World) (dcb : addr) (d : DCB) :
  sessions_present w -> heap w !! dcb = Some d ->
  forall s, session d = Some s -> is_Some (sessions w !! s).
Proof. intros H Hd s Hs. exact (H dcb d s Hd Hs). Qed.

(** Final free: the DCB leaves the registry, the teardown calls are made and
    the block is released last.  State, [memdata] and descriptor of every DCB
    are as before. *)
Lemma dcb_final_free_run (fuel : nat) (dcb : addr) (w : World) (l : list addr) (d : DCB) :
  registry w l ->
  heap w !! dcb = Some d ->
  sessions_present w ->
  length l < fuel ->
  exists w' evs,
    dcb_final_free fuel dcb w = Some (tt, w') /\
    registry w' (filter (fun x => x <> dcb) l) /\
    agree (fun x => (state x, memdata x, fd x)) (heap w) (heap w') /\
    zombies w' = zombies w /\
    trace w' = trace w ++ evs ++ [E_free_dcb dcb] /\
    Forall (fun e => teardown_event e = true) evs /\
    sessions_present w'.
Proof.
  intros Hreg Hd Hsp Hfuel. unfold dcb_final_free.
  destruct (registry_unlink_run fuel dcb w l d Hreg Hd Hfuel)
    as (w1 & Hrun1 & Hreg1 & Hag1 & Hz1 & Hs1 & Ht1).
  rewrite (bind_run _ _ _ _ _ Hrun1).
  destruct (agree_lookup _ _ _ _ _ Hag1 Hd) as (d1 & Hd1 & Ed1).
  assert (Hses1 : session d1 = session d).
  { change (session (set_next None d1) = session (set_next None d)). rewrite Ed1. reflexivity. }
  assert (Hsp1 : sessions_present w1).
  { intros a x s Hx Hxs. rewrite Hs1.
    destruct (agree_lookup _ _ _ _ _ (agree_sym _ _ _ Hag1) Hx) as (x0 & Hx0 & Ex).
    apply (Hsp a x0 s Hx0).
    change (session (set_next None x0) = Some s). rewrite Ex. exact Hxs. }
  destruct (terminate_router_session_run dcb w1 d1 Hd1 (sessions_present_lookup _ _ _ Hsp1 Hd1))
    as (w2 & evs2 & Hrun2 & Hh2 & Ha2 & Hz2 & Ht2 & Hev2 & Hs2).
  rewrite (bind_run _ _ _ _ _ Hrun2).
  assert (Hd2 : heap w2 !! dcb = Some d1) by (rewrite Hh2; exact Hd1).
  rewrite (bind_run _ _ _ _ _ (deref_run _ _ _ Hd2)).
  assert (Hag : forall h', agree (fun x => (state x, memdata x, fd x)) (heap w2) h' ->
                           agree (fun x => (state x, memdata x, fd x)) (heap w) h').
  { intros h' H. eapply agree_trans; [|exact H]. rewrite Hh2.
    eapply (agree_weaken (set_next None) _ (fun x => (state x, memdata x, fd x))); [|exact Hag1].
    intros x. reflexivity. }
  assert (Hreg2 : forall h', agree next (heap w2) h' ->
            lseg next h' (allDCBs w2) None (filter (fun x => x <> dcb) l)).
  { intros h' H. destruct Hreg1 as [Hl1 _]. rewrite Ha2, Hh2 in *.
    eapply lseg_frame; [|exact Hl1]. intros a _. apply H. }
  set (evs3 := match session d1 with Some ls => [E_session_free ls] | None => [] end).
  set (tail := evs3 ++ match protocol d1 with Some b => [E_free b] | None => [] end
                    ++ match data d1 with Some b => [E_free b] | None => [] end
                    ++ match remote d1 with Some b => [E_free b] | None => [] end
                    ++ [E_bitmask_free dcb]).
  assert (Htail : Forall (fun e => teardown_event e = true) (evs2 ++ tail)).
  { apply Forall_app. split; [exact Hev2|]. unfold tail, evs3.
    destruct (session d1), (protocol d1), (data d1), (remote d1); repeat constructor. }
  destruct (session d1) as [ls|] eqn:Hls.
  - rewrite bind_bind, (bind_run _ _ _ _ _ (modify_run _ _ _ _ Hd2)).
    unfold emit at 1. unfold bind at 1. rewrite frees_run.
    eexists _, (evs2 ++ tail). split; [reflexivity|]. unfold registry. wsimpl.
    split; [split; [apply Hreg2; apply (agree_insert _ _ _ _ _ Hd2); reflexivity
                   |exact (proj2 Hreg1)]|].
    split; [apply Hag; apply (agree_insert _ _ _ _ _ Hd2); reflexivity|].
    split; [congruence|]. split.
    { rewrite Ht2, Ht1. unfold tail, evs3. rewrite <- !app_assoc. reflexivity. }
    split; [exact Htail|].
    intros a x s Hx Hxs. wsimpl. apply Hs2.
    destruct (decide (a = dcb)) as [->|Hne].
    + rewrite lookup_insert_eq in Hx. injection Hx as <-. discriminate Hxs.
    + rewrite lookup_insert_ne in Hx by congruence. rewrite Hh2 in Hx.
      exact (Hsp1 a x s Hx Hxs).
  - unfold ret at 1. unfold bind at 1. rewrite frees_run.
    eexists _, (evs2 ++ tail). split; [reflexivity|]. unfold registry. wsimpl.
    split; [split; [apply Hreg2; apply agree_refl|exact (proj2 Hreg1)]|].
    split; [apply Hag; apply agree_refl|].
    split; [congruence|]. split.
    { rewrite Ht2, Ht1. unfold tail, evs3. rewrite <- !app_assoc. reflexivity. }
    split; [exact Htail|].
    intros a x s Hx Hxs. wsimpl. apply Hs2. rewrite Hh2 in Hx.
    exact (Hsp1 a x s Hx Hxs).
Qed.

(** [free(dcb)] is the last call of [dcb_final_free]: whatever is read from
    the DCB afterwards, as the victim loop of [dcb_process_zombies] does with
    [memdata.next], is read from a released block. *)
Lemma dcb_final_free_releases_last (fuel : nat) (dcb : addr) (w : World) (l : list addr)
    (d : DCB) :
  registry w l ->
  heap w !! dcb = Some d ->
  sessions_present w ->
  length l < fuel ->
  exists w',
    dcb_final_free fuel dcb w = Some (tt, w') /\
    last (trace w') = Some (E_free_dcb dcb) /\
    zombie_link <$> heap w' !! dcb = Some (zombie_link d).
Proof.
  intros Hreg Hd Hsp Hfuel.
  destruct (dcb_final_free_run fuel dcb w l d Hreg Hd Hsp Hfuel)
    as (w' & evs & Hrun & _ & Hag & _ & Ht & _).
  exists w'. split; [exact Hrun|]. split.
  - rewrite Ht, !app_assoc. apply last_snoc.
  - destruct (agree_lookup _ _ _ _ _ Hag Hd) as (d' & Hd' & E).
    rewrite Hd'. simpl. injection E as _ E _. unfold zombie_link. rewrite E. reflexivity.
Qed.

(** ** dcb_connect *)

Lemma registry_agree (w w' : World) (l : list addr) :
  registry w l -> agree next (heap w) (heap w') -> allDCBs w' = allDCBs w -> registry w' l.
Proof.
  intros [Hl Hnd] Hag Hall. split; [|exact Hnd]. rewrite Hall.
  eapply lseg_frame; [|exact Hl]. intros a _. apply Hag.
Qed.

Lemma zombie_list_agree (w w' : World) (l : list addr) :
  zombie_list w l -> agree zombie_link (heap w) (heap w') -> zombies w' = zombies w ->
  zombie_list w' l.
Proof.
  intros [Hl Hnd] Hag Hz. split; [|exact Hnd]. rewrite Hz.
  eapply lseg_frame; [|exact Hl]. intros a _. apply Hag.
Qed.

Lemma count_occ_teardown (evs : list event) (e : event) :
  Forall (fun x => teardown_event x = true) evs ->
  teardown_event e = false ->
  count_occ event_eq_dec evs e = 0.
Proof.
  intros H He. induction H as [|x evs Hx _ IH]; [reflexivity|].
  rewrite count_occ_cons_neq; [exact IH|]. intros ->. congruence.
Qed.

Lemma count_occ_one (x e : event) :
  count_occ event_eq_dec [x] e = if decide (x = e) then 1 else 0.
Proof.
  destruct (decide (x = e)) as [E|Hne].
  - rewrite count_occ_cons_eq by exact E. reflexivity.
  - rewrite count_occ_cons_neq by exact Hne. reflexivity.
Qed.

Lemma calls_final_free (w w' : World) (evs : list event) (dcb a : addr) :
  trace w' = trace w ++ evs ++ [E_free_dcb dcb] ->
  Forall (fun x => teardown_event x = true) evs ->
  calls (E_free_dcb a) w' = calls (E_free_dcb a) w + (if decide (a = dcb) then 1 else 0).
Proof.
  intros Ht Hev. unfold calls. rewrite Ht, !count_occ_app.
  rewrite (count_occ_teardown _ _ Hev) by reflexivity. rewrite count_occ_one.
  destruct (decide (a = dcb)) as [Ea|Hne'];
    destruct (decide (E_free_dcb dcb = E_free_dcb a)) as [E|Hne];
    try (exfalso; congruence); lia.
Qed.


Lemma filter_ne_snoc (a : addr) (l : list addr) :
  a ∉ l -> filter (fun x => x <> a) (l ++ [a]) = l.
Proof.
  intros Hn. rewrite filter_app, filter_ne_notin by exact Hn.
  rewrite filter_cons_False by (intros H; apply H; reflexivity).
  rewrite filter_nil. apply app_nil_r.
Qed.

(** What a failing [dcb_connect] leaves behind once the DCB at [a] is set up
    as [d]: the DCB is finally freed, and the registry is the one from before
    the allocation. *)
Lemma connect_give_up (fuel : nat) (a : addr) (d : DCB) (w w0 : World) (l : list addr) :
  registry w (l ++ [a]) ->
  a ∉ l ->
  heap w !! a = Some d ->
  sessions_present w ->
  S (length l) < fuel ->
  zombies w = zombies w0 ->
  trace w = trace w0 ->
  exists w',
    (dcb_final_free fuel a ;;; ret (@None addr)) w = Some (None, w') /\
    registry w' l /\ zombies w' = zombies w0 /\
    state_of w' a = Some (state d) /\
    forall b, calls (E_free_dcb b) w' =
              calls (E_free_dcb b) w0 + (if decide (b = a) then 1 else 0).
Proof.
  intros Hreg Hnin Hd Hsp Hfuel Hz Ht.
  destruct (dcb_final_free_run fuel a w (l ++ [a]) d Hreg Hd Hsp)
    as (w' & evs & Hrun & Hreg' & Hag & Hz' & Ht' & Hev & _).
  { rewrite length_app. simpl. lia. }
  rewrite (bind_run _ _ _ _ _ Hrun). exists w'. split; [reflexivity|].
  rewrite filter_ne_snoc in Hreg' by exact Hnin.
  split; [exact Hreg'|]. split; [congruence|]. split.
  - destruct (agree_lookup _ _ _ _ _ Hag Hd) as (d' & Hd' & E).
    unfold state_of. rewrite Hd'. simpl. injection E as E _ _. rewrite E. reflexivity.
  - intros b. rewrite (calls_final_free _ _ _ _ b Ht' Hev). unfold calls. rewrite Ht.
    reflexivity.
Qed.

(** C9: [dcb_connect] returns NULL when no DCB can be allocated, and leaves
    the world as it was.  When the protocol module is not found, or the DCB
    cannot be linked to the session, the freshly allocated DCB is finally
    freed (in state ALLOC) and NULL is returned; when the protocol's connect
    yields no descriptor the DCB is moved to DISCONNECTED, finally freed, and
    NULL is returned.  In each case the DCB is freed once and the registry
    holds the DCBs it held before the call. *)
Theorem dcb_connect_failure (fuel : nat) (a : addr) (raw : DCB)
    (load_module session_link_dcb : bool) (connect : Z) (server : nat) (session1 : saddr)
    (w : World) (l : list addr) :
  registry w l ->
  a ∉ l ->
  sessions_present w ->
  is_Some (sessions w !! session1) ->
  S (length l) < fuel ->
  dcb_connect fuel None load_module session_link_dcb connect server session1 w
    = Some (None, w) /\
  (connect_fails load_module session_link_dcb connect ->
   exists w',
     dcb_connect fuel (Some (a, raw)) load_module session_link_dcb connect server session1 w
       = Some (None, w') /\
     registry w' l /\
     zombies w' = zombies w /\
     state_of w' a =
       Some (if load_module && session_link_dcb
             then DCB_STATE_DISCONNECTED else DCB_STATE_ALLOC) /\
     forall b, calls (E_free_dcb b) w' =
               calls (E_free_dcb b) w + (if decide (b = a) then 1 else 0)).
Proof.
  intros Hreg Hnin Hsp Hses Hfuel. split; [reflexivity|]. intros Hfail.
  unfold dcb_connect.
  destruct (dcb_alloc_run fuel a raw DCB_ROLE_REQUEST_HANDLER w l Hreg Hnin ltac:(lia))
    as (w1 & Hrun1 & Hreg1 & Ha1 & Hfr1 & Hz1 & Hs1 & Ht1).
  rewrite (bind_run _ _ _ _ _ Hrun1).
  assert (Hsp1 : sessions_present w1).
  { intros b x s Hx Hxs. rewrite Hs1. destruct (decide (b = a)) as [->|Hne].
    - rewrite Ha1 in Hx. injection Hx as <-. discriminate Hxs.
    - specialize (Hfr1 b Hne). rewrite Hx in Hfr1.
      destruct (heap w !! b) as [x0|] eqn:Hx0; [|discriminate].
      apply (Hsp b x0 s Hx0).
      assert (Es : Some (session x) = Some (session x0)).
      { change (session <$> (set_next None <$> Some x)
                = session <$> (set_next None <$> Some x0)).
        rewrite Hfr1. reflexivity. }
      congruence. }
  destruct load_module; cbn [negb andb];
    [|exact (connect_give_up fuel a _ w1 w l Hreg1 Hnin Ha1 Hsp1 Hfuel Hz1 Ht1)].
  destruct session_link_dcb; cbn [negb andb];
    [|exact (connect_give_up fuel a _ w1 w l Hreg1 Hnin Ha1 Hsp1 Hfuel Hz1 Ht1)].
  destruct Hfail as [Hf|[Hf|Hf]]; [discriminate Hf|discriminate Hf|]. subst connect.
  rewrite (bind_run _ _ _ _ _ (modify_run _ _ _ _ Ha1)).
  set (d2 := set_session (Some session1) (dcb_alloc_init DCB_ROLE_REQUEST_HANDLER raw)).
  set (w2 := set_heap _ w1).
  assert (Ha2 : heap w2 !! a = Some d2) by apply lookup_insert_eq.
  assert (Hconn : protocol_connect a (-1) w2 = Some ((-1)%Z, w2)) by reflexivity.
  rewrite (bind_run _ _ _ _ _ Hconn).
  rewrite (bind_run _ _ _ _ _ (modify_run _ _ _ _ Ha2)).
  set (d3 := set_fd (-1) d2). set (w3 := set_heap _ w2).
  assert (Ha3 : heap w3 !! a = Some d3) by apply lookup_insert_eq.
  change ((-1 =? -1)%Z) with true. cbv iota.
  rewrite (bind_run _ _ _ _ _ (dcb_set_state_run _ _ _ _ _ Ha3)).
  set (w4 := set_heap _ w3).
  assert (Ha4 : heap w4 !! a = Some (set_state DCB_STATE_DISCONNECTED d3))
    by apply lookup_insert_eq.
  assert (Hag : agree next (heap w1) (heap w4)).
  { eapply agree_trans; [apply (agree_insert next _ _ _ d2 Ha1); reflexivity|].
    eapply agree_trans; [apply (agree_insert next _ _ _ d3 Ha2); reflexivity|].
    apply (agree_insert next _ _ _ _ Ha3). reflexivity. }
  assert (Hreg4 : registry w4 (l ++ [a])) by (exact (registry_agree _ _ _ Hreg1 Hag eq_refl)).
  assert (Hsp4 : sessions_present w4).
  { intros b x s Hx Hxs. change (sessions w4) with (sessions w1). rewrite Hs1 in *.
    destruct (decide (b = a)) as [->|Hne].
    - rewrite Ha4 in Hx. injection Hx as <-. simpl in Hxs. injection Hxs as <-. exact Hses.
    - unfold w4, w3, w2 in Hx. wsimpl. rewrite !lookup_insert_ne in Hx by congruence.
      rewrite <- Hs1. exact (Hsp1 b x s Hx Hxs). }
  exact (connect_give_up fuel a _ w4 w l Hreg4 Hnin Ha4 Hsp4 Hfuel Hz1 Ht1).
Qed.

(** ** dcb_process_zombies: the scan *)

(** The predecessor of the cursor is made to point past the victim. *)
Lemma scan_unlink (w : World) (K : list addr) (q q' : option addr) :
  lseg zombie_link (heap w) (zombies w) q K ->
  NoDup K ->
  exists w2,
    match last K with
    | None => write_zombies q'
    | Some l => modify l (set_mm_next q')
    end w = Some (tt, w2) /\
    lseg zombie_link (heap w2) (zombies w2) q' K /\
    (forall a, a ∉ K -> heap w2 !! a = heap w !! a) /\
    agree forget_link (heap w) (heap w2) /\
    allDCBs w2 = allDCBs w /\ sessions w2 = sessions w /\ trace w2 = trace w.
Proof.
  intros Hl Hnd. destruct (last K) as [lp|] eqn:HL.
  - apply last_Some in HL as (K0 & ->).
    apply lseg_snoc_inv in Hl as (Hl0 & dlp & Hdlp & _).
    rewrite (modify_run _ _ _ _ Hdlp). eexists. split; [reflexivity|]. wsimpl.
    apply NoDup_app in Hnd as (_ & Hdisj & _).
    split; [|split; [|split; [|auto]]].
    + eapply lseg_snoc; [|apply lookup_insert_eq|reflexivity].
      eapply lseg_frame; [|exact Hl0]. intros a Ha.
      rewrite lookup_insert_ne; [reflexivity|]. intros Ea. subst a.
      apply (Hdisj _ Ha). left.
    + intros a Ha. rewrite lookup_insert_ne; [reflexivity|]. intros Ea. subst a.
      apply Ha. apply elem_of_app. right. left.
    + apply (agree_insert _ _ _ _ _ Hdlp). reflexivity.
  - apply last_None in HL. subst K. apply lseg_nil in Hl.
    eexists. split; [reflexivity|]. wsimpl.
    split; [apply lseg_nil; reflexivity|]. split; [auto|]. split; [apply agree_refl|auto].
Qed.

(** The victim is linked behind the last victim, if there is one. *)
Lemma scan_append (w : World) (V : list addr) (dcb_list : option addr) (p : addr) :
  lseg zombie_link (heap w) dcb_list None V ->
  NoDup V ->
  exists w3,
    match dcb_list, last V with
    | None, _ => ret tt
    | Some _, Some v => modify v (set_mm_next (Some p))
    | Some _, None => fail
    end w = Some (tt, w3) /\
    lseg zombie_link (heap w3)
      (match dcb_list with None => Some p | Some _ => dcb_list end) (Some p) V /\
    (forall a, a ∉ V -> heap w3 !! a = heap w !! a) /\
    agree forget_link (heap w) (heap w3) /\
    zombies w3 = zombies w /\
    allDCBs w3 = allDCBs w /\ sessions w3 = sessions w /\ trace w3 = trace w.
Proof.
  intros Hl Hnd. destruct dcb_list as [x|].
  - destruct (last V) as [v|] eqn:HL.
    + apply last_Some in HL as (V0 & ->).
      apply lseg_snoc_inv in Hl as (Hl0 & dv & Hdv & _).
      rewrite (modify_run _ _ _ _ Hdv). eexists. split; [reflexivity|]. wsimpl.
      apply NoDup_app in Hnd as (_ & Hdisj & _).
      split; [|split; [|split; [|auto]]].
      * eapply lseg_snoc; [|apply lookup_insert_eq|reflexivity].
        eapply lseg_frame; [|exact Hl0]. intros a Ha.
        rewrite lookup_insert_ne; [reflexivity|]. intros Ea. subst a.
        apply (Hdisj _ Ha). left.
      * intros a Ha. rewrite lookup_insert_ne; [reflexivity|]. intros Ea. subst a.
        apply Ha. apply elem_of_app. right. left.
      * apply (agree_insert _ _ _ _ _ Hdv). reflexivity.
    + apply last_None in HL. subst V. apply lseg_nil in Hl. discriminate Hl.
  - destruct V as [|v V]; [|apply lseg_cons in Hl as [? _]; discriminate].
    exists w. split; [reflexivity|]. split; [apply lseg_nil; reflexivity|].
    split; [auto|]. split; [apply agree_refl|auto].
Qed.

Lemma lseg_frame_eq (nxt : DCB -> option addr) (h h' : gmap addr DCB) (l : list addr)
    (p q : option addr) :
  (forall a, a ∈ l -> h' !! a = h !! a) ->
  lseg nxt h p q l -> lseg nxt h' p q l.
Proof. intros H. apply lseg_frame. intros a Ha. rewrite (H a Ha). reflexivity. Qed.

Lemma agree_forget_link_memdata (h h' : gmap addr DCB) :
  agree forget_link h h' -> agree forget_memdata h h'.
Proof. apply (agree_weaken forget_link forget_memdata forget_memdata). reflexivity. Qed.

Lemma agree_forget_link_mask (h h' : gmap addr DCB) :
  agree forget_link h h' -> agree (fun d => bitmask (memdata d)) h h'.
Proof.
  apply (agree_weaken forget_link _ (fun d => bitmask (memdata d))). reflexivity.
Qed.

(** The scan, from any point of the walk: [K] are the DCBs kept so far, [V]
    the victims so far, [R] the part of the zombie list still ahead, whose
    DCBs are as in the heap [h0] the scan started from. *)
Lemma zombies_scan_run (threadid : N) (h0 : gmap addr DCB) (R : list addr) :
  forall (fuel : nat) (w : World) (K V : list addr) (ptr dcb_list : option addr),
    NoDup (K ++ V ++ R) ->
    lseg zombie_link (heap w) (zombies w) ptr K ->
    lseg zombie_link (heap w) ptr None R ->
    lseg zombie_link (heap w) dcb_list None V ->
    (forall a, a ∈ R -> heap w !! a = h0 !! a) ->
    length R < fuel ->
    exists w' dcb_list',
      zombies_scan fuel threadid ptr (last K) dcb_list (last V) w = Some (dcb_list', w') /\
      lseg zombie_link (heap w') (zombies w') None (K ++ survivors h0 threadid R) /\
      lseg zombie_link (heap w') dcb_list' None (V ++ victims h0 threadid R) /\
      (forall a, a ∈ R ->
         mask_of w' a = (fun d => bitmask_clear (bitmask (memdata d)) threadid) <$> h0 !! a) /\
      (forall a, a ∉ R -> mask_of w' a = mask_of w a) /\
      agree forget_memdata (heap w) (heap w') /\
      allDCBs w' = allDCBs w /\ sessions w' = sessions w /\ trace w' = trace w.
Proof.
  induction R as [|p R IH]; intros fuel w K V ptr dcb_list Hnd HK HR HV Hh0 Hfuel.
  - apply lseg_nil in HR. subst ptr.
    destruct fuel as [|fuel]; [simpl in Hfuel; lia|].
    exists w, dcb_list. split; [reflexivity|].
    unfold survivors, victims. rewrite !filter_nil, !app_nil_r.
    split; [exact HK|]. split; [exact HV|]. split; [intros a Ha; inversion Ha|].
    split; [reflexivity|]. split; [apply agree_refl|auto].
  - apply lseg_cons in HR as (-> & d0 & Hd0 & HR).
    destruct fuel as [|fuel]; [simpl in Hfuel; lia|]. simpl in Hfuel.
    (* what the list being free of duplicates gives *)
    assert (HndK : NoDup K) by (apply NoDup_app in Hnd; tauto).
    assert (HndV : NoDup V).
    { apply NoDup_app in Hnd as (_ & _ & H). apply NoDup_app in H. tauto. }
    assert (HpK : p ∉ K).
    { intros Hin. apply NoDup_app in Hnd as (_ & H & _). apply (H _ Hin).
      apply elem_of_app. right. left. }
    assert (HpV : p ∉ V).
    { intros Hin. apply NoDup_app in Hnd as (_ & _ & H). apply NoDup_app in H as (_ & H & _).
      apply (H _ Hin). left. }
    assert (HpR : p ∉ R).
    { apply NoDup_app in Hnd as (_ & _ & H). apply NoDup_app in H as (_ & _ & H).
      apply NoDup_cons in H. tauto. }
    assert (HKV : forall a, a ∈ K -> a ∉ V).
    { intros a Ha Hin. apply NoDup_app in Hnd as (_ & H & _). apply (H _ Ha).
      apply elem_of_app. left. exact Hin. }
    assert (HKR : forall a, a ∈ R -> a ∉ K).
    { intros a Ha Hin. apply NoDup_app in Hnd as (_ & H & _). apply (H _ Hin).
      apply elem_of_app. right. right. exact Ha. }
    assert (HVR : forall a, a ∈ R -> a ∉ V).
    { intros a Ha Hin. apply NoDup_app in Hnd as (_ & _ & H).
      apply NoDup_app in H as (_ & H & _). apply (H _ Hin). right. exact Ha. }
    (* the bit is cleared *)
    simpl zombies_scan.
    rewrite (bind_run _ _ _ _ _ (modify_run _ _ _ _ Hd0)).
    set (d1 := clear_thread threadid d0). set (w1 := set_heap _ w).
    assert (Hd1 : heap w1 !! p = Some d1) by apply lookup_insert_eq.
    assert (Hw1 : forall a, a <> p -> heap w1 !! a = heap w !! a).
    { intros a Ha. apply lookup_insert_ne. congruence. }
    rewrite (bind_run _ _ _ _ _ (deref_run _ _ _ Hd1)).
    assert (Hreap : reaped h0 threadid p = bitmask_isallclear (bitmask (memdata d1))).
    { unfold reaped. rewrite <- (Hh0 p) by left. rewrite Hd0. reflexivity. }
    assert (HK1 : lseg zombie_link (heap w1) (zombies w1) (Some p) K).
    { eapply lseg_frame_eq; [|exact HK]. intros a Ha. apply Hw1. intros ->. contradiction. }
    assert (HR1 : lseg zombie_link (heap w1) (zombie_link d0) None R).
    { eapply lseg_frame_eq; [|exact HR]. intros a Ha. apply Hw1. intros ->. contradiction. }
    assert (HV1 : lseg zombie_link (heap w1) dcb_list None V).
    { eapply lseg_frame_eq; [|exact HV]. intros a Ha. apply Hw1. intros ->. contradiction. }
    assert (Hag1 : agree forget_memdata (heap w) (heap w1)).
    { apply (agree_insert _ _ _ _ _ Hd0). reflexivity. }
    destruct (bitmask_isallclear (bitmask (memdata d1))) eqn:Hclear.
    + (* the DCB at p is a victim *)
      change (mm_next (memdata d1)) with (zombie_link d0).
      destruct (scan_unlink w1 K (Some p) (zombie_link d0) HK1 HndK)
        as (w2 & Hrun2 & HK2 & Hw2 & Hag2 & Ha2 & Hs2 & Ht2).
      rewrite (bind_run _ _ _ _ _ Hrun2).
      assert (HV2 : lseg zombie_link (heap w2) dcb_list None V).
      { eapply lseg_frame_eq; [|exact HV1]. intros a Ha. apply Hw2.
        intros Hin. exact (HKV a Hin Ha). }
      destruct (scan_append w2 V dcb_list p HV2 HndV)
        as (w3 & Hrun3 & HV3 & Hw3 & Hag3 & Hz3 & Ha3 & Hs3 & Ht3).
      rewrite (bind_run _ _ _ _ _ Hrun3).
      assert (Hd3 : heap w3 !! p = Some d1).
      { rewrite (Hw3 p HpV), (Hw2 p HpK). exact Hd1. }
      rewrite (bind_run _ _ _ _ _ (modify_run _ _ _ _ Hd3)).
      set (w4 := set_heap _ w3).
      assert (Hw4 : forall a, a <> p -> heap w4 !! a = heap w3 !! a).
      { intros a Ha. apply lookup_insert_ne. congruence. }
      assert (Hnd4 : NoDup (K ++ (V ++ [p]) ++ R)).
      { assert (Hp : K ++ (V ++ [p]) ++ R ≡ₚ K ++ V ++ p :: R) by solve_Permutation.
        rewrite Hp. exact Hnd. }
      assert (HK4 : lseg zombie_link (heap w4) (zombies w4) (zombie_link d0) K).
      { change (zombies w4) with (zombies w3). rewrite Hz3.
        eapply lseg_frame_eq; [|exact HK2]. intros a Ha.
        rewrite Hw4 by (intros ->; contradiction). apply Hw3. exact (HKV a Ha). }
      assert (HR4 : lseg zombie_link (heap w4) (zombie_link d0) None R).
      { eapply lseg_frame_eq; [|exact HR1]. intros a Ha.
        rewrite Hw4 by (intros ->; contradiction).
        rewrite (Hw3 a (HVR a Ha)). apply Hw2. exact (HKR a Ha). }
      assert (HV4 : lseg zombie_link (heap w4)
                      (match dcb_list with None => Some p | Some _ => dcb_list end)
                      None (V ++ [p])).
      { eapply lseg_snoc; [|apply lookup_insert_eq|reflexivity].
        eapply lseg_frame_eq; [|exact HV3]. intros a Ha. apply Hw4. intros ->. contradiction. }
      assert (Hh4 : forall a, a ∈ R -> heap w4 !! a = h0 !! a).
      { intros a Ha. rewrite Hw4 by (intros ->; contradiction).
        rewrite (Hw3 a (HVR a Ha)), (Hw2 a (HKR a Ha)).
        rewrite Hw1 by (intros ->; contradiction). apply Hh0. right. exact Ha. }
      destruct (IH fuel w4 K (V ++ [p]) (zombie_link d0) _ Hnd4 HK4 HR4 HV4 Hh4 ltac:(lia))
        as (w' & dl' & Hrun & HKf & HVf & Hmf & Hnf & Hagf & Haf & Hsf & Htf).
      rewrite last_snoc in Hrun. exists w', dl'. split; [exact Hrun|].
      unfold survivors, victims in *.
      rewrite filter_cons_False by (rewrite Hreap; discriminate).
      rewrite filter_cons_True by exact Hreap.
      rewrite <- app_assoc in HVf.
      split; [exact HKf|]. split; [exact HVf|].
      assert (Hm4 : mask_of w4 p = Some (bitmask_clear (bitmask (memdata d0)) threadid)).
      { unfold mask_of. change (heap w4 !! p) with (<[p := set_mm_next None d1]> (heap w3) !! p).
        rewrite lookup_insert_eq. reflexivity. }
      assert (Hagm : forall a, a <> p -> mask_of w4 a = mask_of w a).
      { intros a Ha. unfold mask_of. rewrite (Hw4 a Ha).
        rewrite (agree_forget_link_mask _ _ Hag3 a), (agree_forget_link_mask _ _ Hag2 a).
        rewrite (Hw1 a Ha). reflexivity. }
      split; [|split; [|split; [|rewrite Haf, Hsf, Htf; subst w4; wsimpl;
                                  rewrite Ha3, Hs3, Ht3, Ha2, Hs2, Ht2; auto]]].
      * intros a Ha. apply elem_of_cons in Ha as [->|Ha].
        -- rewrite (Hnf p HpR), Hm4, <- (Hh0 p) by left. rewrite Hd0. reflexivity.
        -- apply Hmf. exact Ha.
      * intros a Ha. apply not_elem_of_cons in Ha as [Hap HaR].
        rewrite (Hnf a HaR). apply Hagm. exact Hap.
      * eapply agree_trans; [exact Hag1|]. eapply agree_trans; [|exact Hagf].
        eapply agree_trans; [apply agree_forget_link_memdata; exact Hag2|].
        eapply agree_trans; [apply agree_forget_link_memdata; exact Hag3|].
        apply (agree_insert _ _ _ _ _ Hd3). reflexivity.
    + (* the DCB at p stays on the list *)
      change (mm_next (memdata d1)) with (zombie_link d0).
      assert (Hnd1 : NoDup ((K ++ [p]) ++ V ++ R)).
      { assert (Hp : (K ++ [p]) ++ V ++ R ≡ₚ K ++ V ++ p :: R) by solve_Permutation.
        rewrite Hp. exact Hnd. }
      assert (HK1' : lseg zombie_link (heap w1) (zombies w1) (zombie_link d0) (K ++ [p])).
      { eapply lseg_snoc; [exact HK1|exact Hd1|reflexivity]. }
      assert (Hh1 : forall a, a ∈ R -> heap w1 !! a = h0 !! a).
      { intros a Ha. rewrite Hw1 by (intros ->; contradiction). apply Hh0. right. exact Ha. }
      destruct (IH fuel w1 (K ++ [p]) V (zombie_link d0) dcb_list Hnd1 HK1' HR1 HV1 Hh1
                  ltac:(lia))
        as (w' & dl' & Hrun & HKf & HVf & Hmf & Hnf & Hagf & Haf & Hsf & Htf).
      rewrite last_snoc in Hrun. exists w', dl'. split; [exact Hrun|].
      unfold survivors, victims in *.
      rewrite filter_cons_True by exact Hreap.
      rewrite filter_cons_False by (rewrite Hreap; discriminate).
      rewrite <- app_assoc in HKf.
      split; [exact HKf|]. split; [exact HVf|].
      split; [|split; [|split; [|rewrite Haf, Hsf, Htf; auto]]].
      * intros a Ha. apply elem_of_cons in Ha as [->|Ha].
        -- rewrite (Hnf p HpR). unfold mask_of. rewrite Hd1, <- (Hh0 p) by left.
           rewrite Hd0. reflexivity.
        -- apply Hmf. exact Ha.
      * intros a Ha. apply not_elem_of_cons in Ha as [Hap HaR].
        rewrite (Hnf a HaR). unfold mask_of. rewrite (Hw1 a Hap). reflexivity.
      * eapply agree_trans; [exact Hag1|exact Hagf].
Qed.

(** ** dcb_process_zombies: the victims *)

Lemma major_app (l1 l2 : list event) : major (l1 ++ l2) = major l1 ++ major l2.
Proof. apply filter_app. Qed.

Lemma major_teardown (evs : list event) :
  Forall (fun e => teardown_event e = true) evs -> major evs = [].
Proof.
  induction 1 as [|e evs He _ IH]; [reflexivity|].
  unfold major. rewrite filter_cons_False by (rewrite He; discriminate). exact IH.
Qed.

Lemma agree_pair_l {X Y} (f : DCB -> X) (g : DCB -> Y) (h h' : gmap addr DCB) :
  agree (fun x => (f x, g x)) h h' -> agree f h h'.
Proof. apply (agree_weaken (fun x => (f x, g x)) f fst). reflexivity. Qed.

Lemma agree_pair_r {X Y} (f : DCB -> X) (g : DCB -> Y) (h h' : gmap addr DCB) :
  agree (fun x => (f x, g x)) h h' -> agree g h h'.
Proof. apply (agree_weaken (fun x => (f x, g x)) g snd). reflexivity. Qed.

Lemma filter_notin_cons (v : addr) (V l : list addr) :
  filter (fun x => x ∉ V) (filter (fun x => x <> v) l) = filter (fun x => x ∉ v :: V) l.
Proof.
  rewrite list_filter_filter. apply list_filter_iff. intros x.
  rewrite not_elem_of_cons. tauto.
Qed.

(** The victims are released one after the other where every read after
    [free] yields the link as the DCB had it. *)
Lemma victims_free_run (rfuel : nat) (after_free : addr -> DCB -> option addr)
    (V : list addr) :
  (forall v d, after_free v d = zombie_link d) ->
  forall (fuel : nat) (w : World) (p : option addr) (Rg : list addr),
    lseg zombie_link (heap w) p None V ->
    NoDup V ->
    registry w Rg ->
    sessions_present w ->
    (forall v, v ∈ V -> state_of w v = Some DCB_STATE_ZOMBIE) ->
    length V < fuel ->
    length Rg < rfuel ->
    exists w' evs,
      victims_free fuel rfuel after_free p w = Some (tt, w') /\
      registry w' (filter (fun x => x ∉ V) Rg) /\
      agree (fun x => (memdata x, fd x)) (heap w) (heap w') /\
      (forall a, a ∉ V -> state_of w' a = state_of w a) /\
      (forall v, v ∈ V -> state_of w' v = Some DCB_STATE_DISCONNECTED) /\
      zombies w' = zombies w /\
      sessions_present w' /\
      trace w' = trace w ++ evs /\
      major evs = reap_events w V.
Proof.
  intros Hkept.
  induction V as [|v V IH]; intros fuel w p Rg HV Hnd Hreg Hsp Hst Hfuel Hrfuel.
  - apply lseg_nil in HV. subst p.
    destruct fuel as [|fuel]; [simpl in Hfuel; lia|].
    exists w, []. split; [reflexivity|].
    assert (E : filter (fun x : addr => x ∉ []) Rg = Rg).
    { clear. induction Rg as [|b Rg IH]; [reflexivity|].
      rewrite filter_cons_True by apply not_elem_of_nil. rewrite IH. reflexivity. }
    rewrite E, app_nil_r. split; [exact Hreg|]. split; [apply agree_refl|].
    split; [reflexivity|]. split; [intros x Hx; inversion Hx|]. auto.
  - apply lseg_cons in HV as (-> & dv & Hdv & HV).
    destruct fuel as [|fuel]; [simpl in Hfuel; lia|]. simpl in Hfuel.
    apply NoDup_cons in Hnd as [HvV Hnd].
    simpl victims_free.
    rewrite (bind_run _ _ _ _ _ (deref_run _ _ _ Hdv)).
    unfold emit at 1. unfold bind at 1.
    set (w1 := set_trace _ w).
    assert (Hdv1 : heap w1 !! v = Some dv) by exact Hdv.
    rewrite (bind_run _ _ _ _ _ (dcb_set_state_run _ _ _ _ _ Hdv1)).
    assert (Hsv : state dv = DCB_STATE_ZOMBIE).
    { specialize (Hst v ltac:(left)). unfold state_of in Hst. rewrite Hdv in Hst.
      injection Hst as Hst. exact Hst. }
    assert (Hleg : legal_transition (state dv) DCB_STATE_DISCONNECTED = true)
      by (rewrite Hsv; reflexivity).
    rewrite (dcb_set_state_nomutex_legal _ _ _ Hleg). rewrite Hsv.
    cbn [idempotent_transition fst snd].
    set (d2 := set_state DCB_STATE_DISCONNECTED dv). set (w2 := set_heap _ w1).
    assert (Hd2 : heap w2 !! v = Some d2) by apply lookup_insert_eq.
    assert (Hw2 : forall a, a <> v -> heap w2 !! a = heap w !! a).
    { intros a Ha. apply lookup_insert_ne. congruence. }
    assert (Hreg2 : registry w2 Rg).
    { apply (registry_agree w _ _ Hreg); [|reflexivity].
      apply (agree_insert _ _ _ _ _ Hdv). reflexivity. }
    assert (Hsp2 : sessions_present w2).
    { intros a x s Hx Hxs. change (sessions w2) with (sessions w).
      destruct (decide (a = v)) as [->|Hne].
      - rewrite Hd2 in Hx. injection Hx as <-. exact (Hsp v dv s Hdv Hxs).
      - rewrite (Hw2 a Hne) in Hx. exact (Hsp a x s Hx Hxs). }
    destruct (dcb_final_free_run rfuel v w2 Rg d2 Hreg2 Hd2 Hsp2 Hrfuel)
      as (w3 & evs3 & Hrun3 & Hreg3 & Hag3 & Hz3 & Ht3 & Hev3 & Hsp3).
    rewrite (bind_run _ _ _ _ _ Hrun3).
    destruct (agree_lookup _ _ _ _ _ Hag3 Hd2) as (d3 & Hd3 & E3).
    rewrite (bind_run _ _ _ _ _ (deref_run _ _ _ Hd3)).
    assert (Em3 : memdata d3 = memdata dv) by (injection E3 as _ E _; exact E).
    rewrite Hkept. unfold zombie_link at 1. rewrite Em3.
    change (mm_next (memdata dv)) with (zombie_link dv).
    assert (Hagm : agree (fun x => (memdata x, fd x)) (heap w) (heap w3)).
    { eapply agree_trans.
      - apply (agree_insert (fun x => (memdata x, fd x)) _ _ _ d2 Hdv). reflexivity.
      - eapply (agree_weaken (fun x => (state x, memdata x, fd x)) _
                  (fun t => (snd (fst t), snd t))); [|exact Hag3].
        intros x. reflexivity. }
    assert (HV3 : lseg zombie_link (heap w3) (zombie_link dv) None V).
    { eapply lseg_frame; [|exact HV]. intros a _.
      eapply (agree_weaken (fun x => (memdata x, fd x)) zombie_link
                (fun t => mm_next (fst t))); [|exact Hagm].
      intros x. reflexivity. }
    assert (Hst3 : forall a, a <> v -> state_of w3 a = state_of w a).
    { intros a Ha. unfold state_of.
      rewrite (agree_pair_l _ _ _ _ (agree_pair_l _ _ _ _ Hag3) a).
      rewrite (Hw2 a Ha). reflexivity. }
    assert (HstV : forall x, x ∈ V -> state_of w3 x = Some DCB_STATE_ZOMBIE).
    { intros x Hx. rewrite Hst3 by (intros ->; contradiction). apply Hst. right. exact Hx. }
    assert (Hrfuel3 : length (filter (fun x => x <> v) Rg) < rfuel).
    { pose proof (length_filter (fun x => x <> v) Rg). lia. }
    destruct (IH fuel w3 (zombie_link dv) _ HV3 Hnd Hreg3 Hsp3 HstV ltac:(lia) Hrfuel3)
      as (w' & evs' & Hrun & Hreg' & Hag' & Hstn' & Hstv' & Hz' & Hsp' & Ht' & Hmaj').
    exists w', ([E_close (fd dv)] ++ evs3 ++ [E_free_dcb v] ++ evs').
    split; [exact Hrun|].
    rewrite filter_notin_cons in Hreg'. split; [exact Hreg'|].
    split; [eapply agree_trans; [exact Hagm|exact Hag']|].
    split; [|split; [|split; [|split; [exact Hsp'|split]]]].
    + intros a Ha. apply not_elem_of_cons in Ha as [Hav HaV].
      rewrite (Hstn' a HaV). apply Hst3. exact Hav.
    + intros x Hx. apply elem_of_cons in Hx as [->|Hx]; [|apply Hstv'; exact Hx].
      rewrite (Hstn' v HvV). unfold state_of. rewrite Hd3. simpl.
      injection E3 as E _ _. rewrite E. reflexivity.
    + rewrite Hz', Hz3. reflexivity.
    + rewrite Ht', Ht3. subst w2 w1. wsimpl. rewrite <- !app_assoc. reflexivity.
    + rewrite !major_app, (major_teardown _ Hev3), Hmaj'.
      assert (Efd : fd_of w v = fd dv) by (unfold fd_of; rewrite Hdv; reflexivity).
      unfold reap_events. cbn [flat_map app]. rewrite Efd.
      change (major [E_close (fd dv)]) with [E_close (fd dv)].
      change (major [E_free_dcb v]) with [E_free_dcb v]. cbn [app].
      f_equal. f_equal. apply flat_map_ext. intros x.
      unfold fd_of.
      pose proof (agree_pair_r _ _ _ _ Hagm x) as Ex.
      destruct (heap w3 !! x), (heap w !! x); simpl in Ex |- *; congruence.
Qed.

(** ** dcb_process_zombies *)

Lemma sessions_present_agree (w w' : World) :
  sessions_present w ->
  agree session (heap w) (heap w') ->
  sessions w' = sessions w ->
  sessions_present w'.
Proof.
  intros Hsp Hag Hs a x s Hx Hxs. rewrite Hs.
  destruct (agree_lookup _ _ _ _ _ (agree_sym _ _ _ Hag) Hx) as (x0 & Hx0 & E).
  apply (Hsp a x0 s Hx0). congruence.
Qed.

(** One call of the reaper by the polling thread [threadid], on a zombie list
    [l] of DCBs in state ZOMBIE and a registry [Rg]. *)
Lemma dcb_process_zombies_run (fuel : nat) (after_free : addr -> DCB -> option addr)
    (threadid : N) (w : World) (l Rg : list addr) :
  (forall v d, after_free v d = zombie_link d) ->
  zombie_list w l ->
  registry w Rg ->
  sessions_present w ->
  (forall a, a ∈ l -> state_of w a = Some DCB_STATE_ZOMBIE) ->
  length l < fuel ->
  length Rg < fuel ->
  exists w' evs,
    dcb_process_zombies fuel after_free threadid w = Some (tt, w') /\
    zombie_list w' (survivors (heap w) threadid l) /\
    registry w' (filter (fun x => x ∉ victims (heap w) threadid l) Rg) /\
    (forall a, a ∈ l ->
       mask_of w' a = (fun m => bitmask_clear m threadid) <$> mask_of w a) /\
    (forall a, a ∉ l -> mask_of w' a = mask_of w a) /\
    (forall a, a ∉ victims (heap w) threadid l -> state_of w' a = state_of w a) /\
    (forall v, v ∈ victims (heap w) threadid l ->
       state_of w' v = Some DCB_STATE_DISCONNECTED) /\
    agree fd (heap w) (heap w') /\
    sessions_present w' /\
    trace w' = trace w ++ evs /\
    major evs = reap_events w (victims (heap w) threadid l).
Proof.
  intros Hkept [Hl Hnd] Hreg Hsp Hst Hfuel Hrfuel. unfold dcb_process_zombies.
  unfold read_zombies at 1. unfold bind at 1.
  destruct (zombies w) as [z|] eqn:Hz.
  - destruct (zombies_scan_run threadid (heap w) l fuel w [] [] (Some z) None)
      as (w1 & dl & Hrun1 & HK1 & HV1 & Hm1 & Hn1 & Hag1 & Ha1 & Hs1 & Ht1);
      [exact Hnd|apply lseg_nil; exact Hz|exact Hl|apply lseg_nil; reflexivity|
       reflexivity|exact Hfuel|].
    cbn [last app] in Hrun1, HK1, HV1.
    rewrite (bind_run _ _ _ _ _ Hrun1).
    set (V := victims (heap w) threadid l) in *.
    assert (HndV : NoDup V) by (apply NoDup_filter; exact Hnd).
    assert (Hreg1 : registry w1 Rg).
    { apply (registry_agree w _ _ Hreg); [|exact Ha1].
      apply (agree_weaken forget_memdata next next); [reflexivity|exact Hag1]. }
    assert (Hsp1 : sessions_present w1).
    { apply (sessions_present_agree w _ Hsp); [|exact Hs1].
      apply (agree_weaken forget_memdata session session); [reflexivity|exact Hag1]. }
    assert (Hst1 : forall a, state_of w1 a = state_of w a).
    { intros a. unfold state_of.
      apply (agree_weaken forget_memdata state state); [reflexivity|exact Hag1]. }
    assert (HstV : forall v, v ∈ V -> state_of w1 v = Some DCB_STATE_ZOMBIE).
    { intros v Hv. rewrite Hst1. apply Hst.
      apply list_elem_of_filter in Hv. tauto. }
    assert (HlenV : length V < fuel).
    { pose proof (length_filter (fun a => reaped (heap w) threadid a = true) l).
      unfold V, victims. lia. }
    destruct (victims_free_run fuel after_free V Hkept fuel w1 dl Rg HV1 HndV Hreg1 Hsp1 HstV
                HlenV Hrfuel)
      as (w2 & evs & Hrun2 & Hreg2 & Hag2 & Hstn2 & Hstv2 & Hz2 & Hsp2 & Ht2 & Hmaj2).
    exists w2, evs. split; [exact Hrun2|].
    assert (Hmask2 : forall a, mask_of w2 a = mask_of w1 a).
    { intros a. unfold mask_of.
      apply (agree_weaken (fun x => (memdata x, fd x)) _ (fun t => bitmask (fst t)));
        [reflexivity|exact Hag2]. }
    assert (Hfd1 : agree fd (heap w) (heap w1)).
    { apply (agree_weaken forget_memdata fd fd); [reflexivity|exact Hag1]. }
    split; [split; [|apply NoDup_filter; exact Hnd]|].
    { rewrite Hz2. eapply lseg_frame; [|exact HK1]. intros a _.
      apply (agree_weaken (fun x => (memdata x, fd x)) zombie_link
               (fun t => mm_next (fst t))); [reflexivity|exact Hag2]. }
    split; [exact Hreg2|].
    split; [|split; [|split; [|split; [exact Hstv2|split; [|split; [exact Hsp2|split]]]]]].
    + intros a Ha. rewrite Hmask2, (Hm1 a Ha). unfold mask_of.
      destruct (heap w !! a); reflexivity.
    + intros a Ha. rewrite Hmask2. apply Hn1. exact Ha.
    + intros a Ha. rewrite (Hstn2 a Ha). apply Hst1.
    + eapply agree_trans; [exact Hfd1|]. exact (agree_pair_r _ _ _ _ Hag2).
    + rewrite Ht2, Ht1. reflexivity.
    + rewrite Hmaj2. unfold reap_events. apply flat_map_ext. intros x.
      unfold fd_of. pose proof (Hfd1 x) as Ex.
      destruct (heap w1 !! x), (heap w !! x); simpl in Ex |- *; congruence.
  - destruct l as [|a l]; [|apply lseg_cons in Hl as [? _]; discriminate].
    exists w, []. split; [reflexivity|].
    unfold survivors, victims. rewrite !filter_nil, app_nil_r.
    split; [split; [apply lseg_nil; exact Hz|constructor]|].
    split.
    { assert (E : filter (fun x : addr => x ∉ []) Rg = Rg).
      { clear. induction Rg as [|b Rg IH]; [reflexivity|].
        rewrite filter_cons_True by apply not_elem_of_nil. rewrite IH. reflexivity. }
      rewrite E. exact Hreg. }
    split; [intros x Hx; inversion Hx|]. split; [reflexivity|]. split; [reflexivity|].
    split; [intros x Hx; inversion Hx|]. split; [apply agree_refl|]. auto.
Qed.

(** ** The polling threads drain the zombie list *)

Lemma covered_clear (t : N) (ts : list N) (m : N) :
  covered (t :: ts) m -> covered ts (bitmask_clear m t).
Proof.
  intros H i Hi. unfold bitmask_clear in Hi. rewrite N.clearbit_eqb in Hi.
  apply andb_true_iff in Hi as [Hi Hne].
  apply H in Hi. apply elem_of_cons in Hi as [->|Hi]; [|exact Hi].
  rewrite N.eqb_refl in Hne. discriminate Hne.
Qed.

Lemma covered_nil_clear (m : N) : covered [] m -> bitmask_isallclear m = true.
Proof.
  intros H. unfold bitmask_isallclear. apply N.eqb_eq.
  destruct (N.eq_dec m 0) as [E|Hne]; [exact E|].
  apply N.bit_log2 in Hne. apply H in Hne. inversion Hne.
Qed.

Lemma survivors_victims_split (h : gmap addr DCB) (t : N) (l : list addr) (x : addr) :
  x ∈ l <-> x ∈ survivors h t l \/ x ∈ victims h t l.
Proof.
  unfold survivors, victims. rewrite !list_elem_of_filter. split.
  - intros H. destruct (reaped h t x); [right|left]; split; first [reflexivity|exact H].
  - intros [[_ H]|[_ H]]; exact H.
Qed.

Lemma survivor_not_victim (h : gmap addr DCB) (t : N) (l : list addr) (x : addr) :
  x ∈ survivors h t l -> x ∉ victims h t l.
Proof.
  unfold survivors, victims. rewrite !list_elem_of_filter. intros [H1 _] [H2 _]. congruence.
Qed.

Lemma victims_survivors_perm (h : gmap addr DCB) (t : N) (l : list addr) :
  victims h t l ++ survivors h t l ≡ₚ l.
Proof.
  unfold victims, survivors. induction l as [|a l IH]; [reflexivity|].
  destruct (reaped h t a) eqn:E.
  - rewrite filter_cons_True by exact E. rewrite filter_cons_False by (rewrite E; discriminate).
    simpl. rewrite IH. reflexivity.
  - rewrite filter_cons_False by (rewrite E; discriminate).
    rewrite filter_cons_True by exact E.
    rewrite <- Permutation_middle. rewrite IH. reflexivity.
Qed.

Lemma reap_events_agree (w w' : World) (l : list addr) :
  agree fd (heap w) (heap w') -> reap_events w' l = reap_events w l.
Proof.
  intros Hag. unfold reap_events. apply flat_map_ext. intros x. unfold fd_of.
  pose proof (Hag x) as Ex.
  destruct (heap w' !! x), (heap w !! x); simpl in Ex |- *; congruence.
Qed.

Lemma workers_reap_run (fuel : nat) (after_free : addr -> DCB -> option addr)
    (tids : list N) :
  (forall v d, after_free v d = zombie_link d) ->
  forall (w : World) (l Rg : list addr),
    zombie_list w l ->
    registry w Rg ->
    sessions_present w ->
    (forall a, a ∈ l -> state_of w a = Some DCB_STATE_ZOMBIE) ->
    length l < fuel ->
    length Rg < fuel ->
    (forall a m, a ∈ l -> mask_of w a = Some m -> covered tids m) ->
    (l <> [] -> tids <> []) ->
    exists w' evs,
      workers_reap fuel after_free tids w = Some (tt, w') /\
      zombie_list w' [] /\
      registry w' (filter (fun x => x ∉ l) Rg) /\
      (forall a, a ∈ l -> state_of w' a = Some DCB_STATE_DISCONNECTED) /\
      (forall a, a ∉ l -> state_of w' a = state_of w a) /\
      agree fd (heap w) (heap w') /\
      trace w' = trace w ++ evs /\
      major evs ≡ₚ reap_events w l.
Proof.
  intros Hkept.
  induction tids as [|t ts IH]; intros w l Rg Hzl Hreg Hsp Hst Hfuel Hrfuel Hcov Hne.
  - destruct l as [|a l]; [|exfalso; apply Hne; [discriminate|reflexivity]].
    exists w, []. split; [reflexivity|]. split; [exact Hzl|].
    assert (E : filter (fun x : addr => x ∉ []) Rg = Rg).
    { clear. induction Rg as [|b Rg IH]; [reflexivity|].
      rewrite filter_cons_True by apply not_elem_of_nil. rewrite IH. reflexivity. }
    rewrite E, app_nil_r. split; [exact Hreg|]. split; [intros x Hx; inversion Hx|].
    split; [reflexivity|]. split; [apply agree_refl|]. split; reflexivity.
  - destruct (dcb_process_zombies_run fuel after_free t w l Rg Hkept Hzl Hreg Hsp Hst Hfuel
                Hrfuel)
      as (w1 & evs1 & Hrun1 & Hzl1 & Hreg1 & Hm1 & _ & Hstn1 & Hstv1 & Hfd1 & Hsp1 & Ht1 & Hmaj1).
    simpl workers_reap. rewrite (bind_run _ _ _ _ _ Hrun1).
    set (S1 := survivors (heap w) t l) in *. set (V1 := victims (heap w) t l) in *.
    assert (HS1l : forall a, a ∈ S1 -> a ∈ l).
    { intros a Ha. apply (survivors_victims_split (heap w) t l a). left. exact Ha. }
    assert (Hst1 : forall a, a ∈ S1 -> state_of w1 a = Some DCB_STATE_ZOMBIE).
    { intros a Ha. rewrite Hstn1 by (apply survivor_not_victim; exact Ha).
      apply Hst, HS1l, Ha. }
    assert (Hlen1 : length S1 < fuel).
    { pose proof (length_filter (fun a => reaped (heap w) t a = false) l).
      unfold S1, survivors. lia. }
    assert (Hrlen1 : length (filter (fun x => x ∉ V1) Rg) < fuel).
    { pose proof (length_filter (fun x => x ∉ V1) Rg). lia. }
    assert (Hcov1 : forall a m, a ∈ S1 -> mask_of w1 a = Some m -> covered ts m).
    { intros a m Ha Hm. rewrite (Hm1 a (HS1l a Ha)) in Hm.
      destruct (mask_of w a) as [m0|] eqn:Hm0; [|discriminate Hm].
      injection Hm as <-. apply covered_clear. exact (Hcov a m0 (HS1l a Ha) Hm0). }
    assert (Hne1 : S1 <> [] -> ts <> []).
    { intros HS1 ->. destruct S1 as [|a S1'] eqn:ES1; [contradiction|].
      assert (Ha : a ∈ S1) by (rewrite ES1; left).
      pose proof Ha as Ha'. unfold S1, survivors in Ha'.
      rewrite ES1 in Ha. apply list_elem_of_filter in Ha' as [Hr Hal].
      destruct Hzl as [Hl _]. destruct (lseg_lookup _ _ _ _ _ _ Hl Hal) as [d Hd].
      unfold reaped in Hr. rewrite Hd in Hr.
      assert (Hm : mask_of w1 a = Some (bitmask_clear (bitmask (memdata d)) t)).
      { rewrite (Hm1 a Hal). unfold mask_of. rewrite Hd. reflexivity. }
      rewrite (covered_nil_clear _ (Hcov1 a _ Ha Hm)) in Hr. discriminate Hr. }
    destruct (IH w1 S1 _ Hzl1 Hreg1 Hsp1 Hst1 Hlen1 Hrlen1 Hcov1 Hne1)
      as (w' & evs2 & Hrun & Hzl' & Hreg' & Hstl' & Hstn' & Hfd' & Ht' & Hmaj').
    exists w', (evs1 ++ evs2). split; [exact Hrun|]. split; [exact Hzl'|].
    split; [|split; [|split; [|split; [|split]]]].
    + rewrite list_filter_filter in Hreg'.
      erewrite list_filter_iff; [exact Hreg'|].
      intros x. simpl. rewrite (survivors_victims_split (heap w) t l x). tauto.
    + intros a Ha. apply (survivors_victims_split (heap w) t l) in Ha as [Ha|Ha].
      * apply Hstl'. exact Ha.
      * rewrite Hstn'; [apply Hstv1; exact Ha|].
        intros Hin. exact (survivor_not_victim _ _ _ _ Hin Ha).
    + intros a Ha.
      assert (HaS : a ∉ S1).
      { intros Hin. apply Ha, HS1l, Hin. }
      assert (HaV : a ∉ V1).
      { intros Hin. apply Ha. apply (survivors_victims_split (heap w) t l a).
        right. exact Hin. }
      rewrite (Hstn' a HaS). apply Hstn1. exact HaV.
    + eapply agree_trans; [exact Hfd1|exact Hfd'].
    + rewrite Ht', Ht1, <- app_assoc. reflexivity.
    + rewrite major_app, Hmaj1, Hmaj', (reap_events_agree _ _ _ Hfd1).
      unfold reap_events. rewrite <- flat_map_app.
      apply Permutation_flat_map. apply victims_survivors_perm.
Qed.

Lemma count_occ_major (evs : list event) (e : event) :
  teardown_event e = false ->
  count_occ event_eq_dec (major evs) e = count_occ event_eq_dec evs e.
Proof.
  intros He. induction evs as [|x evs IH]; [reflexivity|].
  unfold major in *. destruct (teardown_event x) eqn:Hx.
  - rewrite filter_cons_False by (rewrite Hx; discriminate).
    rewrite count_occ_cons_neq by (intros ->; congruence). exact IH.
  - rewrite filter_cons_True by exact Hx.
    destruct (decide (x = e)) as [->|Hne].
    + rewrite !count_occ_cons_eq by reflexivity. rewrite IH. reflexivity.
    + rewrite !count_occ_cons_neq by exact Hne. exact IH.
Qed.

Lemma count_occ_reap_events (w : World) (l : list addr) (a : addr) :
  NoDup l ->
  count_occ event_eq_dec (reap_events w l) (E_free_dcb a) = if decide (a ∈ l) then 1 else 0.
Proof.
  induction 1 as [|x l Hx Hnd IH].
  - rewrite decide_False by apply not_elem_of_nil. reflexivity.
  - unfold reap_events in *. cbn [flat_map app].
    rewrite count_occ_cons_neq by discriminate.
    destruct (decide (x = a)) as [->|Hne].
    + rewrite count_occ_cons_eq by reflexivity. rewrite IH.
      rewrite decide_False by exact Hx. rewrite decide_True by left. reflexivity.
    + rewrite count_occ_cons_neq by congruence. rewrite IH.
      destruct (decide (a ∈ l)) as [Hin|Hnin].
      * rewrite decide_True by (right; exact Hin). reflexivity.
      * rewrite decide_False; [reflexivity|].
        intros Hin. apply elem_of_cons in Hin as [->|Hin]; contradiction.
Qed.

Lemma close_in_reap_events (w : World) (l : list addr) (a : addr) :
  a ∈ l -> E_close (fd_of w a) ∈ reap_events w l.
Proof.
  intros Ha. unfold reap_events. apply list_elem_of_In, in_flat_map.
  exists a. split; [apply list_elem_of_In; exact Ha|left; reflexivity].
Qed.

(** C1: the zombie list does not drain as claimed.  Two DCBs are closed
    while polling thread 0 is the only one running, and thread 0 calls
    [dcb_process_zombies]: both DCBs are victims.  The loop over the victims
    runs [dcb_final_free(dcb)], which ends in [free(dcb)], and then reads
    [dcb->memdata.next] from the released block.  Where that read yields the
    link as it was, both DCBs are closed and freed.  Where it yields NULL,
    the loop ends after the first victim: the second DCB has left the zombie
    list, but its descriptor is not closed, it stays in state ZOMBIE and in
    the registry, it is not freed, and no later call of any thread finds
    it. *)
Theorem dcb_process_zombies_reads_released_block :
  (dcb_close 2 false 1 1 ;;; dcb_close 2 false 1 2) two_polling_world
    = Some (tt, two_zombies_world) /\
  zombie_list two_zombies_world [1; 2] /\
  victims (heap two_zombies_world) 0 [1; 2] = [1; 2] /\
  (exists w',
     dcb_process_zombies 3 block_kept 0 two_zombies_world = Some (tt, w') /\
     zombies w' = None /\
     calls (E_free_dcb 1) w' = 1 /\ calls (E_free_dcb 2) w' = 1 /\
     calls (E_close 3) w' = 1 /\ calls (E_close 4) w' = 1 /\
     allDCBs w' = None) /\
  (exists w',
     dcb_process_zombies 3 block_cleared 0 two_zombies_world = Some (tt, w') /\
     zombies w' = None /\
     calls (E_free_dcb 1) w' = 1 /\ calls (E_free_dcb 2) w' = 0 /\
     calls (E_close 3) w' = 1 /\ calls (E_close 4) w' = 0 /\
     state_of w' 2 = Some DCB_STATE_ZOMBIE /\
     registry w' [2] /\
     forall (after_free : addr -> DCB -> option addr) (tids : list N),
       workers_reap 3 after_free tids w' = Some (tt, w')).
Proof.
  split; [vm_compute; reflexivity|].
  split.
  { split.
    - apply lseg_cons. split; [reflexivity|]. eexists. split; [reflexivity|].
      apply lseg_cons. split; [reflexivity|]. eexists. split; [reflexivity|]. reflexivity.
    - apply NoDup_cons. split; [|apply NoDup_singleton].
      intros H. apply list_elem_of_singleton in H. discriminate H. }
  split; [reflexivity|].
  split.
  - eexists. split; [vm_compute; reflexivity|]. repeat split; reflexivity.
  - eexists. split; [vm_compute; reflexivity|].
    split; [reflexivity|]. split; [reflexivity|]. split; [reflexivity|].
    split; [reflexivity|]. split; [reflexivity|]. split; [reflexivity|].
    split.
    { split; [|apply NoDup_singleton].
      apply lseg_cons. split; [reflexivity|]. eexists. split; [reflexivity|]. reflexivity. }
    intros after_free tids. induction tids as [|t ts IH]; [reflexivity|].
    cbn [workers_reap]. unfold bind at 1. cbn [dcb_process_zombies].
    unfold dcb_process_zombies, read_zombies, bind at 1. cbn [zombies ret]. exact IH.
Qed.

Lemma covered_7 : covered [0; 1; 2]%N 7.
Proof.
  intros i Hi. destruct i as [|p]; [left|].
  destruct p as [[p|p|]|[p|p|]|]; simpl in Hi; try discriminate Hi.
  - right. right. left.
  - right. left.
Qed.

Lemma dcb_connect_failure_witness :
  exists w',
    dcb_connect 3 (Some (2, fresh_dcb 0)) true true (-1) 0 5 session_world = Some (None, w') /\
    registry w' [1] /\
    zombies w' = zombies session_world /\
    state_of w' 2 = Some DCB_STATE_DISCONNECTED /\
    calls (E_free_dcb 2) w' = 1.
Proof.
  assert (Hreg : registry session_world [1]).
  { split; [|apply NoDup_singleton]. apply lseg_cons. split; [reflexivity|].
    eexists. split; [reflexivity|]. reflexivity. }
  assert (Hnin : 2 ∉ [1]).
  { intros Hin. apply list_elem_of_singleton in Hin. discriminate Hin. }
  assert (Hsp : sessions_present session_world).
  { intros a d s Hd Hs. unfold session_world in Hd. cbn [heap] in Hd.
    apply lookup_singleton_Some in Hd as [_ <-]. discriminate Hs. }
  assert (Hses : is_Some (sessions session_world !! 5)).
  { eexists. reflexivity. }
  destruct (dcb_connect_failure 3 2 (fresh_dcb 0) true true (-1) 0 5 session_world [1]
              Hreg Hnin Hsp Hses ltac:(simpl; lia)) as [_ Hfail].
  destruct (Hfail (or_intror (or_intror eq_refl))) as (w' & Hrun & Hr & Hz & Hs & Hc).
  exists w'. split; [exact Hrun|]. split; [exact Hr|]. split; [exact Hz|].
  split; [exact Hs|]. rewrite (Hc 2). reflexivity.
Defined.

(** * Further properties of dcb.c *)

(** ** The state machine over sequences of requests *)

Lemma dcb_set_state_nomutex_step (dcb : DCB) (s : dcb_state_t) :
  state dcb <> DCB_STATE_UNDEFINED ->
  exists s', fst (fst (dcb_set_state_nomutex dcb s true)) = set_state s' dcb /\
             s' <> DCB_STATE_UNDEFINED /\
             state_rank (state dcb) <= state_rank s'.
Proof.
  intros Hu. destruct dcb as [r f st p rm se wq dq sts nx da md cm].
  cbn [state] in *. unfold dcb_set_state_nomutex. cbn [state].
  destruct st; try contradiction; destruct s; cbn [fst];
    eexists; (split; [reflexivity|]); cbn; (split; [discriminate|lia]).
Qed.

(** X1: whatever states are requested of a DCB that has left UNDEFINED, and in
    whatever order, its rank never decreases: a DCB that was taken out of the
    poll set is never polled again, FREED is final, and nothing but the state
    field changes. *)
Theorem dcb_set_state_nomutex_never_back (dcb : DCB) (reqs : list dcb_state_t) :
  state dcb <> DCB_STATE_UNDEFINED ->
  state_rank (state dcb) <= state_rank (state (requests dcb reqs)) /\
  state (requests dcb reqs) <> DCB_STATE_UNDEFINED /\
  requests dcb reqs = set_state (state (requests dcb reqs)) dcb.
Proof.
  revert dcb. induction reqs as [|s reqs IH]; intros dcb Hu.
  - cbn. split; [lia|]. split; [exact Hu|]. destruct dcb; reflexivity.
  - unfold requests. cbn [foldl]. fold (requests (fst (fst (dcb_set_state_nomutex dcb s true))) reqs).
    destruct (dcb_set_state_nomutex_step dcb s Hu) as (s' & -> & Hs' & Hle).
    destruct (IH (set_state s' dcb) Hs') as (H1 & H2 & H3).
    split; [cbn [state set_state] in H1; lia|]. split; [exact H2|].
    rewrite H3 at 1. destruct dcb; reflexivity.
Qed.

Lemma dcb_set_state_nomutex_never_back_witness :
  state (set_state DCB_STATE_NOPOLLING (fresh_dcb 3)) <> DCB_STATE_UNDEFINED /\
  3 <= state_rank (state (requests (set_state DCB_STATE_NOPOLLING (fresh_dcb 3))
                            [DCB_STATE_POLLING; DCB_STATE_LISTENING; DCB_STATE_ALLOC])).
Proof.
  split; [discriminate|].
  apply (dcb_set_state_nomutex_never_back (set_state DCB_STATE_NOPOLLING (fresh_dcb 3))
           [DCB_STATE_POLLING; DCB_STATE_LISTENING; DCB_STATE_ALLOC]).
  discriminate.
Defined.

(** ** gw_dcb_state2string *)

(** X2: the names [gw_dcb_state2string] gives tell the states apart, except
    that NOPOLLING has no case of its own and shares the name of the default
    case with UNDEFINED. *)
Theorem gw_dcb_state2string_distinguishes (s s' : dcb_state_t) :
  gw_dcb_state2string s = gw_dcb_state2string s' <->
  s = s' \/
  (s ∈ [DCB_STATE_UNDEFINED; DCB_STATE_NOPOLLING] /\
   s' ∈ [DCB_STATE_UNDEFINED; DCB_STATE_NOPOLLING]).
Proof.
  split.
  - destruct s, s'; intros H; try (left; reflexivity); try discriminate H;
      right; split; set_solver.
  - intros [->|[H1 H2]]; [reflexivity|].
    apply elem_of_cons in H1 as [->|H1]; [|apply list_elem_of_singleton in H1 as ->];
    (apply elem_of_cons in H2 as [->|H2]; [|apply list_elem_of_singleton in H2 as ->]);
    reflexivity.
Qed.

(** ** Bytes on their way out: dcb_write and dcb_drain_writeq *)

Lemma gwbuf_consume_concat (b : GWBUF) (rest : list GWBUF) (w : nat) :
  take w b ++ concat (gwbuf_consume (b :: rest) w) = concat (b :: rest).
Proof.
  unfold gwbuf_consume. cbn [concat].
  destruct (drop w b) as [|z b'] eqn:Hd.
  - rewrite <- (take_drop w b) at 2. rewrite Hd, app_nil_r. reflexivity.
  - cbn [concat]. rewrite <- Hd, app_assoc, take_drop. reflexivity.
Qed.

(** What a run of accepted writes moves out of a chain is a prefix of its
    bytes, and the chain that is left holds the rest. *)
Lemma foldl_gwbuf_consume_concat (ws : list nat) :
  forall queue : list GWBUF,
    exists sent : list Z,
      sent ++ concat (foldl gwbuf_consume queue ws) = concat queue /\
      length sent <= sum_list ws /\
      (writes_fit queue ws -> length sent = sum_list ws).
Proof.
  induction ws as [|w ws IH]; intros queue.
  - exists []. cbn. split; [reflexivity|]. split; [lia|reflexivity].
  - cbn [foldl sum_list]. destruct queue as [|b rest].
    + destruct (IH []) as (sent & H1 & H2 & _).
      exists sent. split; [exact H1|]. split; [cbn in *; lia|]. intros [].
    + destruct (IH (gwbuf_consume (b :: rest) w)) as (sent & H1 & H2 & H3).
      exists (take w b ++ sent). split.
      * rewrite <- app_assoc, H1. apply gwbuf_consume_concat.
      * rewrite length_app, length_take. split; [cbn; lia|].
        intros [Hw Hfit]. specialize (H3 Hfit). cbn. lia.
Qed.

Lemma dcb_write_loop_stats (script : list write_result) :
  forall (queue : list GWBUF) (dcb : DCB) (e0 : Z) q' d' e,
    dcb_write_loop script queue dcb e0 = Some (q', d', e) ->
    set_stats (stats dcb) d' = dcb /\
    n_buffered (stats d') = n_buffered (stats dcb) /\
    n_reads (stats d') = n_reads (stats dcb) /\
    (n_writes (stats dcb) <= n_writes (stats d'))%Z.
Proof.
  induction script as [|r script IH]; intros queue dcb e0 q' d' e H.
  - destruct queue; simpl in H; [|discriminate]. injection H as <- <- <-.
    destruct dcb; cbn. repeat split; lia.
  - destruct queue as [|b queue]; simpl in H.
    + injection H as <- <- <-. destruct dcb; cbn. repeat split; lia.
    + destruct r as [w|errno].
      * apply IH in H as (H1 & H2 & H3 & H4).
        destruct dcb, d'; cbn in *. repeat split; try congruence; try lia.
        injection H1 as -> -> -> -> -> -> -> -> -> -> -> ->. reflexivity.
      * injection H as <- <- <-. destruct dcb; cbn. repeat split; lia.
Qed.

(** What the sending loop leaves, with the bytes it moved: the accepted
    writes [ws] were each handed the first buffer of what was left of the
    chain, and the bytes they took followed by the bytes of the chain that is
    left are the bytes of the chain. *)
Lemma dcb_write_loop_wire (script : list write_result) :
  forall (queue : list GWBUF) (dcb : DCB) (e0 : Z) q' d' e,
    dcb_write_loop script queue dcb e0 = Some (q', d', e) ->
    exists ws : list nat,
      ((exists rest, script = (W_ok <$> ws) ++ rest /\ q' = []) \/
       (exists rest, script = (W_ok <$> ws) ++ W_err e :: rest /\ q' <> [])) /\
      handed queue ws /\
      q' = foldl gwbuf_consume queue ws /\
      wire queue ws ++ concat q' = concat queue.
Proof.
  induction script as [|r script IH]; intros queue dcb e0 q' d' e H.
  - destruct queue as [|b queue]; simpl in H; [|discriminate].
    injection H as <- <- <-. exists []. split; [left; exists []; split; reflexivity|].
    split; [exact I|]. split; reflexivity.
  - destruct queue as [|b queue]; cbn [dcb_write_loop] in H.
    + injection H as <- <- <-. exists [].
      split; [left; eexists; split; reflexivity|].
      split; [exact I|]. split; reflexivity.
    + destruct r as [w|errno].
      * apply IH in H as (ws & Hcase & Hh & Hq & Hw).
        exists (w :: ws). split.
        { destruct Hcase as [(rest & -> & Hnil)|(rest & -> & Hne)].
          - left. exists rest. split; [reflexivity|exact Hnil].
          - right. exists rest. split; [reflexivity|exact Hne]. }
        split; [split; [discriminate|exact Hh]|]. split; [exact Hq|].
        cbn [wire]. rewrite <- app_assoc, Hw. apply gwbuf_consume_concat.
      * injection H as <- <- <-. exists [].
        split; [right; exists script; split; [reflexivity|discriminate]|].
        split; [exact I|]. split; reflexivity.
Qed.

(** X3: [dcb_write] loses no byte and keeps the order.  While older data is
    queued it makes no write: the chain handed in is linked behind the write
    queue as it is.  On the direct-send path the writes of the script are
    followed up to the first that fails, or until the chain is sent; each of
    them is handed the first buffer of what is left, and the bytes these
    writes took followed by the bytes on the write queue afterwards are the
    bytes of the chain.  The call changes the write queue and the statistics
    of the DCB only. *)
Theorem dcb_write_keeps_bytes (EAGAIN EWOULDBLOCK : Z) (dcb : DCB) (queue : list GWBUF)
    (script : list write_result) (rv : Z) (dcb' : DCB) :
  dcb_write EAGAIN EWOULDBLOCK dcb queue script = Some (rv, dcb') ->
  (writeq dcb <> [] ->
   writeq dcb' = writeq dcb ++ queue /\ n_writes (stats dcb') = n_writes (stats dcb)) /\
  (writeq dcb = [] ->
   exists ws : list nat,
     ((exists rest, script = (W_ok <$> ws) ++ rest /\ writeq dcb' = []) \/
      (exists e rest, script = (W_ok <$> ws) ++ W_err e :: rest /\ writeq dcb' <> [])) /\
     handed queue ws /\
     writeq dcb' = foldl gwbuf_consume queue ws /\
     wire queue ws ++ concat (writeq dcb') = concat queue) /\
  set_stats (stats dcb) (set_writeq (writeq dcb) dcb') = dcb.
Proof.
  intros H. destruct (writeq dcb) as [|b0 q0] eqn:Hq.
  - unfold dcb_write in H. rewrite Hq in H.
    destruct (dcb_write_loop script queue dcb 0) as [[[q' d1] e]|] eqn:Hloop;
      [|discriminate].
    destruct (dcb_write_loop_wire _ _ _ _ _ _ _ Hloop) as (ws & Hcase & Hh & Hq' & Hw).
    destruct (dcb_write_loop_stats _ _ _ _ _ _ _ Hloop) as (Hs1 & _).
    assert (Hd : dcb' = match q' with
                        | [] => set_writeq q' d1
                        | _ :: _ => incr_n_buffered (set_writeq q' d1)
                        end).
    { destruct q'; simpl in H;
        repeat match type of H with context [if ?c then _ else _] => destruct c end;
        injection H as _ <-; reflexivity. }
    assert (Hwq : writeq dcb' = q') by (rewrite Hd; destruct q'; reflexivity).
    split; [intros Hne; contradiction|]. split.
    + intros _. exists ws. rewrite Hwq. split.
      { destruct Hcase as [(rest & Hs & Hnil)|(rest & Hs & Hne)].
        - left. exists rest. auto.
        - right. exists e, rest. auto. }
      split; [exact Hh|]. split; [exact Hq'|exact Hw].
    + assert (E1 : forall s q x,
                set_stats s (set_writeq [] (set_writeq q x)) = set_writeq [] (set_stats s x))
        by (intros s q x; destruct x; reflexivity).
      assert (E2 : forall s q x,
                set_stats s (set_writeq [] (incr_n_buffered (set_writeq q x)))
                = set_writeq [] (set_stats s x))
        by (intros s q x; destruct x; reflexivity).
      assert (E3 : set_writeq [] dcb = dcb)
        by (destruct dcb; cbn in Hq; subst; reflexivity).
      rewrite Hd. destruct q'; rewrite ?E1, ?E2, Hs1; exact E3.
  - assert (Hne : writeq dcb <> []) by (rewrite Hq; discriminate).
    rewrite (dcb_write_queued EAGAIN EWOULDBLOCK dcb queue script Hne) in H.
    injection H as _ <-. rewrite Hq.
    split; [intros _; split; reflexivity|]. split; [intros Hnil; discriminate Hnil|].
    destruct dcb as [? ? ? ? ? ? ? ? [? ? ? ?] ? ? ? ?]. cbn in Hq. subst. reflexivity.
Qed.

(** Scenario S2: the socket takes "ABCD" and then would block. *)
Lemma dcb_write_keeps_bytes_witness :
  (fun r => (fst r, writeq (snd r))) <$>
    dcb_write 11 11 (fresh_dcb 3) [[65; 66; 67; 68; 69; 70; 71; 72]%Z] [W_ok 4; W_err 11]
    = Some (1%Z, [[69; 70; 71; 72]%Z]) /\
  exists ws : list nat,
    handed [[65; 66; 67; 68; 69; 70; 71; 72]%Z] ws /\
    wire [[65; 66; 67; 68; 69; 70; 71; 72]%Z] ws ++ [69; 70; 71; 72]%Z
      = [65; 66; 67; 68; 69; 70; 71; 72]%Z.
Proof.
  split; [reflexivity|].
  destruct (dcb_write_keeps_bytes 11 11 (fresh_dcb 3)
              [[65; 66; 67; 68; 69; 70; 71; 72]%Z] [W_ok 4; W_err 11] _ _ eq_refl)
    as (_ & Hdirect & _).
  destruct (Hdirect eq_refl) as (ws & _ & Hh & _ & Hw).
  exists ws. split; [exact Hh|exact Hw].
Defined.

(** What the draining loop leaves: the accepted writes [ws] were consumed
    from the write queue in order and summed up, and the loop ended either
    with the queue empty or on the first write that failed. *)
Lemma dcb_drain_loop_run (script : list write_result) :
  forall (dcb : DCB) (n0 n : Z) (dcb' : DCB),
    dcb_drain_loop script dcb n0 = Some (n, dcb') ->
    exists ws : list nat,
      dcb' = set_writeq (foldl gwbuf_consume (writeq dcb) ws) dcb /\
      n = (n0 + Z.of_nat (sum_list ws))%Z /\
      ((exists rest, script = (W_ok <$> ws) ++ rest /\ writeq dcb' = []) \/
       (exists e rest, script = (W_ok <$> ws) ++ W_err e :: rest /\ writeq dcb' <> [])).
Proof.
  induction script as [|r script IH]; intros dcb n0 n dcb' H.
  - destruct dcb as [r f st p rm se wq dq sts nx da md cm].
    destruct wq as [|b wq]; simpl in H; [|discriminate].
    injection H as <- <-. exists []. split; [reflexivity|]. split; [change (sum_list (@nil nat)) with 0; lia|].
    left. exists []. split; reflexivity.
  - destruct dcb as [r0 f st p rm se wq dq sts nx da md cm].
    destruct wq as [|b wq]; simpl in H.
    + injection H as <- <-. exists []. split; [reflexivity|]. split; [change (sum_list (@nil nat)) with 0; lia|].
      left. eexists. split; reflexivity.
    + destruct r as [w|errno].
      * apply IH in H as (ws & Hd & Hn & Hcase).
        exists (w :: ws). split; [exact Hd|].
        split; [change (sum_list (w :: ws)) with (w + sum_list ws); lia|].
        destruct Hcase as [(rest & -> & Hnil)|(e & rest & -> & Hne)].
        -- left. exists rest. split; [reflexivity|exact Hnil].
        -- right. exists e, rest. split; [reflexivity|exact Hne].
      * injection H as <- <-. exists []. split; [reflexivity|]. split; [change (sum_list (@nil nat)) with 0; lia|].
        right. exists errno, script. split; [reflexivity|discriminate].
Qed.

Lemma dcb_drain_loop_returns (script : list write_result) :
  forall (dcb : DCB) (n0 : Z),
    (exists e, W_err e ∈ script) ->
    is_Some (dcb_drain_loop script dcb n0).
Proof.
  induction script as [|r script IH]; intros dcb n0 [e He]; [inversion He|].
  destruct dcb as [r0 f st p rm se wq dq sts nx da md cm].
  destruct wq as [|b wq]; [simpl; eauto|].
  destruct r as [w|errno]; simpl.
  - apply IH. exists e. apply elem_of_cons in He as [He|He]; [discriminate He|exact He].
  - eauto.
Qed.

(** X4: [dcb_drain_writeq] returns whenever some write of the script fails
    (the socket fills up at some point).  It changes the write queue only --
    unlike [dcb_write] it counts no write in the statistics -- and loses no
    byte: what went to the socket followed by what stays queued is what was
    queued, in the same order.  The value returned is the sum of what the
    accepted writes reported, which is the number of bytes that left the
    queue when no write reported more than it was handed; and data stays
    queued only when a write failed. *)
Theorem dcb_drain_writeq_keeps_bytes (dcb : DCB) (script : list write_result) :
  (exists e, W_err e ∈ script) ->
  exists (n : Z) (dcb' : DCB) (ws : list nat) (sent : list Z),
    dcb_drain_writeq dcb script = Some (n, dcb') /\
    dcb' = set_writeq (writeq dcb') dcb /\
    sent ++ concat (writeq dcb') = concat (writeq dcb) /\
    n = Z.of_nat (sum_list ws) /\
    (Z.of_nat (length sent) <= n)%Z /\
    (writes_fit (writeq dcb) ws -> Z.of_nat (length sent) = n) /\
    ((exists rest, script = (W_ok <$> ws) ++ rest /\ writeq dcb' = []) \/
     (exists e rest, script = (W_ok <$> ws) ++ W_err e :: rest /\ writeq dcb' <> [])).
Proof.
  intros Herr. unfold dcb_drain_writeq.
  destruct (dcb_drain_loop_returns script dcb 0 Herr) as [[n dcb'] Hrun].
  destruct (dcb_drain_loop_run _ _ _ _ _ Hrun) as (ws & Hd & Hn & Hcase).
  destruct (foldl_gwbuf_consume_concat ws (writeq dcb)) as (sent & Hsent & Hle & Hfit).
  assert (Hq : writeq dcb' = foldl gwbuf_consume (writeq dcb) ws).
  { rewrite Hd. reflexivity. }
  exists n, dcb', ws, sent. split; [exact Hrun|].
  split; [rewrite Hq; exact Hd|]. split; [rewrite Hq; exact Hsent|].
  split; [lia|]. split; [lia|]. split; [intros Hf; specialize (Hfit Hf); lia|].
  exact Hcase.
Qed.

(** Scenario S2 continued: "EFGH" is queued, the socket takes 3 bytes and
    then would block; 3 is returned and "H" stays queued. *)
Lemma dcb_drain_writeq_keeps_bytes_witness :
  (exists e, W_err e ∈ [W_ok 3; W_err 11%Z]) /\
  dcb_drain_writeq (set_writeq [[69; 70; 71; 72]%Z] (fresh_dcb 3)) [W_ok 3; W_err 11%Z]
    = Some (3%Z, set_writeq [[72%Z]] (fresh_dcb 3)) /\
  exists (n : Z) (dcb' : DCB),
    dcb_drain_writeq (set_writeq [[69; 70; 71; 72]%Z] (fresh_dcb 3)) [W_ok 3; W_err 11%Z]
      = Some (n, dcb') /\
    exists sent : list Z, sent ++ concat (writeq dcb') = [69; 70; 71; 72]%Z.
Proof.
  assert (H : exists e, W_err e ∈ [W_ok 3; W_err 11%Z]).
  { exists 11%Z. right. left. }
  split; [exact H|]. split; [reflexivity|].
  destruct (dcb_drain_writeq_keeps_bytes (set_writeq [[69; 70; 71; 72]%Z] (fresh_dcb 3))
              [W_ok 3; W_err 11%Z] H)
    as (n & dcb' & ws & sent & Hrun & _ & Hsent & _).
  exists n, dcb'. split; [exact Hrun|]. exists sent. exact Hsent.
Defined.

Lemma willing_socket_drains (queue : list GWBUF) :
  forall (dcb : DCB) (n0 : Z),
    writeq dcb = queue ->
    dcb_drain_loop (willing_socket queue) dcb n0 =
      Some ((n0 + Z.of_nat (length (concat queue)))%Z, set_writeq [] dcb).
Proof.
  induction queue as [|b queue IH]; intros dcb n0 Hq.
  - destruct dcb as [r0 f st p rm se wq dq sts nx da md cm]. cbn in Hq. subst wq.
    cbn. f_equal. f_equal. lia.
  - destruct dcb as [r0 f st p rm se wq dq sts nx da md cm]. cbn in Hq. subst wq.
    cbn [willing_socket fmap list_fmap dcb_drain_loop writeq]. fold (willing_socket queue).
    unfold gwbuf_consume. rewrite drop_all.
    cbn [set_writeq dcb_role fd state protocol remote session writeq delayq stats next data memdata command].
    rewrite IH by reflexivity. cbn [concat]. rewrite length_app. f_equal. f_equal. lia.
Qed.

(** X5: when the socket takes every buffer whole, [dcb_drain_writeq] empties
    the write queue and returns the number of bytes that were queued. *)
Theorem dcb_drain_writeq_empties (dcb : DCB) :
  dcb_drain_writeq dcb (willing_socket (writeq dcb)) =
    Some (Z.of_nat (length (concat (writeq dcb))), set_writeq [] dcb).
Proof.
  unfold dcb_drain_writeq. rewrite (willing_socket_drains (writeq dcb) dcb 0 eq_refl).
  reflexivity.
Qed.

(** A socket that takes every buffer whole takes the bytes of the chain. *)
Lemma wire_whole (queue : list GWBUF) : wire queue (length <$> queue) = concat queue.
Proof.
  induction queue as [|b queue IH]; [reflexivity|].
  cbn [fmap list_fmap wire concat]. unfold gwbuf_consume. rewrite drop_all, firstn_all.
  fold (fmap (M := list) (@length Z) queue). rewrite IH. reflexivity.
Qed.

Lemma willing_socket_writes (queue : list GWBUF) :
  willing_socket queue = W_ok <$> (length <$> queue).
Proof. unfold willing_socket. rewrite <- list_fmap_compose. reflexivity. Qed.

(** X6: first in, first out across calls.  A [dcb_write] on the direct-send
    path stopped on a write that failed, after the writes [ws]; a second
    [dcb_write] then makes no write and links its chain behind what the first
    call left; a [dcb_drain_writeq] on a socket that has become willing takes
    every buffer of the write queue whole and empties it.  The bytes the
    writes of the first call took, followed by the bytes the writes of the
    drain took, are the bytes of the first chain followed by the bytes of the
    second. *)
Theorem dcb_write_write_drain (EAGAIN EWOULDBLOCK : Z) (dcb : DCB) (q1 q2 : list GWBUF)
    (script1 script2 : list write_result) (rv1 : Z) (dcb1 : DCB) :
  writeq dcb = [] ->
  dcb_write EAGAIN EWOULDBLOCK dcb q1 script1 = Some (rv1, dcb1) ->
  writeq dcb1 <> [] ->
  exists (ws : list nat) (e : Z) (rest : list write_result) (rv2 : Z) (dcb2 dcb3 : DCB),
    script1 = (W_ok <$> ws) ++ W_err e :: rest /\
    handed q1 ws /\
    writeq dcb1 = foldl gwbuf_consume q1 ws /\
    dcb_write EAGAIN EWOULDBLOCK dcb1 q2 script2 = Some (rv2, dcb2) /\
    writeq dcb2 = writeq dcb1 ++ q2 /\
    n_writes (stats dcb2) = n_writes (stats dcb1) /\
    willing_socket (writeq dcb2) = W_ok <$> (length <$> writeq dcb2) /\
    dcb_drain_writeq dcb2 (willing_socket (writeq dcb2)) =
      Some (Z.of_nat (length (concat (writeq dcb2))), dcb3) /\
    writeq dcb3 = [] /\
    wire q1 ws ++ wire (writeq dcb2) (length <$> writeq dcb2) = concat q1 ++ concat q2.
Proof.
  intros Hq H1 Hne.
  unfold dcb_write in H1. rewrite Hq in H1.
  destruct (dcb_write_loop script1 q1 dcb 0) as [[[q' d1] e]|] eqn:Hloop;
    [|discriminate].
  destruct (dcb_write_loop_wire _ _ _ _ _ _ _ Hloop) as (ws & Hcase & Hh & Hq' & Hw).
  assert (Hwq : writeq dcb1 = q').
  { destruct q'; simpl in H1;
      repeat match type of H1 with context [if ?c then _ else _] => destruct c end;
      injection H1 as _ <-; reflexivity. }
  rewrite <- Hwq in Hcase, Hq', Hw.
  destruct Hcase as [(rest & _ & Hnil)|(rest & Hs & _)]; [contradiction|].
  pose proof (dcb_write_queued EAGAIN EWOULDBLOCK dcb1 q2 script2 Hne) as H2.
  set (dcb2 := incr_n_buffered (set_writeq (writeq dcb1 ++ q2) dcb1)) in *.
  assert (Hq2 : writeq dcb2 = writeq dcb1 ++ q2) by reflexivity.
  eexists ws, e, rest, _, dcb2, _.
  split; [exact Hs|]. split; [exact Hh|]. split; [exact Hq'|].
  split; [exact H2|]. split; [exact Hq2|]. split; [reflexivity|].
  split; [apply willing_socket_writes|].
  split; [apply dcb_drain_writeq_empties|]. split; [reflexivity|].
  rewrite wire_whole, Hq2, concat_app, app_assoc, Hw. reflexivity.
Qed.

(** Scenario S2 continued: "IJ" is written while "EFGH" is queued, and the
    socket then takes both buffers. *)
Lemma dcb_write_write_drain_witness :
  writeq (fresh_dcb 3) = [] /\
  (fun r => (fst r, writeq (snd r))) <$>
    dcb_write 11 11 (fresh_dcb 3) [[65; 66; 67; 68; 69; 70; 71; 72]%Z] [W_ok 4; W_err 11]
    = Some (1%Z, [[69; 70; 71; 72]%Z]) /\
  exists (ws : list nat) (dcb2 dcb3 : DCB),
    writeq dcb2 = [[69; 70; 71; 72]; [73; 74]]%Z /\
    dcb_drain_writeq dcb2 (willing_socket (writeq dcb2)) =
      Some (Z.of_nat (length (concat (writeq dcb2))), dcb3) /\
    writeq dcb3 = [] /\
    wire [[65; 66; 67; 68; 69; 70; 71; 72]%Z] ws
      ++ wire (writeq dcb2) (length <$> writeq dcb2)
      = [65; 66; 67; 68; 69; 70; 71; 72; 73; 74]%Z.
Proof.
  split; [reflexivity|]. split; [reflexivity|].
  destruct (dcb_write_write_drain 11 11 (fresh_dcb 3)
              [[65; 66; 67; 68; 69; 70; 71; 72]%Z] [[73; 74]%Z] [W_ok 4; W_err 11] []
              _ _ eq_refl eq_refl ltac:(discriminate))
    as (ws & e & rest & rv2 & dcb2 & dcb3 & _ & _ & _ & _ & H2 & _ & _ & H3 & H4 & H5).
  exists ws, dcb2, dcb3. split; [exact H2|]. split; [exact H3|].
  split; [exact H4|exact H5].
Defined.

(** ** Bytes on their way in: dcb_read *)


(** ** dcb_alloc *)

Lemma fmap_through {X Y} (g : DCB -> X) (f : DCB -> Y) (k : X -> Y) (x y : option DCB) :
  (forall d, f d = k (g d)) -> g <$> x = g <$> y -> f <$> x = f <$> y.
Proof.
  intros Hk H. destruct x as [dx|], y as [dy|]; cbn in *; try discriminate; [|reflexivity].
  injection H as H. rewrite !Hk, H. reflexivity.
Qed.

Lemma one_dcb_world_registry (s : dcb_state_t) : registry (one_dcb_world s) [1].
Proof.
  split; [|apply NoDup_singleton]. apply lseg_cons. split; [reflexivity|].
  eexists. split; [reflexivity|]. reflexivity.
Qed.

Lemma one_dcb_world_zombie_list (s : dcb_state_t) : zombie_list (one_dcb_world s) [].
Proof. split; [reflexivity|constructor]. Qed.

Lemma one_dcb_world_sessions (s : dcb_state_t) : sessions_present (one_dcb_world s).
Proof.
  intros a d x Hd Hs. unfold one_dcb_world in Hd. cbn [heap] in Hd.
  apply lookup_singleton_Some in Hd as [_ <-]. discriminate Hs.
Qed.

(** X8: [dcb_alloc] with a block from [malloc] returns the block as a DCB in
    state ALLOC with empty queues, zeroed counters and no session, linked
    behind the last DCB of the registry.  The DCBs that were registered keep
    their order, their state, bitmask, session and descriptor; the zombie
    list, the sessions and the calls made are as before. *)
Theorem dcb_alloc_appends (fuel : nat) (a : addr) (raw : DCB) (role : dcb_role_t)
    (w : World) (l z : list addr) :
  registry w l ->
  zombie_list w z ->
  a ∉ l ->
  a ∉ z ->
  length l <= fuel ->
  exists w',
    dcb_alloc fuel (Some (a, raw)) role w = Some (Some a, w') /\
    registry w' (l ++ [a]) /\
    zombie_list w' z /\
    heap w' !! a = Some (dcb_alloc_init role raw) /\
    state_of w' a = Some DCB_STATE_ALLOC /\
    (forall b, b <> a ->
       state_of w' b = state_of w b /\ mask_of w' b = mask_of w b /\
       session <$> heap w' !! b = session <$> heap w !! b /\
       fd <$> heap w' !! b = fd <$> heap w !! b) /\
    sessions w' = sessions w /\ trace w' = trace w.
Proof.
  intros Hreg [Hz Hnd] Hnin Hninz Hfuel.
  destruct (dcb_alloc_run fuel a raw role w l Hreg Hnin Hfuel)
    as (w' & Hrun & Hreg' & Ha & Hfr & Hz' & Hs' & Ht').
  exists w'. split; [exact Hrun|]. split; [exact Hreg'|]. split.
  { split; [|exact Hnd]. rewrite Hz'. eapply lseg_frame; [|exact Hz].
    intros b Hb. apply (fmap_through (set_next None) zombie_link zombie_link);
      [reflexivity|].
    apply Hfr. intros ->. contradiction. }
  split; [exact Ha|]. split; [unfold state_of; rewrite Ha; reflexivity|].
  split; [|split; [exact Hs'|exact Ht']].
  intros b Hb. specialize (Hfr b Hb). unfold state_of, mask_of.
  split; [exact (fmap_through (set_next None) state state _ _ (fun _ => eq_refl) Hfr)|].
  split; [exact (fmap_through (set_next None) (fun d => bitmask (memdata d))
                   (fun d => bitmask (memdata d)) _ _ (fun _ => eq_refl) Hfr)|].
  split; [exact (fmap_through (set_next None) session session _ _ (fun _ => eq_refl) Hfr)|].
  exact (fmap_through (set_next None) fd fd _ _ (fun _ => eq_refl) Hfr).
Qed.

Lemma dcb_alloc_appends_witness :
  exists w',
    dcb_alloc 1 (Some (2, fresh_dcb 9)) DCB_ROLE_SERVICE_LISTENER
      (one_dcb_world DCB_STATE_POLLING) = Some (Some 2, w') /\
    registry w' [1; 2] /\
    state_of w' 2 = Some DCB_STATE_ALLOC /\
    state_of w' 1 = Some DCB_STATE_POLLING.
Proof.
  assert (Hnin : 2 ∉ [1]).
  { intros Hin. apply list_elem_of_singleton in Hin. discriminate Hin. }
  destruct (dcb_alloc_appends 1 2 (fresh_dcb 9) DCB_ROLE_SERVICE_LISTENER
              (one_dcb_world DCB_STATE_POLLING) [1] []
              (one_dcb_world_registry _) (one_dcb_world_zombie_list _) Hnin
              (not_elem_of_nil _) ltac:(simpl; lia))
    as (w' & Hrun & Hreg & _ & _ & Hst & Hfr & _).
  exists w'. split; [exact Hrun|]. split; [exact Hreg|]. split; [exact Hst|].
  destruct (Hfr 1 ltac:(discriminate)) as (H1 & _). rewrite H1. reflexivity.
Defined.

(** ** dcb_final_free *)

Lemma terminate_router_session_exact (dcb : addr) (w : World) (d : DCB) (s : saddr)
    (ses : SESSION) :
  heap w !! dcb = Some d ->
  session d = Some s ->
  sessions w !! s = Some ses ->
  exists w',
    terminate_router_session dcb w = Some (tt, w') /\
    heap w' = heap w /\ allDCBs w' = allDCBs w /\ zombies w' = zombies w /\
    trace w' = trace w ++ router_close ses /\
    sessions w' !! s = Some (match router_close ses with
                             | [] => ses
                             | _ :: _ => set_router_session None ses
                             end) /\
    (forall s', s' <> s -> sessions w' !! s' = sessions w !! s').
Proof.
  intros Hd Hs Hses. unfold terminate_router_session.
  rewrite (bind_run _ _ _ _ _ (deref_run _ _ _ Hd)). rewrite Hs.
  unfold deref_session at 1. unfold bind at 1. rewrite Hses.
  unfold router_close.
  destruct ses as [[svc|] rsn]; cbn [service router_session].
  - destruct svc as [[r|] inst]; cbn [router router_instance].
    + destruct rsn as [rs|].
      * unfold modify_session at 1. unfold bind at 1. rewrite Hses.
        eexists. split; [reflexivity|]. wsimpl.
        split; [reflexivity|]. split; [reflexivity|]. split; [reflexivity|].
        split; [reflexivity|]. split; [apply lookup_insert_eq|].
        intros s' Hne. apply lookup_insert_ne. congruence.
      * exists w. split; [reflexivity|]. rewrite app_nil_r. repeat split; auto.
    + exists w. split; [reflexivity|]. rewrite app_nil_r.
      destruct rsn; repeat split; auto.
  - exists w. split; [reflexivity|]. rewrite app_nil_r. repeat split; auto.
Qed.

(** The calls of a final free of a DCB that has a session, in their order,
    and what the call leaves of the session and of the other DCBs. *)
Lemma dcb_final_free_session (fuel : nat) (dcb : addr) (w : World) (l : list addr)
    (d : DCB) (s : saddr) (ses : SESSION) :
  registry w l ->
  heap w !! dcb = Some d ->
  session d = Some s ->
  sessions w !! s = Some ses ->
  length l < fuel ->
  exists w' evs,
    dcb_final_free fuel dcb w = Some (tt, w') /\
    trace w' = trace w ++ router_close ses ++ E_session_free s :: evs ++ [E_free_dcb dcb] /\
    Forall (fun e => e = E_bitmask_free dcb \/ exists blk, e = E_free blk) evs /\
    sessions w' !! s = Some (match router_close ses with
                             | [] => ses
                             | _ :: _ => set_router_session None ses
                             end) /\
    (forall s', s' <> s -> sessions w' !! s' = sessions w !! s') /\
    session <$> heap w' !! dcb = Some None /\
    (forall b, b <> dcb -> set_next None <$> heap w' !! b = set_next None <$> heap w !! b).
Proof.
  intros Hreg Hd Hs Hses Hfuel. unfold dcb_final_free.
  destruct (registry_unlink_run fuel dcb w l d Hreg Hd Hfuel)
    as (w1 & Hrun1 & Hreg1 & Hag1 & Hz1 & Hs1 & Ht1).
  rewrite (bind_run _ _ _ _ _ Hrun1).
  destruct (agree_lookup _ _ _ _ _ Hag1 Hd) as (d1 & Hd1 & Ed1).
  assert (Hses1 : session d1 = Some s).
  { rewrite <- Hs. change (session (set_next None d1) = session (set_next None d)).
    rewrite Ed1. reflexivity. }
  assert (Hsw1 : sessions w1 !! s = Some ses) by (rewrite Hs1; exact Hses).
  destruct (terminate_router_session_exact dcb w1 d1 s ses Hd1 Hses1 Hsw1)
    as (w2 & Hrun2 & Hh2 & Ha2 & Hz2 & Ht2 & Hs2 & Hs2').
  rewrite (bind_run _ _ _ _ _ Hrun2).
  assert (Hd2 : heap w2 !! dcb = Some d1) by (rewrite Hh2; exact Hd1).
  rewrite (bind_run _ _ _ _ _ (deref_run _ _ _ Hd2)). rewrite Hses1.
  rewrite bind_bind, (bind_run _ _ _ _ _ (modify_run _ _ _ _ Hd2)).
  unfold emit at 1. unfold bind at 1. rewrite frees_run.
  eexists _, (match protocol d1 with Some b => [E_free b] | None => [] end
              ++ match data d1 with Some b => [E_free b] | None => [] end
              ++ match remote d1 with Some b => [E_free b] | None => [] end
              ++ [E_bitmask_free dcb]).
  split; [reflexivity|]. wsimpl. split.
  { rewrite Ht2, Ht1. destruct (protocol d1), (data d1), (remote d1);
      rewrite <- !app_assoc; reflexivity. }
  split.
  { destruct (protocol d1), (data d1), (remote d1); cbn [app];
      repeat (apply List.Forall_cons;
              [first [left; reflexivity | right; eexists; reflexivity]|]);
      apply List.Forall_nil. }
  split; [exact Hs2|]. split; [intros s' Hne; rewrite Hs2' by exact Hne; rewrite Hs1; reflexivity|].
  split; [rewrite lookup_insert_eq; reflexivity|].
  intros b Hb. rewrite lookup_insert_ne by congruence. rewrite Hh2. apply Hag1.
Qed.

Lemma count_occ_frees (evs : list event) (dcb : addr) (e : event) :
  Forall (fun x => x = E_bitmask_free dcb \/ exists blk, x = E_free blk) evs ->
  e <> E_bitmask_free dcb ->
  (forall blk, e <> E_free blk) ->
  count_occ event_eq_dec evs e = 0.
Proof.
  intros Hall H1 H2. apply count_occ_not_In. intros Hin.
  apply list_elem_of_In in Hin.
  rewrite Forall_forall in Hall. destruct (Hall e Hin) as [E|[blk E]].
  - exact (H1 E).
  - exact (H2 blk E).
Qed.

Lemma dcb_final_free_functional (fuel : nat) (dcb : addr) (w w1 w2 : World) :
  dcb_final_free fuel dcb w = Some (tt, w1) ->
  dcb_final_free fuel dcb w = Some (tt, w2) ->
  w1 = w2.
Proof. intros H1 H2. rewrite H1 in H2. injection H2 as H2. exact H2. Qed.

(** X9: [dcb_final_free] takes the DCB out of the registry, which keeps the
    order of the others, makes teardown calls and ends with [free(dcb)].  It
    closes no descriptor, changes no state -- the DCB is not marked FREED --
    and does not touch the zombie list or any bitmask. *)
Theorem dcb_final_free_unlinks (fuel : nat) (dcb : addr) (w : World) (l z : list addr)
    (d : DCB) :
  registry w l ->
  zombie_list w z ->
  heap w !! dcb = Some d ->
  sessions_present w ->
  length l < fuel ->
  exists w' evs,
    dcb_final_free fuel dcb w = Some (tt, w') /\
    registry w' (filter (fun x => x <> dcb) l) /\
    zombie_list w' z /\
    (forall a, state_of w' a = state_of w a /\ mask_of w' a = mask_of w a /\
               fd <$> heap w' !! a = fd <$> heap w !! a) /\
    trace w' = trace w ++ evs ++ [E_free_dcb dcb] /\
    Forall (fun e => teardown_event e = true) evs /\
    (forall v, calls (E_close v) w' = calls (E_close v) w) /\
    (forall a, calls (E_free_dcb a) w' =
               calls (E_free_dcb a) w + if decide (a = dcb) then 1 else 0) /\
    sessions_present w'.
Proof.
  intros Hreg Hzl Hd Hsp Hfuel.
  destruct (dcb_final_free_run fuel dcb w l d Hreg Hd Hsp Hfuel)
    as (w' & evs & Hrun & Hreg' & Hag & Hz & Ht & Hev & Hsp').
  exists w', evs. split; [exact Hrun|]. split; [exact Hreg'|]. split.
  { apply (zombie_list_agree w w' z Hzl); [|exact Hz].
    apply (agree_weaken (fun x => (state x, memdata x, fd x)) zombie_link
             (fun t => mm_next (snd (fst t)))); [reflexivity|exact Hag]. }
  split.
  { intros a. unfold state_of, mask_of. split; [|split].
    - apply (agree_weaken (fun x => (state x, memdata x, fd x)) state
               (fun t => fst (fst t)) _ _ (fun _ => eq_refl) Hag).
    - apply (agree_weaken (fun x => (state x, memdata x, fd x))
               (fun x => bitmask (memdata x))
               (fun t => bitmask (snd (fst t))) _ _ (fun _ => eq_refl) Hag).
    - apply (agree_weaken (fun x => (state x, memdata x, fd x)) fd
               (fun t => snd t) _ _ (fun _ => eq_refl) Hag). }
  split; [exact Ht|]. split; [exact Hev|]. split; [|split; [|exact Hsp']].
  - intros v. unfold calls. rewrite Ht, !count_occ_app.
    rewrite (count_occ_teardown evs (E_close v) Hev eq_refl), count_occ_one.
    rewrite decide_False by discriminate. lia.
  - intros a. exact (calls_final_free w w' evs dcb a Ht Hev).
Qed.

Lemma dcb_final_free_unlinks_witness :
  exists w',
    dcb_final_free 2 1 (one_dcb_world DCB_STATE_POLLING) = Some (tt, w') /\
    registry w' [] /\
    state_of w' 1 = Some DCB_STATE_POLLING /\
    calls (E_close 3) w' = 0.
Proof.
  destruct (dcb_final_free_unlinks 2 1 (one_dcb_world DCB_STATE_POLLING) [1] []
              (set_state DCB_STATE_POLLING (fresh_dcb 3))
              (one_dcb_world_registry _) (one_dcb_world_zombie_list _) eq_refl
              (one_dcb_world_sessions _) ltac:(simpl; lia))
    as (w' & evs & Hrun & Hreg & _ & Hfr & _ & _ & Hc & _).
  exists w'. split; [exact Hrun|]. split; [exact Hreg|].
  split; [rewrite (proj1 (Hfr 1)); reflexivity|]. rewrite Hc. reflexivity.
Defined.

Lemma router_close_some (ses : SESSION) (svc : SERVICE) (r rs : nat) :
  service ses = Some svc -> router svc = Some r -> router_session ses = Some rs ->
  router_close ses = [E_closeSession r (router_instance svc) rs].
Proof. intros H1 H2 H3. unfold router_close. rewrite H1, H2, H3. reflexivity. Qed.

Lemma router_close_closed (ses : SESSION) :
  router_close (set_router_session None ses) = [].
Proof.
  unfold router_close. cbn [service router_session set_router_session].
  destruct (service ses) as [svc|]; [|reflexivity]. destruct (router svc); reflexivity.
Qed.

(** X10: the final free of a DCB whose session has a router and a router
    session hands the router session to the router's [closeSession], then
    frees the session, then the blocks the DCB owns, and releases the DCB
    last; afterwards the session has no router session and the DCB no
    session. *)
Theorem dcb_final_free_closes_session (fuel : nat) (dcb : addr) (w : World)
    (l : list addr) (d : DCB) (s : saddr) (ses : SESSION) (svc : SERVICE) (r rs : nat) :
  registry w l ->
  heap w !! dcb = Some d ->
  session d = Some s ->
  sessions w !! s = Some ses ->
  service ses = Some svc ->
  router svc = Some r ->
  router_session ses = Some rs ->
  length l < fuel ->
  exists w' evs,
    dcb_final_free fuel dcb w = Some (tt, w') /\
    trace w' = trace w ++ E_closeSession r (router_instance svc) rs
                       :: E_session_free s :: evs ++ [E_free_dcb dcb] /\
    Forall (fun e => e = E_bitmask_free dcb \/ exists blk, e = E_free blk) evs /\
    sessions w' !! s = Some (mkSESSION (Some svc) None) /\
    session <$> heap w' !! dcb = Some None.
Proof.
  intros Hreg Hd Hs Hses Hsvc Hr Hrs Hfuel.
  destruct (dcb_final_free_session fuel dcb w l d s ses Hreg Hd Hs Hses Hfuel)
    as (w' & evs & Hrun & Ht & Hev & Hs' & _ & Hds & _).
  rewrite (router_close_some ses svc r rs Hsvc Hr Hrs) in Ht, Hs'.
  exists w', evs. split; [exact Hrun|]. split; [exact Ht|]. split; [exact Hev|].
  split; [|exact Hds]. rewrite Hs'. unfold set_router_session. rewrite Hsvc. reflexivity.
Qed.

Lemma shared_session_world_registry : registry shared_session_world [1; 2].
Proof.
  split.
  - apply lseg_cons. split; [reflexivity|]. eexists. split; [reflexivity|].
    apply lseg_cons. split; [reflexivity|]. eexists. split; [reflexivity|]. reflexivity.
  - apply NoDup_cons. split; [|apply NoDup_singleton].
    intros H. apply list_elem_of_singleton in H. discriminate H.
Qed.

Lemma dcb_final_free_closes_session_witness :
  exists w' evs,
    dcb_final_free 3 1 shared_session_world = Some (tt, w') /\
    trace w' = E_closeSession 9 8 4 :: E_session_free 5 :: evs ++ [E_free_dcb 1] /\
    sessions w' !! 5 = Some (mkSESSION (Some (mkSERVICE (Some 9) 8)) None).
Proof.
  destruct (dcb_final_free_closes_session 3 1 shared_session_world [1; 2] _ 5 _ _ 9 4
              shared_session_world_registry eq_refl eq_refl eq_refl eq_refl eq_refl eq_refl
              ltac:(simpl; lia))
    as (w' & evs & Hrun & Ht & _ & Hs & _).
  exists w', evs. split; [exact Hrun|]. split; [exact Ht|exact Hs].
Defined.

(** X11: two DCBs of one session, the client's and the backend's, are finally
    freed one after the other.  The router session is handed to
    [closeSession] by the first free only, since the first free clears it;
    [session_free] is called by both. *)
Theorem dcb_final_free_shared_session (fuel : nat) (a b : addr) (w : World)
    (l : list addr) (da db : DCB) (s : saddr) (ses : SESSION) (svc : SERVICE)
    (r rs : nat) :
  registry w l ->
  sessions_present w ->
  heap w !! a = Some da ->
  heap w !! b = Some db ->
  a <> b ->
  session da = Some s ->
  session db = Some s ->
  sessions w !! s = Some ses ->
  service ses = Some svc ->
  router svc = Some r ->
  router_session ses = Some rs ->
  length l < fuel ->
  exists w1 w2 evs1 evs2,
    dcb_final_free fuel a w = Some (tt, w1) /\
    dcb_final_free fuel b w1 = Some (tt, w2) /\
    trace w2 = trace w ++ E_closeSession r (router_instance svc) rs
                       :: E_session_free s :: evs1
                       ++ E_free_dcb a :: E_session_free s :: evs2 ++ [E_free_dcb b] /\
    Forall (fun e => e = E_bitmask_free a \/ exists blk, e = E_free blk) evs1 /\
    Forall (fun e => e = E_bitmask_free b \/ exists blk, e = E_free blk) evs2 /\
    (forall r' i' rs', calls (E_closeSession r' i' rs') w2 =
       calls (E_closeSession r' i' rs') w +
       if decide ((r', i', rs') = (r, router_instance svc, rs)) then 1 else 0) /\
    calls (E_session_free s) w2 = calls (E_session_free s) w + 2 /\
    registry w2 (filter (fun x => x <> b) (filter (fun x => x <> a) l)).
Proof.
  intros Hreg Hsp Ha Hb Hab Hsa Hsb Hses Hsvc Hr Hrs Hfuel.
  destruct (dcb_final_free_session fuel a w l da s ses Hreg Ha Hsa Hses Hfuel)
    as (w1 & evs1 & Hrun1 & Ht1 & Hev1 & Hs1 & _ & _ & Hfr1).
  destruct (dcb_final_free_run fuel a w l da Hreg Ha Hsp Hfuel)
    as (w1' & _ & Hrun1' & Hreg1 & _ & _ & _ & _ & Hsp1).
  rewrite <- (dcb_final_free_functional _ _ _ _ _ Hrun1 Hrun1') in Hreg1, Hsp1. clear Hrun1'.
  rewrite (router_close_some ses svc r rs Hsvc Hr Hrs) in Ht1, Hs1.
  assert (Hb1 : exists db1, heap w1 !! b = Some db1 /\ session db1 = Some s).
  { specialize (Hfr1 b ltac:(congruence)). rewrite Hb in Hfr1.
    destruct (heap w1 !! b) as [db1|]; [|discriminate Hfr1].
    exists db1. split; [reflexivity|]. rewrite <- Hsb.
    assert (E : Some (session db1) = Some (session db)); [|congruence].
    change (session <$> (set_next None <$> Some db1)
            = session <$> (set_next None <$> Some db)).
    rewrite Hfr1. reflexivity. }
  destruct Hb1 as (db1 & Hb1 & Hsb1).
  assert (Hfuel1 : length (filter (fun x => x <> a) l) < fuel).
  { pose proof (length_filter (fun x => x <> a) l). lia. }
  destruct (dcb_final_free_session fuel b w1 _ db1 s _ Hreg1 Hb1 Hsb1 Hs1 Hfuel1)
    as (w2 & evs2 & Hrun2 & Ht2 & Hev2 & _).
  destruct (dcb_final_free_run fuel b w1 _ db1 Hreg1 Hb1 Hsp1 Hfuel1)
    as (w2' & _ & Hrun2' & Hreg2 & _).
  rewrite <- (dcb_final_free_functional _ _ _ _ _ Hrun2 Hrun2') in Hreg2. clear Hrun2'.
  rewrite router_close_closed in Ht2. cbn [app] in Ht2.
  assert (Ht : trace w2 = trace w ++ E_closeSession r (router_instance svc) rs
                       :: E_session_free s :: evs1
                       ++ E_free_dcb a :: E_session_free s :: evs2 ++ [E_free_dcb b]).
  { rewrite Ht2, Ht1. rewrite <- !app_assoc. cbn [app]. rewrite <- !app_assoc. reflexivity. }
  exists w1, w2, evs1, evs2. split; [exact Hrun1|]. split; [exact Hrun2|].
  split; [exact Ht|]. split; [exact Hev1|]. split; [exact Hev2|].
  split; [|split; [|exact Hreg2]].
  - intros r' i' rs'. unfold calls. rewrite Ht.
    rewrite count_occ_app. cbn [count_occ]. rewrite count_occ_app. cbn [count_occ].
    rewrite count_occ_app. cbn [count_occ].
    rewrite (count_occ_frees evs1 a) by (try exact Hev1; intros; discriminate).
    rewrite (count_occ_frees evs2 b) by (try exact Hev2; intros; discriminate).
    repeat match goal with
           | |- context [event_eq_dec ?x ?y] =>
               destruct (event_eq_dec x y) as [?|?]; try discriminate
           end;
      first [rewrite decide_True by congruence; lia
            |rewrite decide_False by congruence; lia].
  - unfold calls. rewrite Ht.
    rewrite count_occ_app. cbn [count_occ]. rewrite count_occ_app. cbn [count_occ].
    rewrite count_occ_app. cbn [count_occ].
    rewrite (count_occ_frees evs1 a) by (try exact Hev1; intros; discriminate).
    rewrite (count_occ_frees evs2 b) by (try exact Hev2; intros; discriminate).
    repeat match goal with
           | |- context [event_eq_dec ?x ?y] =>
               destruct (event_eq_dec x y) as [?|?]; try discriminate;
               try contradiction
           end.
    lia.
Qed.

Lemma shared_session_world_sessions : sessions_present shared_session_world.
Proof.
  intros a d s Hd Hs. unfold shared_session_world in *. cbn [heap sessions] in *.
  destruct (decide (a = 1)) as [->|H1].
  - rewrite lookup_insert_eq in Hd. injection Hd as <-. injection Hs as <-.
    eexists. reflexivity.
  - rewrite lookup_insert_ne in Hd by congruence.
    apply lookup_singleton_Some in Hd as [_ <-]. injection Hs as <-.
    eexists. reflexivity.
Qed.

Lemma dcb_final_free_shared_session_witness :
  exists w1 w2,
    dcb_final_free 3 1 shared_session_world = Some (tt, w1) /\
    dcb_final_free 3 2 w1 = Some (tt, w2) /\
    calls (E_closeSession 9 8 4) w2 = 1 /\
    calls (E_session_free 5) w2 = 2 /\
    registry w2 [].
Proof.
  destruct (dcb_final_free_shared_session 3 1 2 shared_session_world [1; 2] _ _ 5 _ _ 9 4
              shared_session_world_registry shared_session_world_sessions
              eq_refl eq_refl ltac:(discriminate) eq_refl eq_refl eq_refl eq_refl eq_refl
              eq_refl ltac:(simpl; lia))
    as (w1 & w2 & evs1 & evs2 & Hrun1 & Hrun2 & _ & _ & _ & Hc & Hf & Hreg).
  exists w1, w2. split; [exact Hrun1|]. split; [exact Hrun2|].
  split; [rewrite Hc; reflexivity|]. split; [rewrite Hf; reflexivity|]. exact Hreg.
Defined.

(** ** dcb_close *)

(** The first close of a polling DCB, with what it leaves untouched. *)
Lemma dcb_close_polling_frame (fuel : nat) (junk : bool) (poll_bitmask : N) (dcb : addr)
    (w : World) (l : list addr) (d : DCB) :
  zombie_list w l ->
  heap w !! dcb = Some d ->
  state d = DCB_STATE_POLLING ->
  dcb ∉ l ->
  zombie_link d = None ->
  length l <= fuel ->
  exists w',
    dcb_close fuel junk poll_bitmask dcb w = Some (tt, w') /\
    zombie_list w' (l ++ [dcb]) /\
    state_of w' dcb = Some DCB_STATE_ZOMBIE /\
    mask_of w' dcb = Some poll_bitmask /\
    (forall a, a <> dcb -> state_of w' a = state_of w a /\ mask_of w' a = mask_of w a) /\
    agree (fun x => (next x, session x, fd x)) (heap w) (heap w') /\
    trace w' = trace w ++ [E_poll_remove_dcb dcb] /\
    allDCBs w' = allDCBs w /\ sessions w' = sessions w.
Proof.
  intros [Hl Hnd] Hd Hst Hnin Hlink Hfuel.
  unfold dcb_close. rewrite (bind_run _ _ _ _ _ (deref_run _ _ _ Hd)).
  assert (Hleg : legal_transition (state d) DCB_STATE_NOPOLLING = true)
    by (rewrite Hst; reflexivity).
  rewrite (dcb_set_state_nomutex_legal _ _ _ Hleg). rewrite Hst. simpl idempotent_transition.
  cbv iota.
  rewrite (bind_run _ _ _ _ _ (modify_run _ _ _ _ Hd)).
  simpl read_flag. simpl when.
  rewrite bind_bind. unfold emit at 1. unfold bind at 1.
  set (d1 := set_state DCB_STATE_NOPOLLING d).
  set (w1 := set_trace _ _).
  assert (Hd1 : heap w1 !! dcb = Some d1) by (simpl; apply lookup_insert_eq).
  rewrite (bind_run _ _ _ _ _ (modify_run _ _ _ _ Hd1)).
  set (d2 := set_bitmask (bitmask_copy poll_bitmask) d1).
  set (w2 := set_heap _ w1).
  assert (Hd2 : heap w2 !! dcb = Some d2) by (simpl; apply lookup_insert_eq).
  rewrite (bind_run _ _ _ _ _ (deref_run _ _ _ Hd2)).
  rewrite bool_decide_eq_true_2 by reflexivity. simpl when.
  assert (Hother : forall a, a <> dcb -> heap w2 !! a = heap w !! a).
  { intros a Hne. simpl. rewrite !lookup_insert_ne by congruence. reflexivity. }
  assert (Hzl2 : zombie_list w2 l).
  { split; [|exact Hnd]. simpl. eapply lseg_frame; [|exact Hl].
    intros a _. destruct (decide (a = dcb)) as [->|Hne].
    - rewrite lookup_insert_eq, Hd. reflexivity.
    - rewrite !lookup_insert_ne by congruence. reflexivity. }
  destruct (dcb_add_to_zombieslist_run fuel dcb w2 l d2 Hzl2 Hd2 (fun _ => Hlink) Hfuel
              ltac:(discriminate)) as (w' & Hrun & Hzl' & Hstate & Hsto & Hag & Hall & Hses & Htr).
  exists w'. split; [exact Hrun|].
  rewrite decide_False in Hzl' by exact Hnin.
  split; [exact Hzl'|]. split; [exact Hstate|]. split.
  { destruct (agree_lookup _ _ _ _ _ Hag Hd2) as (d' & Hd' & E).
    unfold mask_of. rewrite Hd'. simpl. injection E as E _ _ _. rewrite E. reflexivity. }
  split.
  { intros a Hne. split.
    - rewrite (Hsto a Hne). unfold state_of. rewrite (Hother a Hne). reflexivity.
    - unfold mask_of. rewrite <- (Hother a Hne).
      apply (agree_weaken (fun x => (bitmask (memdata x), next x, session x, fd x))
               (fun x => bitmask (memdata x)) (fun t => fst (fst (fst t)))
               _ _ (fun _ => eq_refl) Hag). }
  split.
  { intros a.
    rewrite (agree_weaken (fun x => (bitmask (memdata x), next x, session x, fd x))
               (fun x => (next x, session x, fd x))
               (fun t => (snd (fst (fst t)), snd (fst t), snd t))
               _ _ (fun _ => eq_refl) Hag a).
    destruct (decide (a = dcb)) as [->|Hne].
    - rewrite Hd2, Hd. reflexivity.
    - rewrite (Hother a Hne). reflexivity. }
  rewrite Htr, Hall, Hses. simpl. auto.
Qed.

(** X12: the first close of a polling DCB does not depend on what the
    uninitialised flag held.  The descriptor is taken out of the poll set
    once, the DCB gets the bitmask of the polling threads and becomes the last
    zombie; the registry, the sessions, the descriptors and the state and
    bitmask of every other DCB are as before, and nothing is closed or freed
    yet. *)
Theorem dcb_close_first_close (fuel : nat) (junk : bool) (poll_bitmask : N) (dcb : addr)
    (w : World) (l Rg : list addr) (d : DCB) :
  zombie_list w l ->
  registry w Rg ->
  sessions_present w ->
  heap w !! dcb = Some d ->
  state d = DCB_STATE_POLLING ->
  dcb ∉ l ->
  zombie_link d = None ->
  length l <= fuel ->
  exists w',
    dcb_close fuel junk poll_bitmask dcb w = Some (tt, w') /\
    dcb_close fuel (negb junk) poll_bitmask dcb w = Some (tt, w') /\
    zombie_list w' (l ++ [dcb]) /\
    registry w' Rg /\
    sessions_present w' /\
    state_of w' dcb = Some DCB_STATE_ZOMBIE /\
    mask_of w' dcb = Some poll_bitmask /\
    (forall a, a <> dcb -> state_of w' a = state_of w a /\ mask_of w' a = mask_of w a) /\
    (forall a, fd_of w' a = fd_of w a) /\
    trace w' = trace w ++ [E_poll_remove_dcb dcb].
Proof.
  intros Hzl Hreg Hsp Hd Hst Hnin Hlink Hfuel.
  destruct (dcb_close_polling_frame fuel junk poll_bitmask dcb w l d Hzl Hd Hst Hnin Hlink Hfuel)
    as (w' & Hrun & Hzl' & Hs' & Hm' & Hoth & Hag & Ht & Hall & Hses).
  destruct (dcb_close_polling_frame fuel (negb junk) poll_bitmask dcb w l d Hzl Hd Hst Hnin
              Hlink Hfuel) as (w'' & Hrun' & _).
  assert (Hsame : w'' = w').
  { unfold dcb_close in Hrun, Hrun'.
    rewrite (bind_run _ _ _ _ _ (deref_run _ _ _ Hd)) in Hrun.
    rewrite (bind_run _ _ _ _ _ (deref_run _ _ _ Hd)) in Hrun'.
    assert (Hleg : legal_transition (state d) DCB_STATE_NOPOLLING = true)
      by (rewrite Hst; reflexivity).
    rewrite (dcb_set_state_nomutex_legal _ _ _ Hleg) in Hrun, Hrun'.
    cbn [read_flag] in Hrun, Hrun'. rewrite Hrun in Hrun'. injection Hrun' as <-.
    reflexivity. }
  subst w''.
  exists w'. split; [exact Hrun|]. split; [exact Hrun'|]. split; [exact Hzl'|].
  split.
  { apply (registry_agree w w' Rg Hreg); [|exact Hall].
    apply (agree_weaken (fun x => (next x, session x, fd x)) next
             (fun t => fst (fst t)) _ _ (fun _ => eq_refl) Hag). }
  split.
  { apply (sessions_present_agree w w' Hsp); [|exact Hses].
    apply (agree_weaken (fun x => (next x, session x, fd x)) session
             (fun t => snd (fst t)) _ _ (fun _ => eq_refl) Hag). }
  split; [exact Hs'|]. split; [exact Hm'|]. split; [exact Hoth|].
  split; [|exact Ht].
  intros a. unfold fd_of.
  pose proof (agree_weaken (fun x => (next x, session x, fd x)) fd
                (fun t => snd t) _ _ (fun _ => eq_refl) Hag a) as Hfd.
  destruct (heap w' !! a), (heap w !! a); cbn in Hfd; try discriminate;
    [injection Hfd as Hfd; exact Hfd|reflexivity].
Qed.

Lemma dcb_close_first_close_witness :
  exists w',
    dcb_close 1 true 7 1 (one_dcb_world DCB_STATE_POLLING) = Some (tt, w') /\
    dcb_close 1 false 7 1 (one_dcb_world DCB_STATE_POLLING) = Some (tt, w') /\
    zombie_list w' [1] /\
    registry w' [1] /\
    trace w' = [E_poll_remove_dcb 1].
Proof.
  destruct (dcb_close_first_close 1 true 7 1 (one_dcb_world DCB_STATE_POLLING) [] [1] _
              (one_dcb_world_zombie_list _) (one_dcb_world_registry _)
              (one_dcb_world_sessions _) eq_refl eq_refl (not_elem_of_nil _) eq_refl
              ltac:(simpl; lia))
    as (w' & H1 & H2 & Hzl & Hreg & _ & _ & _ & _ & _ & Ht).
  exists w'. split; [exact H1|]. split; [exact H2|]. split; [exact Hzl|].
  split; [exact Hreg|exact Ht].
Defined.

(** X13: [dcb_close] closes a DCB only from the states that may go to
    NOPOLLING.  A DCB in state ALLOC, LISTENING, ZOMBIE, DISCONNECTED or FREED
    keeps its state and does not reach the zombie list; since the refused
    request leaves the flag unassigned, the call either does nothing at all
    or still takes the descriptor out of the poll set and overwrites the
    bitmask, depending on what the flag held. *)
Theorem dcb_close_refused (fuel : nat) (junk : bool) (poll_bitmask : N) (dcb : addr)
    (w : World) (d : DCB) :
  heap w !! dcb = Some d ->
  legal_transition (state d) DCB_STATE_NOPOLLING = false ->
  state d <> DCB_STATE_NOPOLLING ->
  exists w',
    dcb_close fuel junk poll_bitmask dcb w = Some (tt, w') /\
    w' = (if junk
          then set_heap (<[dcb := set_bitmask poll_bitmask d]> (heap w))
                 (set_trace (trace w ++ [E_poll_remove_dcb dcb]) w)
          else w) /\
    zombies w' = zombies w /\
    state_of w' dcb = Some (state d) /\
    (forall a, state_of w' a = state_of w a).
Proof.
  intros Hd Hill Hnp. unfold dcb_close.
  rewrite (bind_run _ _ _ _ _ (deref_run _ _ _ Hd)).
  rewrite (dcb_set_state_nomutex_illegal _ _ _ Hill).
  rewrite (bind_run _ _ _ _ _ (modify_run _ _ _ _ Hd)).
  cbn [read_flag].
  assert (Hw : set_heap (<[dcb := d]> (heap w)) w = w).
  { rewrite insert_id by exact Hd. apply set_heap_same. }
  rewrite Hw. destruct junk; cbn [when].
  - rewrite bind_bind. unfold emit at 1. unfold bind at 1.
    set (w1 := set_trace _ w).
    assert (Hd1 : heap w1 !! dcb = Some d) by exact Hd.
    rewrite (bind_run _ _ _ _ _ (modify_run _ _ _ _ Hd1)).
    set (w2 := set_heap _ w1).
    assert (Hd2 : heap w2 !! dcb = Some (set_bitmask (bitmask_copy poll_bitmask) d))
      by apply lookup_insert_eq.
    rewrite (bind_run _ _ _ _ _ (deref_run _ _ _ Hd2)).
    rewrite bool_decide_eq_false_2 by exact Hnp. cbn [when].
    exists w2. split; [reflexivity|]. split; [reflexivity|]. split; [reflexivity|].
    split; [unfold state_of; rewrite Hd2; reflexivity|].
    intros a. unfold state_of. destruct (decide (a = dcb)) as [->|Hne].
    + rewrite Hd2, Hd. reflexivity.
    + unfold w2, w1. wsimpl. rewrite lookup_insert_ne by congruence. reflexivity.
  - unfold ret at 1. unfold bind at 1.
    rewrite (bind_run _ _ _ _ _ (deref_run _ _ _ Hd)).
    rewrite bool_decide_eq_false_2 by exact Hnp. cbn [when].
    exists w. split; [reflexivity|]. split; [reflexivity|]. split; [reflexivity|].
    split; [unfold state_of; rewrite Hd; reflexivity|]. reflexivity.
Qed.

Lemma dcb_close_refused_witness :
  exists w',
    dcb_close 1 true 7 1 (one_dcb_world DCB_STATE_LISTENING) = Some (tt, w') /\
    zombies w' = None /\
    state_of w' 1 = Some DCB_STATE_LISTENING /\
    trace w' = [E_poll_remove_dcb 1].
Proof.
  destruct (dcb_close_refused 1 true 7 1 (one_dcb_world DCB_STATE_LISTENING) _
              eq_refl eq_refl ltac:(discriminate))
    as (w' & Hrun & Hw & Hz & Hs & _).
  exists w'. split; [exact Hrun|]. split; [exact Hz|]. split; [exact Hs|].
  rewrite Hw. reflexivity.
Defined.


(** ** dcb_process_zombies *)

Lemma bitmask_clear_unset (m t : N) :
  N.testbit m t = false -> bitmask_clear m t = m.
Proof.
  intros H. unfold bitmask_clear. apply N.bits_inj. intros i.
  rewrite N.clearbit_eqb. destruct (N.eqb_spec t i) as [->|Hne].
  - rewrite H. reflexivity.
  - rewrite andb_true_r. reflexivity.
Qed.

Lemma clear_thread_unset (t : N) (d : DCB) :
  N.testbit (bitmask (memdata d)) t = false -> clear_thread t d = d.
Proof.
  intros H. unfold clear_thread. rewrite (bitmask_clear_unset _ _ H).
  destruct d as [? ? ? ? ? ? ? ? ? ? ? [? ?] ?]. reflexivity.
Qed.

(** A scan that finds the bit of the thread in no bitmask, and no bitmask
    empty, writes back what it read and moves nothing. *)
Lemma zombies_scan_idle (threadid : N) (l : list addr) :
  forall (fuel : nat) (w : World) (p lptr dcb_list dcb : option addr),
    lseg zombie_link (heap w) p None l ->
    (forall a, a ∈ l ->
       exists m, mask_of w a = Some m /\ N.testbit m threadid = false /\ m <> 0%N) ->
    length l < fuel ->
    zombies_scan fuel threadid p lptr dcb_list dcb w = Some (dcb_list, w).
Proof.
  induction l as [|a l IH]; intros fuel w p lptr dcb_list dcb Hl Hm Hfuel.
  - apply lseg_nil in Hl. subst p. destruct fuel; [simpl in Hfuel; lia|]. reflexivity.
  - apply lseg_cons in Hl as (-> & d & Hd & Hl).
    destruct fuel as [|fuel]; [simpl in Hfuel; lia|]. simpl in Hfuel.
    destruct (Hm a ltac:(left)) as (m & Hma & Hbit & Hnz).
    unfold mask_of in Hma. rewrite Hd in Hma. cbn in Hma. injection Hma as Hma.
    rewrite <- Hma in Hbit, Hnz.
    cbn [zombies_scan].
    rewrite (bind_run _ _ _ _ _ (modify_run _ _ _ _ Hd)).
    rewrite (clear_thread_unset _ _ Hbit), insert_id by exact Hd. rewrite set_heap_same.
    rewrite (bind_run _ _ _ _ _ (deref_run _ _ _ Hd)).
    assert (Hclear : bitmask_isallclear (bitmask (memdata d)) = false).
    { unfold bitmask_isallclear. apply N.eqb_neq. exact Hnz. }
    rewrite Hclear. apply IH; [exact Hl| |lia].
    intros x Hx. apply Hm. right. exact Hx.
Qed.

(** X14: a polling thread whose bit is set in no bitmask of the zombie list
    (it has made its call since the DCBs were closed, or was not polling when
    they were), where no bitmask of the list is empty, finds nothing to do:
    its call of [dcb_process_zombies] leaves the zombie list, the registry,
    every DCB and the sessions exactly as they were and makes no call
    outside the file.  No DCB is released by such a call, so that nothing is
    read after a free. *)
Theorem dcb_process_zombies_again (fuel : nat) (after_free : addr -> DCB -> option addr)
    (threadid : N) (w : World) (l : list addr) :
  zombie_list w l ->
  (forall a, a ∈ l ->
     exists m, mask_of w a = Some m /\ N.testbit m threadid = false /\ m <> 0%N) ->
  length l < fuel ->
  dcb_process_zombies fuel after_free threadid w = Some (tt, w).
Proof.
  intros [Hl _] Hm Hfuel. unfold dcb_process_zombies.
  unfold read_zombies at 1. unfold bind at 1.
  destruct (zombies w) as [z|] eqn:Hz; [|reflexivity].
  rewrite (bind_run _ _ _ _ _
             (zombies_scan_idle threadid l fuel w (Some z) None None None Hl Hm Hfuel)).
  destruct fuel; [lia|]. reflexivity.
Qed.

Lemma zombie_world_zombie_list : zombie_list zombie_world [1].
Proof.
  split; [|apply NoDup_singleton]. apply lseg_cons. split; [reflexivity|].
  eexists. split; [reflexivity|]. reflexivity.
Qed.

(** The zombie of scenario S4 carries the bits of the threads 0, 1 and 2: a
    call by thread 3 leaves the world as it is. *)
Lemma dcb_process_zombies_again_witness :
  dcb_process_zombies 2 block_cleared 3 zombie_world = Some (tt, zombie_world).
Proof.
  apply (dcb_process_zombies_again 2 block_cleared 3 zombie_world [1]
           zombie_world_zombie_list).
  - intros a Ha. apply list_elem_of_singleton in Ha. subst a.
    exists 7%N. split; [reflexivity|]. split; [reflexivity|discriminate].
  - simpl. lia.
Defined.

(** ** From the close to the release *)

Lemma count_occ_reap_events_other (w : World) (l : list addr) (e : event) :
  (forall v, e <> E_close v) ->
  (forall a, e <> E_free_dcb a) ->
  count_occ event_eq_dec (reap_events w l) e = 0.
Proof.
  intros H1 H2. apply count_occ_not_In. intros Hin. unfold reap_events in Hin.
  apply in_flat_map in Hin as (x & _ & Hx).
  destruct Hx as [Hx|[Hx|[]]]; [exact (H1 _ (eq_sym Hx))|exact (H2 _ (eq_sym Hx))].
Qed.

(** X15: the whole way of a connection, where every read after [free]
    yields the link as the DCB had it (the loop over the victims reads
    [memdata.next] from the DCB it has just released).  A polling DCB is
    closed, and afterwards each of the polling threads [tids], which include
    every thread whose bit is set in the bitmask copied at the close, calls
    [dcb_process_zombies].  Then the zombie list is empty, the DCB is in
    state DISCONNECTED and out of the registry, and the calls made for it
    are, in this order, one [poll_remove_dcb] by the close and then, by the
    reaper, a [close] of its descriptor and exactly one [free]; the reaper
    does not take it out of the poll set again. *)
Theorem dcb_close_then_reap (fuel : nat) (junk : bool) (poll_bitmask : N) (dcb : addr)
    (after_free : addr -> DCB -> option addr)
    (w : World) (l Rg : list addr) (d : DCB) (tids : list N) :
  (forall v x, after_free v x = zombie_link x) ->
  zombie_list w l ->
  registry w Rg ->
  sessions_present w ->
  (forall a, a ∈ l -> state_of w a = Some DCB_STATE_ZOMBIE) ->
  heap w !! dcb = Some d ->
  state d = DCB_STATE_POLLING ->
  dcb ∉ l ->
  zombie_link d = None ->
  S (length l) < fuel ->
  length Rg < fuel ->
  tids <> [] ->
  covered tids poll_bitmask ->
  (forall a m, a ∈ l -> mask_of w a = Some m -> covered tids m) ->
  exists w1 w2 evs,
    dcb_close fuel junk poll_bitmask dcb w = Some (tt, w1) /\
    workers_reap fuel after_free tids w1 = Some (tt, w2) /\
    zombies w2 = None /\
    registry w2 (filter (fun x => x ∉ l ++ [dcb]) Rg) /\
    state_of w2 dcb = Some DCB_STATE_DISCONNECTED /\
    trace w2 = trace w ++ E_poll_remove_dcb dcb :: evs /\
    count_occ event_eq_dec evs (E_free_dcb dcb) = 1 /\
    E_close (fd d) ∈ evs /\
    (forall a, count_occ event_eq_dec evs (E_poll_remove_dcb a) = 0).
Proof.
  intros Hkept Hzl Hreg Hsp Hst Hd Hpoll Hnin Hlink Hfuel Hrfuel Htids Hcov Hcovl.
  destruct (dcb_close_polling_frame fuel junk poll_bitmask dcb w l d Hzl Hd Hpoll Hnin Hlink
              ltac:(lia))
    as (w1 & Hrun1 & Hzl1 & Hs1 & Hm1 & Hoth & Hag & Ht1 & Hall & Hses).
  assert (Hreg1 : registry w1 Rg).
  { apply (registry_agree w w1 Rg Hreg); [|exact Hall].
    apply (agree_weaken (fun x => (next x, session x, fd x)) next
             (fun t => fst (fst t)) _ _ (fun _ => eq_refl) Hag). }
  assert (Hsp1 : sessions_present w1).
  { apply (sessions_present_agree w w1 Hsp); [|exact Hses].
    apply (agree_weaken (fun x => (next x, session x, fd x)) session
             (fun t => snd (fst t)) _ _ (fun _ => eq_refl) Hag). }
  assert (Hst1 : forall a, a ∈ l ++ [dcb] -> state_of w1 a = Some DCB_STATE_ZOMBIE).
  { intros a Ha. apply elem_of_app in Ha as [Ha|Ha].
    - assert (Hne : a <> dcb) by (intros ->; contradiction).
      rewrite (proj1 (Hoth a Hne)). exact (Hst a Ha).
    - apply list_elem_of_singleton in Ha. subst a. exact Hs1. }
  assert (Hcov1 : forall a m, a ∈ l ++ [dcb] -> mask_of w1 a = Some m -> covered tids m).
  { intros a m Ha Hm. apply elem_of_app in Ha as [Ha|Ha].
    - assert (Hne : a <> dcb) by (intros ->; contradiction).
      rewrite (proj2 (Hoth a Hne)) in Hm. exact (Hcovl a m Ha Hm).
    - apply list_elem_of_singleton in Ha. subst a. rewrite Hm1 in Hm.
      injection Hm as <-. exact Hcov. }
  assert (Hlen1 : length (l ++ [dcb]) < fuel).
  { rewrite length_app. cbn [length]. lia. }
  destruct (workers_reap_run fuel after_free tids Hkept w1 (l ++ [dcb]) Rg Hzl1 Hreg1 Hsp1
              Hst1 Hlen1 Hrfuel Hcov1 (fun _ => Htids))
    as (w2 & evs & Hrun2 & [Hz2 _] & Hreg2 & Hstl & _ & _ & Ht2 & Hmaj).
  assert (Hin : dcb ∈ l ++ [dcb]).
  { apply elem_of_app. right. left. }
  assert (Hfd : fd_of w1 dcb = fd d).
  { unfold fd_of.
    pose proof (agree_weaken (fun x => (next x, session x, fd x)) fd
                  (fun t => snd t) _ _ (fun _ => eq_refl) Hag dcb) as E.
    rewrite Hd in E. destruct (heap w1 !! dcb); [|discriminate E].
    injection E as E. exact E. }
  exists w1, w2, evs. split; [exact Hrun1|]. split; [exact Hrun2|].
  split; [apply lseg_nil in Hz2; exact Hz2|]. split; [exact Hreg2|].
  split; [exact (Hstl dcb Hin)|]. split.
  { rewrite Ht2, Ht1, <- app_assoc. reflexivity. }
  split; [|split].
  - rewrite <- (count_occ_major evs) by reflexivity.
    rewrite (proj1 (Permutation_count_occ event_eq_dec _ _) Hmaj).
    rewrite (count_occ_reap_events w1 _ dcb (proj2 Hzl1)).
    rewrite decide_True by exact Hin. reflexivity.
  - pose proof (close_in_reap_events w1 _ dcb Hin) as Hc. rewrite Hfd in Hc.
    rewrite <- Hmaj in Hc. unfold major in Hc.
    apply list_elem_of_filter in Hc. tauto.
  - intros a. rewrite <- (count_occ_major evs) by reflexivity.
    rewrite (proj1 (Permutation_count_occ event_eq_dec _ _) Hmaj).
    apply count_occ_reap_events_other; intros; discriminate.
Qed.

Lemma dcb_close_then_reap_witness :
  exists w1 w2 evs,
    dcb_close 3 false 7 1 (one_dcb_world DCB_STATE_POLLING) = Some (tt, w1) /\
    workers_reap 3 block_kept [0; 1; 2]%N w1 = Some (tt, w2) /\
    zombies w2 = None /\
    registry w2 [] /\
    trace w2 = E_poll_remove_dcb 1 :: evs /\
    count_occ event_eq_dec evs (E_free_dcb 1) = 1.
Proof.
  destruct (dcb_close_then_reap 3 false 7 1 block_kept (one_dcb_world DCB_STATE_POLLING)
              [] [1] _ [0; 1; 2]%N (fun _ _ => eq_refl)
              (one_dcb_world_zombie_list _) (one_dcb_world_registry _)
              (one_dcb_world_sessions _)
              (fun a Ha => False_ind _ (not_elem_of_nil a Ha))
              eq_refl eq_refl (not_elem_of_nil _) eq_refl
              ltac:(simpl; lia) ltac:(simpl; lia) ltac:(discriminate) covered_7
              (fun a m Ha _ => False_ind _ (not_elem_of_nil a Ha)))
    as (w1 & w2 & evs & H1 & H2 & Hz & Hreg & _ & Ht & Hc & _).
  exists w1, w2, evs. split; [exact H1|]. split; [exact H2|]. split; [exact Hz|].
  split; [exact Hreg|]. split; [exact Ht|exact Hc].
Defined.


(** ** dcb_connect *)

Lemma protocol_connect_run (a : addr) (connect : Z) (w : World) (d : DCB) :
  heap w !! a = Some d ->
  state d = DCB_STATE_ALLOC ->
  connect <> (-1)%Z ->
  protocol_connect a connect w =
    Some (connect,
          set_heap (<[a := set_state DCB_STATE_POLLING d]> (heap w))
            (set_trace (trace w ++ [E_poll_add_dcb a]) w)).
Proof.
  intros Hd Hst Hconn. unfold protocol_connect.
  assert (Hneq : (connect =? -1)%Z = false) by (apply Z.eqb_neq; exact Hconn).
  rewrite Hneq. unfold emit at 1. unfold bind at 1.
  set (w1 := set_trace _ w).
  assert (Hd1 : heap w1 !! a = Some d) by exact Hd.
  rewrite (bind_run _ _ _ _ _ (dcb_set_state_run _ _ _ _ _ Hd1)).
  assert (Hleg : legal_transition (state d) DCB_STATE_POLLING = true)
    by (rewrite Hst; reflexivity).
  rewrite (dcb_set_state_nomutex_legal _ _ _ Hleg). rewrite Hst. reflexivity.
Qed.

(** X16: when the protocol module is found, the DCB is linked to the session
    and the protocol's connect yields a descriptor, [dcb_connect] returns the
    new DCB: it is the last of the registry and holds the session and the
    descriptor.  The protocol's connect has put it into the poll set, so it
    is in state POLLING; after that the two counters of the server are
    incremented once each.  Nothing is freed, and the other DCBs, the zombie
    list and the sessions are as before. *)
Theorem dcb_connect_success (fuel : nat) (a : addr) (raw : DCB) (connect : Z)
    (server : nat) (session1 : saddr) (w : World) (l z : list addr) :
  registry w l ->
  zombie_list w z ->
  a ∉ l ->
  a ∉ z ->
  length l <= fuel ->
  connect <> (-1)%Z ->
  exists w',
    dcb_connect fuel (Some (a, raw)) true true connect server session1 w
      = Some (Some a, w') /\
    registry w' (l ++ [a]) /\
    zombie_list w' z /\
    heap w' !! a =
      Some (set_fd connect (set_state DCB_STATE_POLLING (set_session (Some session1)
              (dcb_alloc_init DCB_ROLE_REQUEST_HANDLER raw)))) /\
    state_of w' a = Some DCB_STATE_POLLING /\
    (forall b, b <> a ->
       state_of w' b = state_of w b /\ mask_of w' b = mask_of w b /\
       session <$> heap w' !! b = session <$> heap w !! b /\
       fd <$> heap w' !! b = fd <$> heap w !! b) /\
    sessions w' = sessions w /\
    trace w' = trace w ++ [E_poll_add_dcb a; E_atomic_add_n_connections server;
                           E_atomic_add_n_current server].
Proof.
  intros Hreg [Hz Hnd] Hnin Hninz Hfuel Hconn. unfold dcb_connect.
  destruct (dcb_alloc_run fuel a raw DCB_ROLE_REQUEST_HANDLER w l Hreg Hnin Hfuel)
    as (w1 & Hrun1 & Hreg1 & Ha1 & Hfr1 & Hz1 & Hs1 & Ht1).
  rewrite (bind_run _ _ _ _ _ Hrun1). cbn [negb].
  rewrite (bind_run _ _ _ _ _ (modify_run _ _ _ _ Ha1)).
  set (d2 := set_session (Some session1) (dcb_alloc_init DCB_ROLE_REQUEST_HANDLER raw)).
  set (w2 := set_heap _ w1).
  assert (Ha2 : heap w2 !! a = Some d2) by apply lookup_insert_eq.
  rewrite (bind_run _ _ _ _ _ (protocol_connect_run a connect w2 d2 Ha2 eq_refl Hconn)).
  set (d3 := set_state DCB_STATE_POLLING d2). set (w3 := set_heap _ (set_trace _ w2)).
  assert (Ha3 : heap w3 !! a = Some d3) by apply lookup_insert_eq.
  rewrite (bind_run _ _ _ _ _ (modify_run _ _ _ _ Ha3)).
  set (d4 := set_fd connect d3). set (w4 := set_heap _ w3).
  assert (Ha4 : heap w4 !! a = Some d4) by apply lookup_insert_eq.
  assert (Hneq : (connect =? -1)%Z = false) by (apply Z.eqb_neq; exact Hconn).
  rewrite Hneq.
  assert (Hother : forall b, b <> a -> heap w4 !! b = heap w1 !! b).
  { intros b Hb. unfold w4, w3, w2. wsimpl. rewrite !lookup_insert_ne by congruence.
    reflexivity. }
  assert (Hag : agree next (heap w1) (heap w4)).
  { eapply agree_trans; [apply (agree_insert next _ _ _ d2 Ha1); reflexivity|].
    eapply agree_trans; [apply (agree_insert next _ _ _ d3 Ha2); reflexivity|].
    apply (agree_insert next _ _ _ d4 Ha3). reflexivity. }
  eexists. split; [reflexivity|]. unfold registry, zombie_list, state_of, mask_of. wsimpl.
  split.
  { exact (registry_agree w1 w4 _ Hreg1 Hag eq_refl). }
  split.
  { split; [|exact Hnd]. change (lseg zombie_link (heap w4) (zombies w1) None z).
    rewrite Hz1. eapply lseg_frame; [|exact Hz]. intros b Hb.
    assert (Hne : b <> a) by (intros ->; contradiction).
    rewrite (Hother b Hne).
    apply (fmap_through (set_next None) zombie_link zombie_link); [reflexivity|].
    apply Hfr1. exact Hne. }
  split; [exact Ha4|].
  split; [change (state <$> heap w4 !! a = Some DCB_STATE_POLLING); rewrite Ha4; reflexivity|].
  split.
  { intros b Hb. change (<[a:=d4]> (heap w3)) with (heap w4).
    rewrite (Hother b Hb). specialize (Hfr1 b Hb).
    split; [exact (fmap_through (set_next None) state state _ _ (fun _ => eq_refl) Hfr1)|].
    split; [exact (fmap_through (set_next None) (fun d => bitmask (memdata d))
                     (fun d => bitmask (memdata d)) _ _ (fun _ => eq_refl) Hfr1)|].
    split; [exact (fmap_through (set_next None) session session _ _ (fun _ => eq_refl) Hfr1)|].
    exact (fmap_through (set_next None) fd fd _ _ (fun _ => eq_refl) Hfr1). }
  split; [exact Hs1|]. unfold w4, w3, w2. wsimpl. rewrite Ht1, <- !app_assoc. reflexivity.
Qed.

Lemma dcb_connect_success_witness :
  exists w',
    dcb_connect 3 (Some (2, fresh_dcb 0)) true true 6 0 5 session_world = Some (Some 2, w') /\
    registry w' [1; 2] /\
    state_of w' 2 = Some DCB_STATE_POLLING /\
    trace w' = [E_poll_add_dcb 2; E_atomic_add_n_connections 0; E_atomic_add_n_current 0].
Proof.
  assert (Hreg : registry session_world [1]).
  { split; [|apply NoDup_singleton]. apply lseg_cons. split; [reflexivity|].
    eexists. split; [reflexivity|]. reflexivity. }
  assert (Hzl : zombie_list session_world []).
  { split; [reflexivity|constructor]. }
  assert (Hnin : 2 ∉ [1]).
  { intros Hin. apply list_elem_of_singleton in Hin. discriminate Hin. }
  destruct (dcb_connect_success 3 2 (fresh_dcb 0) 6 0 5 session_world [1] []
              Hreg Hzl Hnin (not_elem_of_nil _) ltac:(simpl; lia) ltac:(discriminate))
    as (w' & Hrun & Hr & _ & _ & Hs & _ & _ & Ht).
  exists w'. split; [exact Hrun|]. split; [exact Hr|]. split; [exact Hs|exact Ht].
Defined.
(** ** What dcb_read and dcb_write return *)

Lemma dcb_read_loop_value (EAGAIN EWOULDBLOCK MAX_BUFFER_SIZE : Z)
    (script : list read_step) :
  forall (b n : Z) (dcb : DCB) (head : list GWBUF) rv dcb' head',
    dcb_read_loop EAGAIN EWOULDBLOCK MAX_BUFFER_SIZE script b n dcb head
      = Some (rv, dcb', head') ->
    exists (new : list GWBUF) (reads : list (list Z)),
      head' = head ++ new /\
      rs_read <$> take (length new) script = R_ok <$> reads /\
      (rv = (-1)%Z \/ rv = 0%Z \/ (new = [] /\ rv = n) \/
       exists bytes, last reads = Some bytes /\ bytes <> [] /\
                     rv = Z.of_nat (length bytes)).
Proof.
  induction script as [|st script IH]; intros b n dcb head rv dcb' head' H.
  - simpl in H. destruct (b >? 0)%Z; [discriminate|]. injection H as <- <- <-.
    exists [], []. rewrite app_nil_r. split; [reflexivity|]. split; [reflexivity|].
    right. right. left. split; reflexivity.
  - simpl in H. destruct (b >? 0)%Z.
    2:{ injection H as <- <- <-.
        exists [], []. rewrite app_nil_r. split; [reflexivity|]. split; [reflexivity|].
        right. right. left. split; reflexivity. }
    destruct (rs_alloc st) as [block|].
    2:{ injection H as <- <- <-.
        exists [], []. rewrite app_nil_r. split; [reflexivity|]. split; [reflexivity|].
        destruct (n =? 0)%Z; [left; reflexivity|]. right. right. left. split; reflexivity. }
    destruct (rs_read st) as [bytes|errno] eqn:Hr.
    + destruct (Z.of_nat (length bytes) =? 0)%Z eqn:Hz.
      { injection H as <- <- <-. apply Z.eqb_eq in Hz.
        exists [], []. rewrite app_nil_r. split; [reflexivity|]. split; [reflexivity|].
        right. left. exact Hz. }
      assert (Hne : bytes <> []).
      { intros ->. cbn in Hz. discriminate Hz. }
      destruct (rs_ioctl st) as [b'|].
      * apply IH in H as (new & reads & -> & Hreads & Hrv).
        exists (filled_buffer (read_bufsize MAX_BUFFER_SIZE b) block bytes :: new),
               (bytes :: reads).
        split; [unfold gwbuf_append; rewrite <- app_assoc; reflexivity|].
        split; [cbn [length take fmap list_fmap]; rewrite Hr; f_equal; exact Hreads|].
        destruct Hrv as [Hrv|[Hrv|[[Hnew Hrv]|(bs & Hlast & Hbs & Hrv)]]].
        -- left. exact Hrv.
        -- right. left. exact Hrv.
        -- right. right. right. exists bytes. subst new.
           destruct reads; [|discriminate Hreads].
           split; [reflexivity|]. split; [exact Hne|exact Hrv].
        -- right. right. right. exists bs. split; [|split; [exact Hbs|exact Hrv]].
           destruct reads as [|r0 reads]; [discriminate Hlast|exact Hlast].
      * injection H as <- <- <-.
        exists [filled_buffer (read_bufsize MAX_BUFFER_SIZE b) block bytes], [bytes].
        split; [reflexivity|].
        split; [cbn [length take fmap list_fmap]; rewrite Hr; reflexivity|].
        left. reflexivity.
    + assert (Hret : rv = (-1)%Z /\ head' = head).
      { destruct (_ || _) in H; injection H as <- _ <-; split; reflexivity. }
      destruct Hret as [-> ->].
      exists [], []. rewrite app_nil_r. split; [reflexivity|]. split; [reflexivity|].
      left. reflexivity.
Qed.

(** X17: the value [dcb_read] returns is -1, 0, or the number of bytes of the
    last [read] that delivered some: not the number of bytes appended to the
    chain by the call.  -1 and 0 do not tell whether buffers were appended
    before the loop ended. *)
Theorem dcb_read_value (EAGAIN EWOULDBLOCK MAX_BUFFER_SIZE : Z) (dcb : DCB)
    (head : list GWBUF) (ioctl0 : option Z) (script : list read_step)
    (rv : Z) (dcb' : DCB) (head' : list GWBUF) :
  dcb_read EAGAIN EWOULDBLOCK MAX_BUFFER_SIZE dcb head ioctl0 script
    = Some (rv, dcb', head') ->
  exists (new : list GWBUF) (reads : list (list Z)),
    head' = head ++ new /\
    rs_read <$> take (length new) script = R_ok <$> reads /\
    (rv = (-1)%Z \/ rv = 0%Z \/
     exists bytes, last reads = Some bytes /\ bytes <> [] /\
                   rv = Z.of_nat (length bytes)).
Proof.
  intros H. unfold dcb_read in H. destruct ioctl0 as [b|].
  - apply dcb_read_loop_value in H as (new & reads & Hh & Hr & Hrv).
    exists new, reads. split; [exact Hh|]. split; [exact Hr|].
    destruct Hrv as [Hrv|[Hrv|[[_ Hrv]|Hrv]]]; auto.
  - injection H as <- <- <-.
    exists [], []. rewrite app_nil_r. split; [reflexivity|]. split; [reflexivity|].
    left. reflexivity.
Qed.

(** Scenario S6: 10240 bytes are read as 4096, 4096 and 2048; the value
    returned is the size of the last read. *)
Lemma dcb_read_value_witness :
  exists dcb' head' new reads,
    dcb_read 11 11 4096 (fresh_dcb 3) [] (Some 10240%Z) (drain_script 3 4096 10240)
      = Some (2048%Z, dcb', head') /\
    head' = [] ++ new /\
    rs_read <$> take (length new) (drain_script 3 4096 10240) = R_ok <$> reads.
Proof.
  assert (H : exists dcb' head',
             dcb_read 11 11 4096 (fresh_dcb 3) [] (Some 10240%Z) (drain_script 3 4096 10240)
             = Some (2048%Z, dcb', head')).
  { eexists _, _. vm_compute. reflexivity. }
  destruct H as (dcb' & head' & H).
  destruct (dcb_read_value 11 11 4096 (fresh_dcb 3) [] (Some 10240%Z)
              (drain_script 3 4096 10240) _ _ _ H) as (new & reads & H1 & H2 & _).
  exists dcb', head', new, reads. split; [exact H|]. split; [exact H1|exact H2].
Defined.



(** ** dcb_add_to_zombieslist *)

(** X19: [dcb_add_to_zombieslist] works on the zombie chain and on the state
    of its DCB only: the registry, the sessions, every bitmask and descriptor
    and the state of every other DCB are as before, and no call leaves the
    file -- in particular the descriptor stays in the poll set unless the
    caller took it out. *)
Theorem dcb_add_to_zombieslist_frame (fuel : nat) (dcb : addr) (w : World)
    (l Rg : list addr) (d : DCB) :
  zombie_list w l ->
  registry w Rg ->
  sessions_present w ->
  heap w !! dcb = Some d ->
  (dcb ∉ l -> zombie_link d = None) ->
  length l <= fuel ->
  exists w',
    dcb_add_to_zombieslist fuel dcb w = Some (tt, w') /\
    registry w' Rg /\
    sessions_present w' /\
    (forall a, a <> dcb -> state_of w' a = state_of w a) /\
    (forall a, mask_of w' a = mask_of w a /\ fd_of w' a = fd_of w a) /\
    sessions w' = sessions w /\
    trace w' = trace w.
Proof.
  intros Hzl Hreg Hsp Hd Hfresh Hfuel.
  destruct (decide (state d = DCB_STATE_ZOMBIE)) as [Hst|Hst].
  - exists w. split; [exact (dcb_add_to_zombieslist_zombie _ _ _ _ Hd Hst)|].
    split; [exact Hreg|]. split; [exact Hsp|]. repeat split; reflexivity.
  - destruct (dcb_add_to_zombieslist_run fuel dcb w l d Hzl Hd Hfresh Hfuel Hst)
      as (w' & Hrun & _ & _ & Hoth & Hag & Hall & Hses & Ht).
    exists w'. split; [exact Hrun|]. split.
    { apply (registry_agree w w' Rg Hreg); [|exact Hall].
      apply (agree_weaken (fun x => (bitmask (memdata x), next x, session x, fd x)) next
               (fun t => snd (fst (fst t))) _ _ (fun _ => eq_refl) Hag). }
    split.
    { apply (sessions_present_agree w w' Hsp); [|exact Hses].
      apply (agree_weaken (fun x => (bitmask (memdata x), next x, session x, fd x)) session
               (fun t => snd (fst t)) _ _ (fun _ => eq_refl) Hag). }
    split; [exact Hoth|]. split; [|split; [exact Hses|exact Ht]].
    intros a. split.
    + unfold mask_of.
      apply (agree_weaken (fun x => (bitmask (memdata x), next x, session x, fd x))
               (fun x => bitmask (memdata x)) (fun t => fst (fst (fst t)))
               _ _ (fun _ => eq_refl) Hag).
    + unfold fd_of.
      pose proof (agree_weaken (fun x => (bitmask (memdata x), next x, session x, fd x)) fd
                    (fun t => snd t) _ _ (fun _ => eq_refl) Hag a) as Hfd.
      destruct (heap w' !! a), (heap w !! a); cbn in Hfd; try discriminate;
        [injection Hfd as Hfd; exact Hfd|reflexivity].
Qed.

Lemma dcb_add_to_zombieslist_frame_witness :
  exists w',
    dcb_add_to_zombieslist 1 1 (one_dcb_world DCB_STATE_NOPOLLING) = Some (tt, w') /\
    registry w' [1] /\
    trace w' = [].
Proof.
  destruct (dcb_add_to_zombieslist_frame 1 1 (one_dcb_world DCB_STATE_NOPOLLING) [] [1] _
              (one_dcb_world_zombie_list _) (one_dcb_world_registry _)
              (one_dcb_world_sessions _) eq_refl (fun _ => eq_refl) ltac:(simpl; lia))
    as (w' & Hrun & Hreg & _ & _ & _ & _ & Ht).
  exists w'. split; [exact Hrun|]. split; [exact Hreg|exact Ht].
Defined.

